(** * xplx-access-bot: the entitlement reconciliation engine of index.js

    A shallow embedding of the second revision of [index.js] (the one with the
    subscription audit) and of [shopify.js], and the properties of the
    specification checked against it, followed by further properties of the
    code: the command handler, the outcomes and the effects of a
    verification, the changes and the calls of a sweep, the masking of the
    e-mails.

    Modelling conventions.
    - A JavaScript string is a [string] of bytes.  [toLowerCase] and [trim]
      act on the ASCII letters and the ASCII white space; bytes above 127 are
      left as they are.
    - A record of the store has the fields that the handler and the sweep
      write, with their types; a missing or null [lastPaidAt] is [None], a
      missing [discordUserId] is the empty string.
    - A role of the guild is identified by its name, as the interface of the
      membership platform in the specification does
      ([addRole(member, roleName)]); [rolesByName.get n] is then the presence
      of [n] among the roles of the guild.
    - The JSON store is a finite map from e-mail to record ([gmap]); the order
      in which [Object.entries] lists it is the order of [map_to_list], and no
      statement below depends on it.
    - Asynchronous code is run to completion as one unit of work: a state and
      exception monad over the [World] (file, guild, clock, fault script and
      the trace of the effects issued).  The clock does not advance during a
      unit of work.
    - A call to [postBotLog] is a log event of the trace, whether or not a log
      channel is configured to receive it.  The replies to the requester are
      not effects of the trace and are taken to succeed: the handler returns
      the outcome they announce. *)

From Stdlib Require Import ZArith String Ascii List Bool Lia.
From stdpp Require Import base gmap sets list strings pretty.

Local Open Scope string_scope.
Local Open Scope list_scope.
Local Open Scope Z_scope.

(** ** JavaScript strings *)

Module JsString.

Definition isWhiteSpace (c : ascii) : bool :=
  let n := nat_of_ascii c in
  ((9 <=? n)%nat && (n <=? 13)%nat) || (n =? 32)%nat.

Definition lowerChar (c : ascii) : ascii :=
  let n := nat_of_ascii c in
  if ((65 <=? n)%nat && (n <=? 90)%nat) then ascii_of_nat (n + 32) else c.

Fixpoint toLowerCase (s : string) : string :=
  match s with
  | EmptyString => EmptyString
  | String c s' => String (lowerChar c) (toLowerCase s')
  end.

Fixpoint trimStart (s : string) : string :=
  match s with
  | EmptyString => EmptyString
  | String c s' => if isWhiteSpace c then trimStart s' else s
  end.

Fixpoint trimEnd (s : string) : string :=
  match s with
  | EmptyString => EmptyString
  | String c s' =>
      match trimEnd s' with
      | EmptyString => if isWhiteSpace c then EmptyString else String c EmptyString
      | r => String c r
      end
  end.

Definition trim (s : string) : string := trimEnd (trimStart s).

Fixpoint startsWith (s needle : string) {struct needle} : bool :=
  match needle, s with
  | EmptyString, _ => true
  | String _ _, EmptyString => false
  | String a needle', String b s' =>
      if Ascii.eqb a b then startsWith s' needle' else false
  end.

(** [s.includes(needle)] *)
Fixpoint includes (s needle : string) : bool :=
  startsWith s needle ||
  match s with
  | EmptyString => false
  | String _ s' => includes s' needle
  end.

(** The declarative reading of [includes]: [needle] occurs as a substring. *)
Definition Substring (needle s : string) : Prop :=
  exists pre post, s = String.append pre (String.append needle post).

(** Truthiness of a string value: only the empty string is falsy. *)
Definition truthy (s : string) : bool :=
  match s with EmptyString => false | _ => true end.

End JsString.

Import JsString.

(** ** Configuration *)

Record Tier := { product : string; role : string }.

Record Config := {
  TIERS : list Tier;
  BASE_ROLE_NAME : string;
  AUDIT_DRY_RUN : bool;
  AUDIT_GRACE_DAYS : Z
}.

Definition ALL_ROLE_NAMES (cfg : Config) : list string := map role (TIERS cfg).

(** The constants of [index.js], with the defaults of the audit options. *)
Definition sourceTiers : list Tier :=
  [ {| product := "ELITE TRADER MENTORSHIP"; role := "Elite Member" |};
    {| product := "MARKET EXECUTION PROGRAM"; role := "Execution Member" |};
    {| product := "MARKET FOUNDATION PROGRAM"; role := "Foundation Member" |};
    {| product := "VIP ACCESS"; role := "VIP" |};
    {| product := "FREE DISCORD ACCESS"; role := "Members" |} ].

Definition sourceConfig : Config :=
  {| TIERS := sourceTiers;
     BASE_ROLE_NAME := "Members";
     AUDIT_DRY_RUN := false;
     AUDIT_GRACE_DAYS := 35 |}.

(** ** Tier resolver *)

Definition normalize (s : string) : string := toLowerCase (trim s).

Definition normEmail (email : string) : string := toLowerCase (trim email).

Definition isTierTitleMatch (lineItemTitle tierProductName : string) : bool :=
  includes (normalize lineItemTitle) (normalize tierProductName).

(** The test of the loop of [pickHighestTier]:
    [normTitles.some((x) => x.includes(normalize(t.product)))]. *)
Definition someTitleIncludes (normTitles : list string) (t : Tier) : bool :=
  existsb (fun x => includes x (normalize (product t))) normTitles.

Fixpoint firstTier (normTitles : list string) (tiers : list Tier) : option Tier :=
  match tiers with
  | [] => None
  | t :: rest =>
      if someTitleIncludes normTitles t then Some t else firstTier normTitles rest
  end.

Definition pickHighestTier (cfg : Config) (titles : list string) : option Tier :=
  let normTitles := map normalize titles in
  firstTier normTitles (TIERS cfg).


(** ** Dates

    [new Date(s).getTime()] and [toISOString] of the host: a time is a number
    of milliseconds since the epoch, an invalid date ([NaN]) is [None].  The
    engine is stated over any such pair; [isoDate] below is the instance for
    the format [toISOString] prints. *)

Class JsDate := {
  dateParse : string -> option Z;
  toISOString : Z -> string
}.

Definition msPerDay : Z := 1000 * 60 * 60 * 24.

Definition daysBetween (now past : Z) : Z := (now - past) / msPerDay.

(** ** Records, store, platform *)

Record EmailRecord := {
  discordUserId : string;
  userTag : string;
  tier : string;
  isSubscription : bool;
  lastPaidAt : option string;
  updatedAt : string;
  lastAuditAt : option string;
  lastAuditReason : option string
}.

(** What [EMAIL_MAP_PATH] holds: no directory, no file, bytes that
    [JSON.parse] rejects, or the JSON object of the records. *)
Inductive FileState :=
| NoDirectory
| NoFile
| Unparsable (raw : string)
| Parsed (m : gmap string EmailRecord).

Record Guild := {
  guildRoles : gset string;
  guildMembers : gmap string (gset string)
}.

Inductive Level := INFO | WARN | ERROR | SUCCESS.

Inductive Effect :=
| BotLog (event : string) (level : Level) (email userId detail : string)
| LoggerLog (level : Level) (event email : string)
| RolesAdd (userId roleName : string)
| RolesRemove (userId : string) (roleNames : list string)
| WriteFile (m : gmap string EmailRecord).

(** [loaded] is the object returned by [loadEmailMap] to the running unit of
    work (the variable [map] of the sweep, [emailMap] of the handler), which
    [map[email] = ...] mutates.  [faults] scripts the fallible calls to the
    platform and the file system: each call consumes one entry, [Some err]
    makes it throw [err]; an exhausted script means no fault. *)
Record World := {
  file : FileState;
  loaded : gmap string EmailRecord;
  guild : option Guild;
  clock : Z;
  faults : list (option string);
  trace : list Effect
}.

Definition setFile (f : FileState) (w : World) : World :=
  {| file := f; loaded := loaded w; guild := guild w; clock := clock w;
     faults := faults w; trace := trace w |}.

Definition setLoaded (m : gmap string EmailRecord) (w : World) : World :=
  {| file := file w; loaded := m; guild := guild w; clock := clock w;
     faults := faults w; trace := trace w |}.

Definition setGuild (g : option Guild) (w : World) : World :=
  {| file := file w; loaded := loaded w; guild := g; clock := clock w;
     faults := faults w; trace := trace w |}.

Definition setFaults (fs : list (option string)) (w : World) : World :=
  {| file := file w; loaded := loaded w; guild := guild w; clock := clock w;
     faults := fs; trace := trace w |}.

Definition addTrace (e : Effect) (w : World) : World :=
  {| file := file w; loaded := loaded w; guild := guild w; clock := clock w;
     faults := faults w; trace := trace w ++ [e] |}.

(** ** The monad of a unit of work: state and exceptions *)

Inductive Result (A : Type) :=
| Ok (a : A)
| Throw (err : string).
Arguments Ok {A} a.
Arguments Throw {A} err.

Definition M (A : Type) : Type := World -> Result A * World.

Definition ret {A} (a : A) : M A := fun w => (Ok a, w).

Definition bind {A B} (c : M A) (k : A -> M B) : M B :=
  fun w =>
    match c w with
    | (Ok a, w') => k a w'
    | (Throw err, w') => (Throw err, w')
    end.

Definition throw {A} (err : string) : M A := fun w => (Throw err, w).

(** [try { c } catch (err) { h err }] *)
Definition tryCatch {A} (c : M A) (h : string -> M A) : M A :=
  fun w =>
    match c w with
    | (Ok a, w') => (Ok a, w')
    | (Throw err, w') => h err w'
    end.

Definition await {A} (r : Result A) : M A := fun w => (r, w).

Definition gets {A} (f : World -> A) : M A := fun w => (Ok (f w), w).

Definition modify (f : World -> World) : M unit := fun w => (Ok tt, f w).

#[global] Instance M_bind : MBind M := fun A B k c => bind c k.

Fixpoint forEach {A} (l : list A) (f : A -> M unit) : M unit :=
  match l with
  | [] => ret tt
  | x :: rest => bind (f x) (fun _ => forEach rest f)
  end.

(** ** Primitive effects *)

Definition emit (e : Effect) : M unit := modify (addTrace e).

(** [postBotLog(client, event, payload, level)]: it swallows the errors of
    its own channel calls, so it never throws. *)
Definition postBotLog (event : string) (level : Level)
    (email userId detail : string) : M unit :=
  emit (BotLog event level email userId detail).

Definition loggerLog (level : Level) (event email : string) : M unit :=
  emit (LoggerLog level event email).

(** A fallible call consumes the next entry of the fault script, which
    decides whether it throws. *)
Definition nextFault (w : World) : option string :=
  match faults w with
  | Some err :: _ => Some err
  | _ => None
  end.

Definition popFault (w : World) : World := setFaults (tail (faults w)) w.

Definition external : M unit :=
  fun w =>
    match nextFault w with
    | Some err => (Throw err, popFault w)
    | None => (Ok tt, popFault w)
    end.

(** ** Identity link store *)

(** [if (!fs.existsSync(dir)) fs.mkdirSync(dir, { recursive: true })]; the
    creation of the directory is taken to succeed. *)
Definition mkdirWorld (w : World) : World :=
  match file w with
  | NoDirectory => setFile NoFile w
  | _ => w
  end.

Definition ensureDirForFile : M unit := modify mkdirWorld.

Definition loadEmailMap : M (gmap string EmailRecord) :=
  ensureDirForFile;;
  f ← gets file;
  match f with
  | NoDirectory | NoFile => ret ∅
  | Unparsable _ => ret ∅
  | Parsed m => ret m
  end.

Definition saveEmailMap (m : gmap string EmailRecord) : M unit :=
  ensureDirForFile;;
  emit (WriteFile m);;
  external;;
  modify (setFile (Parsed m)).

(** [saveEmailMap(map)] on the object of the running unit of work. *)
Definition saveLoaded : M unit :=
  m ← gets loaded;
  saveEmailMap m.

(** ** Role reconciler *)

Definition rolesByName (g : Guild) (n : string) : option string :=
  if decide (n ∈ guildRoles g) then Some n else None.

(** [guild.roles.cache]: a [TypeError] when there is no guild. *)
Definition theGuild : M Guild :=
  g ← gets guild;
  match g with
  | Some g => ret g
  | None => throw "TypeError: Cannot read properties of null (reading 'roles')"
  end.

Definition updateMember (uid : string) (f : gset string -> gset string)
    (w : World) : World :=
  setGuild
    ((fun g => {| guildRoles := guildRoles g;
                  guildMembers := alter f uid (guildMembers g) |}) <$> guild w)
    w.

Definition memberRoles (uid : string) (w : World) : option (gset string) :=
  g ← guild w; guildMembers g !! uid.

(** The member object of the call: a [TypeError] when it is null. *)
Definition theMember (uid : string) : M unit :=
  r ← gets (memberRoles uid);
  match r with
  | Some _ => ret tt
  | None => throw "TypeError: Cannot read properties of null (reading 'roles')"
  end.

Definition rolesAdd (uid r : string) : M unit :=
  theMember uid;;
  emit (RolesAdd uid r);;
  external;;
  modify (updateMember uid (fun rs => rs ∪ {[r]})).

Definition rolesRemove (uid : string) (rs : list string) : M unit :=
  theMember uid;;
  emit (RolesRemove uid rs);;
  external;;
  modify (updateMember uid (fun cur => cur ∖ list_to_set rs)).

Definition otherTierRoles (cfg : Config) (g : Guild) (roleName : string)
    : list string :=
  omap (rolesByName g)
    (filter (fun n => n <> BASE_ROLE_NAME cfg /\ n <> roleName)
       (ALL_ROLE_NAMES cfg)).

Definition setExclusiveTierRole (cfg : Config) (uid roleName : string) : M unit :=
  g ← theGuild;
  match rolesByName g (BASE_ROLE_NAME cfg) with
  | None => throw ("Base role not found: " +:+ BASE_ROLE_NAME cfg)
  | Some base =>
      match rolesByName g roleName with
      | None => throw ("Target role not found: " +:+ roleName)
      | Some target =>
          rolesAdd uid base;;
          rolesAdd uid target;;
          let toRemove := otherTierRoles cfg g roleName in
          match toRemove with
          | [] => ret tt
          | _ => rolesRemove uid toRemove
          end
      end
  end.

Definition paidTierRoles (cfg : Config) (g : Guild) : list string :=
  omap (rolesByName g)
    (filter (fun n => n <> BASE_ROLE_NAME cfg) (ALL_ROLE_NAMES cfg)).

Definition downgradeToMembers (cfg : Config) (uid : string) : M unit :=
  g ← theGuild;
  match rolesByName g (BASE_ROLE_NAME cfg) with
  | None => throw ("Base role not found: " +:+ BASE_ROLE_NAME cfg)
  | Some base =>
      rolesAdd uid base;;
      let toRemove := paidTierRoles cfg g in
      match toRemove with
      | [] => ret tt
      | _ => rolesRemove uid toRemove
      end
  end.

(** ** Commerce gateway (shopify.js) *)

Module Shopify.

(** A line item node of the GraphQL reply: [title] and
    [sellingPlan { name }]. *)
Record LineNode := { nodeTitle : string; sellingPlan : option string }.

Record Order := { createdAt : string; lineItems : list LineNode }.

(** The outcome of [shopifyGraphQL]: an error thrown (missing environment,
    HTTP status, GraphQL errors) or [data.orders.nodes]. *)
Inductive Reply :=
| Failed (err : string)
| Orders (nodes : list Order).

(** An item as [index.js] reads it; a field the object does not have is
    [None]. *)
Record LineItem := {
  title : string;
  isSubscription : bool;
  sellingPlanName : option string;
  paidAt : option string
}.

(** [li?.sellingPlan?.name || null] *)
Definition planNameOf (li : LineNode) : option string :=
  match sellingPlan li with
  | Some n => if truthy n then Some n else None
  | None => None
  end.

(** [{ title, isSubscription: !!planName, sellingPlanName: planName }]: the
    object has no [paidAt]. *)
Definition itemOf (li : LineNode) : LineItem :=
  let planName := planNameOf li in
  {| title := nodeTitle li;
     isSubscription := match planName with Some _ => true | None => false end;
     sellingPlanName := planName;
     paidAt := None |}.

Definition itemsOf (orders : list Order) : list LineItem :=
  flat_map (fun order => map itemOf (lineItems order)) orders.

(** The gateway has no effect on the world: it returns the items or throws. *)
Definition getPaidLineItemsByEmail (shop : string -> Reply) (email : string)
    : Result (list LineItem) :=
  match shop email with
  | Failed err => Throw err
  | Orders nodes => Ok (itemsOf nodes)
  end.

End Shopify.

(** [getPaidProductTitlesByEmail] of [shopify.js]:
    [items.map((x) => x.title)] over the items of the gateway. *)
Definition getPaidProductTitlesByEmail (shop : string -> Shopify.Reply)
    (email : string) : Result (list string) :=
  match Shopify.getPaidLineItemsByEmail shop email with
  | Ok items => Ok (map Shopify.title items)
  | Throw err => Throw err
  end.

(** ** Verification workflow *)

Record Interaction := {
  emailOption : string;
  userId : string;
  userTagOf : string
}.

Inductive VerificationOutcome :=
| InvalidEmail
| AlreadyLinkedConflict
| NoPaidOrder
| PaidNoTierMatch
| Verified (roleName : string)
| VerificationFailed (err : string).

(** [Math.max(...times)]: [NaN] as soon as one time is [NaN]. *)
Fixpoint maxTime (times : list (option Z)) : option Z :=
  match times with
  | [] => None
  | [t] => t
  | t :: rest =>
      match t, maxTime rest with
      | Some a, Some b => Some (Z.max a b)
      | _, _ => None
      end
  end.

(** [items.map((x) => x.paidAt).filter(Boolean)] *)
Definition paidAtStrings (items : list Shopify.LineItem) : list string :=
  omap (fun x => match Shopify.paidAt x with
                 | Some d => if truthy d then Some d else None
                 | None => None
                 end) items.

Definition matchedIsSubscriptionOf (items : list Shopify.LineItem) (t : Tier)
    : bool :=
  existsb (fun li => isTierTitleMatch (Shopify.title li) (product t)
                     && Shopify.isSubscription li) items.

(** [emailMap[email] && emailMap[email].discordUserId !== interaction.user.id]:
    the user the e-mail is bound to, when it is not the requester. *)
Definition linkedToOther (emailMap : gmap string EmailRecord)
    (email uid : string) : option string :=
  match emailMap !! email with
  | Some existing =>
      if negb (String.eqb (discordUserId existing) uid)
      then Some (discordUserId existing) else None
  | None => None
  end.

Section Engine.

Context {date : JsDate}.

Definition newestPaidIso (items : list Shopify.LineItem) : option string :=
  let paidDates := map dateParse (paidAtStrings items) in
  match paidDates with
  | [] => None
  | _ => toISOString <$> maxTime paidDates
  end.

(** The record the handler stores on success. *)
Definition verifiedRecord (i : Interaction) (t : Tier)
    (items : list Shopify.LineItem) (now : Z) : EmailRecord :=
  {| discordUserId := userId i;
     userTag := userTagOf i;
     tier := role t;
     isSubscription := matchedIsSubscriptionOf items t;
     lastPaidAt := newestPaidIso items;
     updatedAt := toISOString now;
     lastAuditAt := None;
     lastAuditReason := None |}.

(** The [try] block of the [/verify] branch. *)
Definition verifyTry (cfg : Config)
    (gateway : string -> Result (list Shopify.LineItem)) (i : Interaction)
    (email : string) : M VerificationOutcome :=
  items ← await (gateway email);
  let titles := map Shopify.title items in
  let tier := pickHighestTier cfg titles in
  postBotLog "shopify_line_items" INFO email (userId i) "";;
  match titles with
  | [] =>
      postBotLog "verify_no_paid_orders" WARN email (userId i) "";;
      ret NoPaidOrder
  | _ =>
      postBotLog "tier_matched" INFO email (userId i)
        (from_option role "" tier);;
      match tier with
      | None =>
          postBotLog "verify_paid_but_no_tier_match" WARN email (userId i) "";;
          ret PaidNoTierMatch
      | Some tier =>
          let lastPaidAtIso := newestPaidIso items in
          setExclusiveTierRole cfg (userId i) (role tier);;
          now ← gets clock;
          modify (fun w =>
            setLoaded (<[email := verifiedRecord i tier items now]> (loaded w)) w);;
          saveLoaded;;
          loggerLog INFO "verify_success" email;;
          postBotLog "verify_success"
            (match lastPaidAtIso with Some _ => SUCCESS | None => WARN end)
            email (userId i) (from_option id "missing" lastPaidAtIso);;
          ret (Verified (role tier))
      end
  end.

(** Its [catch] block. *)
Definition verifyCatch (i : Interaction) (email err : string)
    : M VerificationOutcome :=
  loggerLog ERROR "verify_error" email;;
  postBotLog "verify_error" ERROR email (userId i) err;;
  ret (VerificationFailed err).

(** The [/verify] branch of the [InteractionCreate] handler, over the
    gateway it calls. *)
Definition verifyHandler (cfg : Config)
    (gateway : string -> Result (list Shopify.LineItem)) (i : Interaction)
    : M VerificationOutcome :=
  let email := normEmail (emailOption i) in
  emailMap ← loadEmailMap;
  modify (setLoaded emailMap);;
  loggerLog INFO "verify_requested" email;;
  postBotLog "verify_requested" INFO email (userId i) "";;
  if negb (truthy email) || negb (includes email "@") then
    postBotLog "verify_invalid_email" WARN email (userId i) "";;
    ret InvalidEmail
  else
  match linkedToOther emailMap email (userId i) with
  | Some existingUserId =>
      postBotLog "verify_email_already_linked" WARN email (userId i)
        existingUserId;;
      ret AlreadyLinkedConflict
  | None => tryCatch (verifyTry cfg gateway i email) (verifyCatch i email)
  end.

(** The handler wired to [shopify.js]. *)
Definition verify (cfg : Config) (shop : string -> Shopify.Reply)
    (i : Interaction) : M VerificationOutcome :=
  verifyHandler cfg (Shopify.getPaidLineItemsByEmail shop) i.

(** The [/lookup] branch, past its permission checks. *)
Definition lookupHandler (i : Interaction) : M (option EmailRecord) :=
  let email := normEmail (emailOption i) in
  map ← loadEmailMap;
  let entry := map !! email in
  postBotLog "admin_lookup" INFO email (userId i) "";;
  ret entry.

(** ** Audit scheduler *)

(** [guild.members.fetch(id).catch(() => null)] *)
Definition fetchMember (uid : string) : M (option (gset string)) :=
  tryCatch (external;; gets (memberRoles uid)) (fun _ => ret None).

(** A value of [rec.lastPaidAt] that passes [!rec.lastPaidAt]. *)
Definition presentLastPaidAt (rec : EmailRecord) : option string :=
  match lastPaidAt rec with
  | Some s => if truthy s then Some s else None
  | None => None
  end.

Definition downgradedRecord (cfg : Config) (rec : EmailRecord)
    (daysSincePaid now : Z) : EmailRecord :=
  {| discordUserId := discordUserId rec;
     userTag := userTag rec;
     tier := BASE_ROLE_NAME cfg;
     isSubscription := isSubscription rec;
     lastPaidAt := lastPaidAt rec;
     updatedAt := toISOString now;
     lastAuditAt := Some (toISOString now);
     lastAuditReason := Some ("overdue_" +:+ pretty daysSincePaid +:+ "d") |}.

(** The body of the [try] block of the sweep, for one entry; every
    [continue] is a [ret tt]. *)
Definition auditRecord (cfg : Config) (now : Z) (email : string)
    (rec : EmailRecord) : M unit :=
  if negb (isSubscription rec) then ret tt else
  if negb (truthy (discordUserId rec)) then ret tt else
  match presentLastPaidAt rec with
  | None =>
      postBotLog "audit_skip_missing_lastPaidAt" WARN email (discordUserId rec)
        "Record missing lastPaidAt; skipping for safety."
  | Some s =>
      match dateParse s with
      | None =>
          postBotLog "audit_skip_invalid_lastPaidAt" WARN email
            (discordUserId rec) "Invalid lastPaidAt format; skipping for safety."
      | Some lastPaidDate =>
          let daysSincePaid := daysBetween now lastPaidDate in
          if (daysSincePaid <? AUDIT_GRACE_DAYS cfg)%Z then ret tt else
          g ← gets guild;
          match g with
          | None => ret tt
          | Some _ =>
              member ← fetchMember (discordUserId rec);
              match member with
              | None =>
                  postBotLog "audit_member_not_found" WARN email
                    (discordUserId rec) (pretty daysSincePaid)
              | Some _ =>
                  postBotLog "audit_overdue_detected" WARN email
                    (discordUserId rec) (pretty daysSincePaid);;
                  if AUDIT_DRY_RUN cfg then ret tt else
                  downgradeToMembers cfg (discordUserId rec);;
                  stamp ← gets clock;
                  modify (fun w =>
                    setLoaded (<[email :=
                      downgradedRecord cfg rec daysSincePaid stamp]> (loaded w)) w);;
                  saveLoaded;;
                  postBotLog "audit_downgrade_success" SUCCESS email
                    (discordUserId rec) (pretty daysSincePaid)
              end
          end
      end
  end.

(** One iteration of the loop: the body under its [catch]. *)
Definition auditEntry (cfg : Config) (now : Z)
    (entry : string * EmailRecord) : M unit :=
  tryCatch (auditRecord cfg now entry.1 entry.2)
    (fun err =>
       postBotLog "audit_error" ERROR entry.1 (discordUserId entry.2) err).

Definition runSubscriptionAudit (cfg : Config) : M unit :=
  map ← loadEmailMap;
  modify (setLoaded map);;
  now ← gets clock;
  postBotLog "audit_start" INFO "" "" "Audit started";;
  forEach (map_to_list map) (auditEntry cfg now);;
  postBotLog "audit_end" INFO "" "" "Audit finished".

End Engine.

(** ** Masking of the e-mails of the log channel *)

Module JsSplit.

(** [s.split(sep)] for a separator of one character: the pieces between
    the occurrences of [sep], at least one. *)
Fixpoint split (sep : ascii) (s : string) : list string :=
  match s with
  | EmptyString => [EmptyString]
  | String c s' =>
      if Ascii.eqb c sep then EmptyString :: split sep s'
      else
        match split sep s' with
        | piece :: pieces => String c piece :: pieces
        | [] => [String c EmptyString]
        end
  end.


End JsSplit.


(** ** Command handler *)

(** What the handler reads of an interaction besides the request itself:
    [isChatInputCommand()], [commandName], [channelId] and
    [memberPermissions?.has("Administrator")]. *)
Record Command := {
  isChatInputCommand : bool;
  commandName : string;
  channelId : string;
  administrator : bool;
  request : Interaction
}.

(** The answer of the handler to the interaction. *)
Inductive Response :=
| NoResponse
| Restricted (why : string)
| LookupResult (entry : option EmailRecord)
| StatusResult (count : nat) (matchedRole : option string) (subscription : bool)
| StatusFailed
| VerifyResult (outcome : VerificationOutcome).

Section Commands.

Context {date : JsDate}.

(** The [/status] branch, past its permission checks. *)
Definition statusHandler (cfg : Config)
    (gateway : string -> Result (list Shopify.LineItem)) (i : Interaction)
    : M Response :=
  let statusEmail := normEmail (emailOption i) in
  tryCatch
    (items ← await (gateway statusEmail);
     let titles := map Shopify.title items in
     let tier := pickHighestTier cfg titles in
     postBotLog "admin_status" INFO statusEmail (userId i)
       (from_option role "" tier);;
     ret (StatusResult (length items) (role <$> tier)
            (existsb Shopify.isSubscription items)))
    (fun err =>
       postBotLog "admin_status_error" ERROR statusEmail (userId i) err;;
       ret StatusFailed).

(** The listener of [InteractionCreate]; [LOG_CHANNEL_ID] is the empty
    string when the variable is not set. *)
Definition onInteraction (cfg : Config) (LOG_CHANNEL_ID : string)
    (gateway : string -> Result (list Shopify.LineItem)) (c : Command)
    : M Response :=
  if negb (isChatInputCommand c) then ret NoResponse else
  let cmd := commandName c in
  if negb (String.eqb cmd "verify") && negb (String.eqb cmd "lookup")
     && negb (String.eqb cmd "status") then ret NoResponse else
  let admin := String.eqb cmd "lookup" || String.eqb cmd "status" in
  if admin && (truthy LOG_CHANNEL_ID
               && negb (String.eqb (channelId c) LOG_CHANNEL_ID)) then
    ret (Restricted "Use this command in the bot logs channel only.")
  else if admin && negb (administrator c) then
    ret (Restricted "Admin only.")
  else if String.eqb cmd "lookup" then
    entry ← lookupHandler (request c);
    ret (LookupResult entry)
  else if String.eqb cmd "status" then
    statusHandler cfg gateway (request c)
  else
    outcome ← verifyHandler cfg gateway (request c);
    ret (VerifyResult outcome).

End Commands.

(** ** The ISO 8601 instance of the dates

    The format [toISOString] prints, [YYYY-MM-DDTHH:mm:ss.sssZ] (the
    milliseconds are optional on input), over the proleptic Gregorian
    calendar. *)

Module Iso.

Definition daysFromCivil (y m d : Z) : Z :=
  let y' := if (m <=? 2)%Z then y - 1 else y in
  let era := y' / 400 in
  let yoe := y' - era * 400 in
  let mp := if (2 <? m)%Z then m - 3 else m + 9 in
  let doy := (153 * mp + 2) / 5 + d - 1 in
  let doe := yoe * 365 + yoe / 4 - yoe / 100 + doy in
  era * 146097 + doe - 719468.

Definition civilFromDays (days : Z) : Z * Z * Z :=
  let z := days + 719468 in
  let era := z / 146097 in
  let doe := z - era * 146097 in
  let yoe := (doe - doe / 1460 + doe / 36524 - doe / 146096) / 365 in
  let doy := doe - (365 * yoe + yoe / 4 - yoe / 100) in
  let mp := (5 * doy + 2) / 153 in
  let d := doy - (153 * mp + 2) / 5 + 1 in
  let m := if (mp <? 10)%Z then mp + 3 else mp - 9 in
  let y := yoe + era * 400 in
  (if (m <=? 2)%Z then y + 1 else y, m, d).

Definition digitOf (c : ascii) : option Z :=
  let n := Z.of_nat (nat_of_ascii c) in
  if ((48 <=? n)%Z && (n <=? 57)%Z) then Some (n - 48) else None.

Fixpoint readDigits (n : nat) (acc : Z) (s : string) : option (Z * string) :=
  match n with
  | O => Some (acc, s)
  | S n' =>
      match s with
      | String c s' => d ← digitOf c; readDigits n' (acc * 10 + d) s'
      | EmptyString => None
      end
  end.

Definition expect (c : ascii) (s : string) : option string :=
  match s with
  | String c' s' => if Ascii.eqb c c' then Some s' else None
  | EmptyString => None
  end.

Definition readMillis (s : string) : option Z :=
  match s with
  | String c s' =>
      if Ascii.eqb c "Z"%char then
        match s' with EmptyString => Some 0 | _ => None end
      else if Ascii.eqb c "."%char then
        match readDigits 3 0 s' with
        | Some (ms, String z EmptyString) =>
            if Ascii.eqb z "Z"%char then Some ms else None
        | _ => None
        end
      else None
  | EmptyString => None
  end.

(** [n] digits followed by the separator [sep]. *)
Definition field (n : nat) (sep : ascii) (s : string) : option (Z * string) :=
  match readDigits n 0 s with
  | Some (v, rest) => rest' ← expect sep rest; Some (v, rest')
  | None => None
  end.

Definition parse (s : string) : option Z :=
  match field 4 "-"%char s with
  | Some (y, s1) =>
  match field 2 "-"%char s1 with
  | Some (m, s2) =>
  match field 2 "T"%char s2 with
  | Some (d, s3) =>
  match field 2 ":"%char s3 with
  | Some (hh, s4) =>
  match field 2 ":"%char s4 with
  | Some (mm, s5) =>
  match readDigits 2 0 s5 with
  | Some (ss, s6) =>
  match readMillis s6 with
  | Some ms =>
      let days := daysFromCivil y m d in
      if bool_decide (civilFromDays days = (y, m, d))
         && (hh <? 24)%Z && (mm <? 60)%Z && (ss <? 60)%Z
      then Some (days * msPerDay + hh * 3600000 + mm * 60000 + ss * 1000 + ms)
      else None
  | None => None end
  | None => None end
  | None => None end
  | None => None end
  | None => None end
  | None => None end
  | None => None end.

Fixpoint zeros (n : nat) : string :=
  match n with
  | O => EmptyString
  | S n' => String "0"%char (zeros n')
  end.

Definition pad (width : nat) (z : Z) : string :=
  let digits := pretty (Z.abs z) in
  zeros (width - String.length digits) +:+ digits.

Definition print (t : Z) : string :=
  let days := t / msPerDay in
  let rest := t mod msPerDay in
  let '(y, m, d) := civilFromDays days in
  let year :=
    if ((0 <=? y)%Z && (y <=? 9999)%Z) then pad 4 y
    else (if (y <? 0)%Z then "-" else "+") +:+ pad 6 y in
  year +:+ "-" +:+ pad 2 m +:+ "-" +:+ pad 2 d +:+ "T" +:+
  pad 2 (rest / 3600000) +:+ ":" +:+ pad 2 (rest / 60000 mod 60) +:+ ":" +:+
  pad 2 (rest / 1000 mod 60) +:+ "." +:+ pad 3 (rest mod 1000) +:+ "Z".

End Iso.

Definition isoDate : JsDate :=
  {| dateParse := Iso.parse; toISOString := Iso.print |}.

(** The records of the store, as [loadEmailMap] reads them. *)
Definition storeOf (w : World) : gmap string EmailRecord :=
  match file w with
  | Parsed m => m
  | _ => ∅
  end.

(** ** Vocabulary of the statements *)

(** [c] preserves [I], whether it returns or throws. *)
Definition inv {A} (I : World -> Prop) (c : M A) : Prop :=
  forall w, I w -> I (c w).2.

(** The world a computation leaves. *)
Definition after {A} (c : M A) (w : World) : World := (c w).2.

(** No fault is scripted. *)
Definition faultFree (w : World) : Prop := Forall (fun o => o = None) (faults w).

Definition auditStart : Effect := BotLog "audit_start" INFO "" "" "Audit started".

Definition auditEnd : Effect := BotLog "audit_end" INFO "" "" "Audit finished".

(** The world of the sweep when it enters its loop. *)
Definition sweepStart (w : World) : World :=
  addTrace auditStart (setLoaded (storeOf w) (mkdirWorld w)).

(** The world after the iterations over the entries [l]. *)
Definition sweepBody {date : JsDate} (cfg : Config) (now : Z)
    (l : list (string * EmailRecord)) (w : World) : World :=
  foldl (fun w entry => after (auditEntry cfg now entry) w) w l.

(** The record [v] is what both the object in memory and the file hold for
    [email]. *)
Definition holds (email : string) (v : EmailRecord) (w : World) : Prop :=
  loaded w !! email = Some v /\ storeOf w !! email = Some v.

(** The trace extends [t0] by events among which [x] occurs. *)
Definition logged (t0 : list Effect) (x : Effect) (w : World) : Prop :=
  exists t, trace w = t0 ++ t /\ In x t.

Definition extends (t0 : list Effect) (w : World) : Prop :=
  exists t, trace w = t0 ++ t.

(** [rec.lastPaidAt] is missing or does not parse. *)
Definition noPaymentDate {date : JsDate} (rec : EmailRecord) : Prop :=
  match presentLastPaidAt rec with
  | None => True
  | Some s => dateParse s = None
  end.

(** The warning of the sweep for such a record. *)
Definition skipWarning (email : string) (rec : EmailRecord) : Effect :=
  match presentLastPaidAt rec with
  | None =>
      BotLog "audit_skip_missing_lastPaidAt" WARN email (discordUserId rec)
        "Record missing lastPaidAt; skipping for safety."
  | Some _ =>
      BotLog "audit_skip_invalid_lastPaidAt" WARN email (discordUserId rec)
        "Invalid lastPaidAt format; skipping for safety."
  end.

(** The platform is ready to downgrade the member [uid]: no fault is
    scripted, the guild has the base role and the member is present. *)
Definition ready (cfg : Config) (uid : string) (w : World) : Prop :=
  faultFree w /\
  exists g, guild w = Some g /\ BASE_ROLE_NAME cfg ∈ guildRoles g /\
    is_Some (guildMembers g !! uid).

(** The roles of a member after [downgradeToMembers]. *)
Definition downgradedRoles (cfg : Config) (g : Guild) (rs : gset string)
    : gset string :=
  (rs ∪ {[BASE_ROLE_NAME cfg]}) ∖ list_to_set (paidTierRoles cfg g).

Definition downgradeSuccess (email : string) (rec : EmailRecord) (days : Z)
    : Effect :=
  BotLog "audit_downgrade_success" SUCCESS email (discordUserId rec)
    (pretty days).

(** The event and the e-mail of a [postBotLog] call. *)
Definition botLogOf (e : Effect) : option (string * string) :=
  match e with
  | BotLog event _ email _ _ => Some (event, email)
  | _ => None
  end.

Definition isBotLog (e : Effect) : Prop :=
  match e with
  | BotLog _ _ _ _ _ => True
  | _ => False
  end.

Definition overdueDetected (email : string) (rec : EmailRecord) (days : Z)
    : Effect :=
  BotLog "audit_overdue_detected" WARN email (discordUserId rec) (pretty days).

Definition auditError (entry : string * EmailRecord) (err : string) : Effect :=
  BotLog "audit_error" ERROR entry.1 (discordUserId entry.2) err.

Definition memberPresent (uid : string) (w : World) : Prop :=
  exists g, guild w = Some g /\ is_Some (guildMembers g !! uid).

(** [w] differs from [w0] by log events and by the fault script only. *)
Definition onlyLogged (w0 w : World) : Prop :=
  guild w = guild w0 /\ loaded w = loaded w0 /\ file w = file w0 /\
  clock w = clock w0 /\
  exists t, trace w = trace w0 ++ t /\ Forall isBotLog t.






(** The specification's reading of [lastPaidAt]: the most recent payment
    among the line items that match the granted tier. *)
Definition newestPaidIsoOfTier {date : JsDate}
    (items : list Shopify.LineItem) (t : Tier) : option string :=
  newestPaidIso
    (List.filter (fun li => isTierTitleMatch (Shopify.title li) (product t))
       items).

(** A log event: a line of the logger or a message to the log channel. *)
Definition isLog (e : Effect) : Prop :=
  match e with
  | BotLog _ _ _ _ _ | LoggerLog _ _ _ => True
  | _ => False
  end.

(** [w] differs from [w0] by log events at most, besides the object in
    memory and the directory of the store: the records of the store, the
    platform, the clock and the fault script are those of [w0]. *)
Definition quiet (w0 w : World) : Prop :=
  guild w = guild w0 /\ storeOf w = storeOf w0 /\ clock w = clock w0 /\
  faults w = faults w0 /\
  exists t, trace w = trace w0 ++ t /\ Forall isLog t.


(** The world of [/verify] once the store is loaded and the request
    logged. *)
Definition verifyStart (i : Interaction) (w : World) : World :=
  addTrace
    (BotLog "verify_requested" INFO (normEmail (emailOption i)) (userId i) "")
    (addTrace (LoggerLog INFO "verify_requested" (normEmail (emailOption i)))
       (setLoaded (storeOf w) (mkdirWorld w))).

(** The roles of a member after a grant of [roleName] that returns. *)
Definition grantedRoles (cfg : Config) (g : Guild) (roleName : string)
    (rs : gset string) : gset string :=
  ((rs ∪ {[BASE_ROLE_NAME cfg]}) ∪ {[roleName]})
    ∖ list_to_set (otherTierRoles cfg g roleName).

(** Whatever the world, the effects that [c] issues all satisfy [P]. *)
Definition emits {A} (P : Effect -> Prop) (c : M A) : Prop :=
  forall w, exists t, trace (c w).2 = trace w ++ t /\ Forall P t.

(** ** Sample data *)

Module Sample.

(** Ana holds "Elite Member" and the unrelated "Moderator". *)
Definition anaRoles : gset string := {[ "Elite Member"; "Moderator" ]}.

Definition server : Guild :=
  {| guildRoles :=
       {[ "Members"; "VIP"; "Elite Member"; "Execution Member"; "Moderator" ]};
     guildMembers :=
       {[ "1001" := anaRoles; "1002" := {[ "Members"; "VIP" ]} ]} |}.

(** A subscription whose payment date does not parse. *)
Definition undated : EmailRecord :=
  {| discordUserId := "1001";
     userTag := "ana#0001";
     tier := "Elite Member";
     isSubscription := true;
     lastPaidAt := Some "last spring";
     updatedAt := "2020-01-01T00:00:00.000Z";
     lastAuditAt := None;
     lastAuditReason := None |}.

(** A subscription without payment date and without bound user. *)
Definition unbound : EmailRecord :=
  {| discordUserId := "";
     userTag := "";
     tier := "VIP";
     isSubscription := true;
     lastPaidAt := None;
     updatedAt := "2020-01-01T00:00:00.000Z";
     lastAuditAt := None;
     lastAuditReason := None |}.

Definition world (m : gmap string EmailRecord) (now : string) : World :=
  {| file := Parsed m;
     loaded := ∅;
     guild := Some server;
     clock := default 0 (Iso.parse now);
     faults := [];
     trace := [] |}.

(** A subscription last paid on the first of April 2024. *)
Definition lapsed : EmailRecord :=
  {| discordUserId := "1002";
     userTag := "bo#0002";
     tier := "VIP";
     isSubscription := true;
     lastPaidAt := Some "2024-04-01T00:00:00.000Z";
     updatedAt := "2024-04-01T00:00:05.000Z";
     lastAuditAt := None;
     lastAuditReason := None |}.

(** Sixty-one and a half days later. *)
Definition lapsedWorld : World :=
  world {[ "bo@example.com" := lapsed; "ana@example.com" := undated ]}
    "2024-06-01T12:00:00.000Z".

(** The same store when the member has left the guild. *)
Definition departedWorld : World :=
  {| file := Parsed {[ "bo@example.com" := lapsed ]};
     loaded := ∅;
     guild := Some {| guildRoles := guildRoles server;
                      guildMembers := {[ "1001" := {[ "Members" ]} ]} |};
     clock := default 0 (Iso.parse "2024-06-01T12:00:00.000Z");
     faults := [];
     trace := [] |}.

Definition dryRunConfig : Config :=
  {| TIERS := sourceTiers;
     BASE_ROLE_NAME := "Members";
     AUDIT_DRY_RUN := true;
     AUDIT_GRACE_DAYS := 35 |}.

Definition grantWorld : World :=
  {| file := NoFile; loaded := ∅; guild := Some server; clock := 0;
     faults := []; trace := [] |}.

(** A paid subscription to the VIP tier and an unrelated later purchase,
    as a gateway that reports payment dates would return them. *)
Definition datedItems : list Shopify.LineItem :=
  [ {| Shopify.title := "VIP Access Pass";
       Shopify.isSubscription := true;
       Shopify.sellingPlanName := Some "Monthly";
       Shopify.paidAt := Some "2024-01-01T00:00:00.000Z" |};
    {| Shopify.title := "Random Sticker Pack";
       Shopify.isSubscription := false;
       Shopify.sellingPlanName := None;
       Shopify.paidAt := Some "2024-06-01T00:00:00.000Z" |} ].

Definition vipTier : Tier := {| product := "VIP ACCESS"; role := "VIP" |}.

Definition bo : Interaction :=
  {| emailOption := " Bo@Example.com ";
     userId := "1002";
     userTagOf := "bo#0002" |}.

(** The reply of Shopify for Bo's e-mail: one order with the subscription. *)
Definition shop (email : string) : Shopify.Reply :=
  if String.eqb email "bo@example.com" then
    Shopify.Orders
      [ {| Shopify.createdAt := "2024-01-01T00:00:00Z";
           Shopify.lineItems :=
             [ {| Shopify.nodeTitle := "VIP Access Pass";
                  Shopify.sellingPlan := Some "Monthly" |} ] |} ]
  else Shopify.Orders [].

(** The worlds the two verifications of Bo leave. *)
Definition datedVerified : World :=
  after (verifyHandler (date := isoDate) sourceConfig
           (fun _ => Ok datedItems) bo) grantWorld.

Definition shopVerified : World :=
  after (verify (date := isoDate) sourceConfig shop bo) grantWorld.


(** Ana asks for the e-mail that is bound to Bo. *)
Definition intruder : Interaction :=
  {| emailOption := "bo@example.com";
     userId := "1001";
     userTagOf := "ana#0001" |}.

(** Two lapsed subscriptions of Bo, and a platform that rejects the second
    call it receives. *)
Definition faultyWorld : World :=
  {| file := Parsed {[ "bo@example.com" := lapsed;
                       "bo@work.example" := lapsed ]};
     loaded := ∅;
     guild := Some server;
     clock := default 0 (Iso.parse "2024-06-01T12:00:00.000Z");
     faults := [None; Some "Missing Permissions"];
     trace := [] |}.

Definition undatedWorld : World :=
  world {[ "ana@example.com" := undated ]} "2024-06-01T12:00:00.000Z".

Definition unboundWorld : World :=
  world {[ "ghost@example.com" := unbound ]} "2024-06-01T12:00:00.000Z".

(** The platform rejects the second call it receives. *)
Definition rejectingWorld : World :=
  {| file := NoFile; loaded := ∅; guild := Some server; clock := 0;
     faults := [None; Some "Missing Permissions"]; trace := [] |}.

(** A purchase that matches no tier. *)
Definition stickerItems : list Shopify.LineItem :=
  [ {| Shopify.title := "Random Sticker Pack";
       Shopify.isSubscription := false;
       Shopify.sellingPlanName := None;
       Shopify.paidAt := None |} ].

(** A guild without the role of the VIP tier, and one without the base
    role. *)
Definition bareServer : Guild :=
  {| guildRoles := {[ "Members"; "Moderator" ]};
     guildMembers := {[ "1002" := {[ "Members" ]} ]} |}.

Definition bareWorld : World :=
  {| file := NoFile; loaded := ∅; guild := Some bareServer; clock := 0;
     faults := []; trace := [] |}.

Definition baselessServer : Guild :=
  {| guildRoles := {[ "VIP"; "Moderator" ]};
     guildMembers := {[ "1002" := {[ "VIP" ]} ]} |}.

Definition baselessWorld : World :=
  {| file := Parsed {[ "bo@example.com" := lapsed ]};
     loaded := ∅;
     guild := Some baselessServer;
     clock := default 0 (Iso.parse "2024-06-01T12:00:00.000Z");
     faults := [];
     trace := [] |}.

(** The guild that Bo has left. *)
Definition departedServer : Guild :=
  {| guildRoles := guildRoles server;
     guildMembers := {[ "1001" := {[ "Members" ]} ]} |}.

(** Ana, who holds "Elite Member", verifies the purchase of a VIP pass. *)
Definition ana : Interaction :=
  {| emailOption := "Ana@Example.com";
     userId := "1001";
     userTagOf := "ana#0001" |}.

(** A one-time purchase of the VIP tier, paid long ago. *)
Definition oneTime : EmailRecord :=
  {| discordUserId := "1002";
     userTag := "bo#0002";
     tier := "VIP";
     isSubscription := false;
     lastPaidAt := Some "2020-01-01T00:00:00.000Z";
     updatedAt := "2020-01-01T00:00:05.000Z";
     lastAuditAt := None;
     lastAuditReason := None |}.

Definition oneTimeWorld : World :=
  world {[ "bo@example.com" := oneTime ]} "2024-06-01T12:00:00.000Z".

(** The record of Bo once a sweep has downgraded it, half a day later. *)
Definition downgraded : EmailRecord :=
  downgradedRecord (date := isoDate) sourceConfig lapsed 61 1717243200000.

Definition downgradedWorld : World :=
  world {[ "bo@example.com" := downgraded ]} "2024-06-02T00:00:00.000Z".

(** An administrator asks for [/lookup] outside the log channel, and for
    [/status] inside it. *)
Definition strayLookup : Command :=
  {| isChatInputCommand := true;
     commandName := "lookup";
     channelId := "general";
     administrator := true;
     request := intruder |}.

Definition statusOfBo : Command :=
  {| isChatInputCommand := true;
     commandName := "status";
     channelId := "bot-logs";
     administrator := true;
     request := {| emailOption := "BO@example.com ";
                   userId := "1001";
                   userTagOf := "ana#0001" |} |}.

(** The platform accepts three calls and the file system then rejects the
    write. *)
Definition readOnlyWorld : World :=
  {| file := NoFile; loaded := ∅; guild := Some server; clock := 0;
     faults := [None; None; None; Some "EACCES: permission denied"];
     trace := [] |}.

End Sample.

(** * Properties *)

(** ** Properties of the string functions *)

Lemma startsWith_spec s needle :
  startsWith s needle = true <-> exists post, s = String.append needle post.
Proof.
  revert s. induction needle as [|a needle IH]; intros s; simpl.
  - split; [intros _; now exists s | reflexivity].
  - destruct s as [|b s]; [split; [discriminate | intros [p Hp]; discriminate] |].
    destruct (Ascii.eqb a b) eqn:E.
    + apply Ascii.eqb_eq in E. subst b. rewrite IH.
      split; intros [p Hp]; exists p; [now rewrite Hp | now inversion Hp].
    + apply Ascii.eqb_neq in E.
      split; [discriminate | intros [p Hp]; inversion Hp; congruence].
Qed.

Lemma includes_spec s needle :
  includes s needle = true <-> Substring needle s.
Proof.
  unfold Substring. induction s as [|c s IH]; simpl.
  - rewrite orb_false_r, startsWith_spec. split.
    + intros [post H]. now exists EmptyString, post.
    + intros [pre [post H]]. destruct pre; [now exists post | discriminate].
  - rewrite orb_true_iff, startsWith_spec, IH. split.
    + intros [[post H] | [pre [post H]]].
      * now exists EmptyString, post.
      * exists (String c pre), post. simpl. now rewrite H.
    + intros [pre [post H]]. destruct pre as [|d pre]; simpl in H.
      * left. now exists post.
      * right. inversion H. now exists pre, post.
Qed.





(** ** Running the monad *)

Ltac run_monad :=
  cbv beta iota delta
    [mbind M_bind bind ret throw tryCatch gets modify await emit
     postBotLog loggerLog fst snd].

Ltac run_monad_in H :=
  cbv beta iota delta
    [mbind M_bind bind ret throw tryCatch gets modify await emit
     postBotLog loggerLog fst snd] in H.

Section Properties.

Context {date : JsDate}.

Lemma loadEmailMap_run (w : World) :
  loadEmailMap w = (Ok (storeOf w), mkdirWorld w).
Proof.
  unfold loadEmailMap, ensureDirForFile, storeOf, mkdirWorld. run_monad.
  destruct w as [f l g c fs t]; destruct f; reflexivity.
Qed.

Lemma file_mkdirWorld (w : World) (m : gmap string EmailRecord) :
  file w = Parsed m -> mkdirWorld w = w.
Proof. unfold mkdirWorld. now intros ->. Qed.

Lemma includes_at_truthy (s : string) :
  includes s "@" = true -> truthy s = true.
Proof. destruct s; [discriminate | reflexivity]. Qed.

Lemma storeOf_Some (w : World) (k : string) (r : EmailRecord) :
  storeOf w !! k = Some r -> exists m, file w = Parsed m.
Proof.
  unfold storeOf. destruct (file w); try (rewrite lookup_empty; discriminate).
  intros _. now exists m.
Qed.

(** C5.  When the store holds a record for the (valid) e-mail bound to
    another community user than the requester, [/verify] ends in the
    conflict outcome; the file and the roles are as before, and the only
    effects issued are three log events: no role mutation, no write. *)
Theorem verify_conflict (cfg : Config)
    (gateway : string -> Result (list Shopify.LineItem))
    (i : Interaction) (w : World) (rec : EmailRecord) :
  storeOf w !! normEmail (emailOption i) = Some rec ->
  discordUserId rec <> userId i ->
  includes (normEmail (emailOption i)) "@" = true ->
  exists w',
    verifyHandler cfg gateway i w = (Ok AlreadyLinkedConflict, w') /\
    file w' = file w /\ guild w' = guild w /\
    trace w' = trace w ++
      [ LoggerLog INFO "verify_requested" (normEmail (emailOption i));
        BotLog "verify_requested" INFO (normEmail (emailOption i)) (userId i) "";
        BotLog "verify_email_already_linked" WARN (normEmail (emailOption i))
          (userId i) (discordUserId rec) ].
Proof.
  intros Hrec Hne Hat.
  destruct (storeOf_Some _ _ _ Hrec) as [m Hm].
  unfold verifyHandler. run_monad. rewrite loadEmailMap_run.
  rewrite Hat, (includes_at_truthy _ Hat). simpl.
  unfold linkedToOther. rewrite Hrec.
  destruct (String.eqb_spec (discordUserId rec) (userId i)) as [E|E];
    [contradiction |]. simpl.
  rewrite (file_mkdirWorld _ _ Hm).
  eexists. split; [reflexivity |]. simpl.
  repeat split. now rewrite <- !app_assoc.
Qed.

(** ** Invariants of the primitive effects *)

Lemma inv_ret {A} (I : World -> Prop) (a : A) : inv I (ret a).
Proof. intros w Hw. exact Hw. Qed.

Lemma inv_throw {A} (I : World -> Prop) (err : string) : inv I (@throw A err).
Proof. intros w Hw. exact Hw. Qed.

Lemma inv_gets {A} (I : World -> Prop) (f : World -> A) : inv I (gets f).
Proof. intros w Hw. exact Hw. Qed.

Lemma inv_bind {A B} (I : World -> Prop) (c : M A) (k : A -> M B) :
  inv I c -> (forall a, inv I (k a)) -> inv I (c ≫= k).
Proof.
  intros Hc Hk w Hw. specialize (Hc w Hw).
  unfold mbind, M_bind, bind. destruct (c w) as [[a|err] w']; simpl in *.
  - now apply Hk.
  - exact Hc.
Qed.

Lemma inv_tryCatch {A} (I : World -> Prop) (c : M A) (h : string -> M A) :
  inv I c -> (forall err, inv I (h err)) -> inv I (tryCatch c h).
Proof.
  intros Hc Hh w Hw. specialize (Hc w Hw).
  unfold tryCatch. destruct (c w) as [[a|err] w']; simpl in *.
  - exact Hc.
  - now apply Hh.
Qed.

Lemma inv_modify (I : World -> Prop) (f : World -> World) :
  (forall w, I w -> I (f w)) -> inv I (modify f).
Proof. intros Hf w Hw. now apply Hf. Qed.

Section Invariants.

Variable I : World -> Prop.
Hypothesis I_log :
  forall event level email uid detail w,
    I w -> I (addTrace (BotLog event level email uid detail) w).
Hypothesis I_faults : forall w, I w -> I (popFault w).

Lemma inv_postBotLog (event : string) (level : Level)
    (email uid detail : string) :
  inv I (postBotLog event level email uid detail).
Proof. apply inv_modify. intros w. apply I_log. Qed.

Lemma inv_external : inv I external.
Proof.
  intros w Hw. unfold external.
  destruct (nextFault w); simpl; now apply I_faults.
Qed.

Lemma inv_fetchMember (uid : string) : inv I (fetchMember uid).
Proof.
  unfold fetchMember. apply inv_tryCatch.
  - apply inv_bind; [apply inv_external | intros _; apply inv_gets].
  - intros err. apply inv_ret.
Qed.

Lemma inv_theGuild : inv I theGuild.
Proof.
  unfold theGuild. apply inv_bind; [apply inv_gets |].
  intros [g|]; [apply inv_ret | apply inv_throw].
Qed.

Lemma inv_theMember (uid : string) : inv I (theMember uid).
Proof.
  unfold theMember. apply inv_bind; [apply inv_gets |].
  intros [g|]; [apply inv_ret | apply inv_throw].
Qed.

Section Roles.

Hypothesis I_trace : forall e w, I w -> I (addTrace e w).
Hypothesis I_member : forall uid f w, I w -> I (updateMember uid f w).

Lemma inv_emit (e : Effect) : inv I (emit e).
Proof. apply inv_modify. intros w. apply I_trace. Qed.

Lemma inv_rolesAdd (uid r : string) : inv I (rolesAdd uid r).
Proof.
  unfold rolesAdd.
  apply inv_bind; [apply inv_theMember | intros _].
  apply inv_bind; [apply inv_emit | intros _].
  apply inv_bind; [apply inv_external | intros _].
  apply inv_modify. intros w. apply I_member.
Qed.

Lemma inv_rolesRemove (uid : string) (rs : list string) :
  inv I (rolesRemove uid rs).
Proof.
  unfold rolesRemove.
  apply inv_bind; [apply inv_theMember | intros _].
  apply inv_bind; [apply inv_emit | intros _].
  apply inv_bind; [apply inv_external | intros _].
  apply inv_modify. intros w. apply I_member.
Qed.

Lemma inv_downgradeToMembers (cfg : Config) (uid : string) :
  inv I (downgradeToMembers cfg uid).
Proof.
  unfold downgradeToMembers.
  apply inv_bind; [apply inv_theGuild | intros g].
  destruct (rolesByName g (BASE_ROLE_NAME cfg)); [| apply inv_throw].
  apply inv_bind; [apply inv_rolesAdd | intros _].
  destruct (paidTierRoles cfg g); [apply inv_ret | apply inv_rolesRemove].
Qed.

Lemma inv_setExclusiveTierRole (cfg : Config) (uid roleName : string) :
  inv I (setExclusiveTierRole cfg uid roleName).
Proof.
  unfold setExclusiveTierRole.
  apply inv_bind; [apply inv_theGuild | intros g].
  destruct (rolesByName g (BASE_ROLE_NAME cfg)); [| apply inv_throw].
  destruct (rolesByName g roleName); [| apply inv_throw].
  apply inv_bind; [apply inv_rolesAdd | intros _].
  apply inv_bind; [apply inv_rolesAdd | intros _].
  destruct (otherTierRoles cfg g roleName); [apply inv_ret | apply inv_rolesRemove].
Qed.

Section Store.

Hypothesis I_mkdir : forall w, file w = NoDirectory -> I w -> I (setFile NoFile w).
Hypothesis I_save : forall w, I w -> I (setFile (Parsed (loaded w)) w).

Lemma inv_ensureDirForFile : inv I ensureDirForFile.
Proof.
  apply inv_modify. intros w Hw. unfold mkdirWorld.
  destruct (file w) eqn:E; try exact Hw. now apply I_mkdir.
Qed.

Lemma loaded_mkdirWorld (w : World) : loaded (mkdirWorld w) = loaded w.
Proof. unfold mkdirWorld. now destruct (file w). Qed.

Lemma inv_saveLoaded : inv I saveLoaded.
Proof.
  intros w Hw. unfold saveLoaded, saveEmailMap, ensureDirForFile, external.
  run_monad.
  pose proof (inv_ensureDirForFile w Hw) as H1. simpl in H1.
  pose proof (I_faults _ (I_trace (WriteFile (loaded w)) _ H1)) as H2.
  destruct (nextFault (addTrace (WriteFile (loaded w)) (mkdirWorld w)));
    simpl; [exact H2 |].
  apply I_save in H2. simpl in H2. now rewrite loaded_mkdirWorld in H2.
Qed.

Section AuditEntry.

Variable email : string.
Hypothesis I_insert :
  forall r w, I w -> I (setLoaded (<[email := r]> (loaded w)) w).

Lemma inv_auditRecord (cfg : Config) (now : Z) (rec : EmailRecord) :
  inv I (auditRecord cfg now email rec).
Proof.
  unfold auditRecord.
  destruct (negb (isSubscription rec)); [apply inv_ret |].
  destruct (negb (truthy (discordUserId rec))); [apply inv_ret |].
  destruct (presentLastPaidAt rec) as [s|]; [| apply inv_postBotLog].
  destruct (dateParse s) as [t|]; [| apply inv_postBotLog].
  destruct (daysBetween now t <? AUDIT_GRACE_DAYS cfg); [apply inv_ret |].
  apply inv_bind; [apply inv_gets | intros [g|]]; [| apply inv_ret].
  apply inv_bind; [apply inv_fetchMember | intros [m|]];
    [| apply inv_postBotLog].
  apply inv_bind; [apply inv_postBotLog | intros _].
  destruct (AUDIT_DRY_RUN cfg); [apply inv_ret |].
  apply inv_bind; [apply inv_downgradeToMembers | intros _].
  apply inv_bind; [apply inv_gets | intros stamp].
  apply inv_bind; [apply inv_modify; intros w; apply I_insert | intros _].
  apply inv_bind; [apply inv_saveLoaded | intros _].
  apply inv_postBotLog.
Qed.

Lemma inv_auditEntry (cfg : Config) (now : Z) (rec : EmailRecord) :
  inv I (auditEntry cfg now (email, rec)).
Proof.
  unfold auditEntry. apply inv_tryCatch.
  - apply inv_auditRecord.
  - intros err. apply inv_postBotLog.
Qed.

End AuditEntry.

End Store.

End Roles.

(** In dry-run mode the body only logs and reads. *)
Lemma inv_auditEntry_dry (cfg : Config) (now : Z)
    (entry : string * EmailRecord) :
  AUDIT_DRY_RUN cfg = true -> inv I (auditEntry cfg now entry).
Proof.
  intros Hdry. unfold auditEntry. apply inv_tryCatch;
    [| intros err; apply inv_postBotLog].
  unfold auditRecord.
  destruct (negb (isSubscription entry.2)); [apply inv_ret |].
  destruct (negb (truthy (discordUserId entry.2))); [apply inv_ret |].
  destruct (presentLastPaidAt entry.2) as [s|]; [| apply inv_postBotLog].
  destruct (dateParse s) as [t|]; [| apply inv_postBotLog].
  destruct (daysBetween now t <? AUDIT_GRACE_DAYS cfg); [apply inv_ret |].
  apply inv_bind; [apply inv_gets | intros [g|]]; [| apply inv_ret].
  apply inv_bind; [apply inv_fetchMember | intros [m|]];
    [| apply inv_postBotLog].
  apply inv_bind; [apply inv_postBotLog | intros _].
  rewrite Hdry. apply inv_ret.
Qed.

End Invariants.

(** ** The sweep as a fold of its iterations *)

Lemma auditEntry_ok (cfg : Config) (now : Z) (entry : string * EmailRecord)
    (w : World) :
  auditEntry cfg now entry w = (Ok tt, after (auditEntry cfg now entry) w).
Proof.
  unfold after, auditEntry, tryCatch, postBotLog, emit, modify.
  destruct (auditRecord cfg now entry.1 entry.2 w) as [[[]|err] w'];
    reflexivity.
Qed.

Lemma forEach_auditEntry (cfg : Config) (now : Z)
    (l : list (string * EmailRecord)) (w : World) :
  forEach l (auditEntry cfg now) w = (Ok tt, sweepBody cfg now l w).
Proof.
  revert w. induction l as [|entry l IH]; intros w; simpl; [reflexivity |].
  unfold bind. rewrite auditEntry_ok. apply IH.
Qed.

Lemma runSubscriptionAudit_run (cfg : Config) (w : World) :
  runSubscriptionAudit cfg w =
    (Ok tt,
     addTrace auditEnd
       (sweepBody cfg (clock w) (map_to_list (storeOf w)) (sweepStart w))).
Proof.
  unfold runSubscriptionAudit. run_monad. rewrite loadEmailMap_run. simpl.
  assert (Hc : clock (mkdirWorld w) = clock w).
  { destruct w as [f l g c fs t]. now destruct f. }
  rewrite Hc. fold auditStart. fold (sweepStart w).
  now rewrite forEach_auditEntry.
Qed.

(** The sweep always returns. *)
Lemma runSubscriptionAudit_ok (cfg : Config) (w : World) :
  runSubscriptionAudit cfg w = (Ok tt, after (runSubscriptionAudit cfg) w).
Proof. unfold after. now rewrite runSubscriptionAudit_run. Qed.

Lemma sweepBody_app (cfg : Config) (now : Z)
    (l1 l2 : list (string * EmailRecord)) (w : World) :
  sweepBody cfg now (l1 ++ l2) w
  = sweepBody cfg now l2 (sweepBody cfg now l1 w).
Proof. unfold sweepBody. apply foldl_app. Qed.

Lemma sweepBody_inv (I : World -> Prop) (cfg : Config) (now : Z)
    (l : list (string * EmailRecord)) :
  (forall entry, entry ∈ l -> inv I (auditEntry cfg now entry)) ->
  forall w, I w -> I (sweepBody cfg now l w).
Proof.
  induction l as [|entry l IH]; intros Hl w Hw; simpl; [exact Hw |].
  apply IH.
  - intros e He. apply Hl. now right.
  - apply Hl; [now left | exact Hw].
Qed.

(** The sweep seen from one of its entries: the iterations before it, its
    own, the iterations after it.  No other entry has its key. *)
Lemma sweep_focus (cfg : Config) (w : World) (email : string)
    (rec : EmailRecord) :
  storeOf w !! email = Some rec ->
  exists l1 l2,
    map_to_list (storeOf w) = l1 ++ (email, rec) :: l2 /\
    (forall entry, entry ∈ l1 ++ l2 -> entry.1 <> email) /\
    runSubscriptionAudit cfg w =
      (Ok tt,
       addTrace auditEnd
         (sweepBody cfg (clock w) l2
            (after (auditEntry cfg (clock w) (email, rec))
               (sweepBody cfg (clock w) l1 (sweepStart w))))).
Proof.
  intros Hrec. apply elem_of_map_to_list in Hrec.
  apply list_elem_of_split in Hrec as (l1 & l2 & Hl).
  exists l1, l2. split; [exact Hl |]. split.
  - pose proof (NoDup_fst_map_to_list (storeOf w)) as Hnd.
    rewrite Hl, fmap_app, fmap_cons in Hnd. simpl in Hnd.
    apply NoDup_app in Hnd as (_ & Hdisj & Hnd2).
    apply NoDup_cons in Hnd2 as [Hnot2 _].
    intros entry Hin Heq. apply elem_of_app in Hin as [Hin | Hin].
    + apply (Hdisj email).
      * rewrite <- Heq. now apply list_elem_of_fmap_2.
      * now left.
    + apply Hnot2. rewrite <- Heq. now apply list_elem_of_fmap_2.
  - rewrite runSubscriptionAudit_run, Hl, sweepBody_app. reflexivity.
Qed.

(** ** Invariants of the iterations *)

Lemma storeOf_addTrace (e : Effect) (w : World) :
  storeOf (addTrace e w) = storeOf w.
Proof. reflexivity. Qed.

Lemma storeOf_mkdirWorld (w : World) : storeOf (mkdirWorld w) = storeOf w.
Proof. destruct w as [f l g c fs t]. now destruct f. Qed.

(** An iteration on another key leaves the record of [email] alone, in
    memory and on file. *)
Lemma holds_other_entry (cfg : Config) (now : Z) (email : string)
    (v : EmailRecord) (entry : string * EmailRecord) :
  entry.1 <> email -> inv (holds email v) (auditEntry cfg now entry).
Proof.
  intros Hne. destruct entry as [e' r']. simpl in Hne.
  apply inv_auditEntry; unfold holds.
  - intros event level e uid detail w H. exact H.
  - intros w H. exact H.
  - intros e w H. exact H.
  - intros uid f w H. exact H.
  - intros w Hf [_ H]. unfold storeOf in H. rewrite Hf, lookup_empty in H.
    discriminate.
  - intros w [H _]. split; exact H.
  - intros r w [H1 H2]. split; [| exact H2]. simpl.
    now rewrite lookup_insert_ne.
Qed.

Lemma extends_addTrace (t0 : list Effect) (e : Effect) (w : World) :
  extends t0 w -> extends t0 (addTrace e w).
Proof. intros [t H]. exists (t ++ [e]). simpl. now rewrite H, app_assoc. Qed.

Lemma logged_addTrace (t0 : list Effect) (x e : Effect) (w : World) :
  logged t0 x w -> logged t0 x (addTrace e w).
Proof.
  intros [t [H Hin]]. exists (t ++ [e]). simpl.
  split; [now rewrite H, app_assoc | apply in_or_app; now left].
Qed.

Lemma extends_entry (cfg : Config) (now : Z) (t0 : list Effect)
    (entry : string * EmailRecord) :
  inv (extends t0) (auditEntry cfg now entry).
Proof.
  destruct entry as [e' r'].
  apply inv_auditEntry; try (intros; assumption);
    intros; now apply extends_addTrace.
Qed.

Lemma logged_entry (cfg : Config) (now : Z) (t0 : list Effect) (x : Effect)
    (entry : string * EmailRecord) :
  inv (logged t0 x) (auditEntry cfg now entry).
Proof.
  destruct entry as [e' r'].
  apply inv_auditEntry; try (intros; assumption);
    intros; now apply logged_addTrace.
Qed.

Lemma extends_logged (t0 : list Effect) (x : Effect) (w : World) :
  extends t0 w -> logged t0 x (addTrace x w).
Proof.
  intros [t H]. exists (t ++ [x]). simpl.
  split; [now rewrite H, app_assoc | apply in_or_app; right; now left].
Qed.

Lemma extends_sweepStart (w : World) : extends (trace w) (sweepStart w).
Proof.
  exists [auditStart]. unfold sweepStart, mkdirWorld. simpl.
  now destruct (file w).
Qed.

Lemma holds_sweepStart (w : World) (email : string) (rec : EmailRecord) :
  storeOf w !! email = Some rec -> holds email rec (sweepStart w).
Proof.
  intros H. unfold holds, sweepStart. simpl.
  rewrite storeOf_addTrace. unfold storeOf at 2. simpl.
  fold (storeOf (mkdirWorld w)). now rewrite storeOf_mkdirWorld.
Qed.

(** If the iteration on the entry of [email] leaves its record alone, so
    does the whole sweep. *)
Lemma sweep_keeps_record (cfg : Config) (w : World) (email : string)
    (rec : EmailRecord) :
  storeOf w !! email = Some rec ->
  inv (holds email rec) (auditEntry cfg (clock w) (email, rec)) ->
  holds email rec (after (runSubscriptionAudit cfg) w).
Proof.
  intros Hrec Hstep.
  destruct (sweep_focus cfg w email rec Hrec) as (l1 & l2 & Hl & Hkeys & Hrun).
  unfold after. rewrite Hrun. simpl.
  change (holds email rec
    (sweepBody cfg (clock w) l2
       (after (auditEntry cfg (clock w) (email, rec))
          (sweepBody cfg (clock w) l1 (sweepStart w))))).
  apply sweepBody_inv.
  { intros entry Hin. apply holds_other_entry, Hkeys, elem_of_app. now right. }
  apply Hstep. apply sweepBody_inv.
  { intros entry Hin. apply holds_other_entry, Hkeys, elem_of_app. now left. }
  now apply holds_sweepStart.
Qed.

(** If the iteration on the entry of [email] logs [x], the sweep has logged
    it. *)
Lemma sweep_logs (cfg : Config) (w : World) (email : string)
    (rec : EmailRecord) (x : Effect) :
  storeOf w !! email = Some rec ->
  (forall w0, extends (trace w) w0 ->
     logged (trace w) x (after (auditEntry cfg (clock w) (email, rec)) w0)) ->
  logged (trace w) x (after (runSubscriptionAudit cfg) w).
Proof.
  intros Hrec Hstep.
  destruct (sweep_focus cfg w email rec Hrec) as (l1 & l2 & Hl & Hkeys & Hrun).
  unfold after at 1. rewrite Hrun. simpl.
  apply logged_addTrace. apply sweepBody_inv.
  { intros entry _. apply logged_entry. }
  apply Hstep. apply sweepBody_inv.
  { intros entry _. apply extends_entry. }
  apply extends_sweepStart.
Qed.

(** ** The audit and the records without a payment date *)

Lemma auditEntry_noPaymentDate (cfg : Config) (now : Z) (email : string)
    (rec : EmailRecord) (w0 : World) :
  noPaymentDate rec ->
  auditEntry cfg now (email, rec) w0 =
    (Ok tt,
     if isSubscription rec && truthy (discordUserId rec)
     then addTrace (skipWarning email rec) w0
     else w0).
Proof.
  intros Hno. unfold auditEntry, auditRecord, noPaymentDate, skipWarning in *.
  simpl. destruct (isSubscription rec); simpl; [| reflexivity].
  destruct (truthy (discordUserId rec)); simpl; [| reflexivity].
  destruct (presentLastPaidAt rec) as [s|]; [rewrite Hno |]; reflexivity.
Qed.

(** C1, as the code has it.  For a subscription record of the store whose
    [lastPaidAt] is missing or does not parse, the iteration of the sweep on
    it issues no call and changes nothing: it only logs the warning, and not
    even that when the record has no [discordUserId].  After the sweep the
    record is unchanged in memory and on file, whatever [updatedAt] is. *)
Theorem audit_never_acts_without_payment_date (cfg : Config) (w : World)
    (email : string) (rec : EmailRecord) :
  storeOf w !! email = Some rec ->
  isSubscription rec = true ->
  noPaymentDate rec ->
  (forall now w0,
     auditEntry cfg now (email, rec) w0 =
       (Ok tt,
        if truthy (discordUserId rec) then addTrace (skipWarning email rec) w0
        else w0)) /\
  exists w',
    runSubscriptionAudit cfg w = (Ok tt, w') /\
    holds email rec w' /\
    (truthy (discordUserId rec) = true ->
     logged (trace w) (skipWarning email rec) w').
Proof.
  intros Hrec Hsub Hno.
  pose proof (fun now w0 =>
    auditEntry_noPaymentDate cfg now email rec w0 Hno) as Hstep.
  rewrite Hsub in Hstep. simpl in Hstep.
  split; [exact Hstep |].
  exists (after (runSubscriptionAudit cfg) w). split; [| split].
  - apply runSubscriptionAudit_ok.
  - apply sweep_keeps_record; [exact Hrec |].
    intros w0 Hw0. rewrite Hstep. simpl.
    destruct (truthy (discordUserId rec)); exact Hw0.
  - intros Hid. apply (sweep_logs cfg w email rec); [exact Hrec |].
    intros w0 Hw0. unfold after. rewrite Hstep, Hid. simpl.
    now apply extends_logged.
Qed.

(** ** Fault-free runs of the primitive effects *)

Lemma faultFree_nextFault (w : World) : faultFree w -> nextFault w = None.
Proof.
  unfold faultFree, nextFault. destruct (faults w) as [|[err|] rest];
    [reflexivity | | reflexivity].
  intros H. inversion H; discriminate.
Qed.

Lemma faultFree_popFault (w : World) : faultFree w -> faultFree (popFault w).
Proof.
  unfold faultFree, popFault. simpl. destruct (faults w); simpl;
    [trivial | intros H; now inversion H].
Qed.

Lemma external_ok (w : World) :
  faultFree w -> external w = (Ok tt, popFault w).
Proof. intros H. unfold external. now rewrite faultFree_nextFault. Qed.

Lemma fetchMember_ok (uid : string) (w : World) :
  faultFree w -> fetchMember uid w = (Ok (memberRoles uid w), popFault w).
Proof.
  intros H. unfold fetchMember. run_monad. now rewrite external_ok.
Qed.

Lemma memberRoles_updateMember (uid : string)
    (f : gset string -> gset string) (w : World) :
  memberRoles uid (updateMember uid f w) = f <$> memberRoles uid w.
Proof.
  unfold memberRoles, updateMember. simpl.
  destruct (guild w) as [g|]; simpl; [| reflexivity].
  now rewrite lookup_alter_eq.
Qed.

Lemma rolesAdd_ok (uid r : string) (rs : gset string) (w : World) :
  faultFree w -> memberRoles uid w = Some rs ->
  rolesAdd uid r w =
    (Ok tt,
     updateMember uid (fun rs => rs ∪ {[r]})
       (popFault (addTrace (RolesAdd uid r) w))).
Proof.
  intros Hf Hm. unfold rolesAdd, theMember. run_monad. rewrite Hm.
  rewrite external_ok; [reflexivity | exact Hf].
Qed.

Lemma rolesRemove_ok (uid : string) (l : list string) (rs : gset string)
    (w : World) :
  faultFree w -> memberRoles uid w = Some rs ->
  rolesRemove uid l w =
    (Ok tt,
     updateMember uid (fun cur => cur ∖ list_to_set l)
       (popFault (addTrace (RolesRemove uid l) w))).
Proof.
  intros Hf Hm. unfold rolesRemove, theMember. run_monad. rewrite Hm.
  rewrite external_ok; [reflexivity | exact Hf].
Qed.

Lemma saveLoaded_ok (w : World) :
  faultFree w ->
  saveLoaded w =
    (Ok tt,
     setFile (Parsed (loaded w))
       (popFault (addTrace (WriteFile (loaded w)) (mkdirWorld w)))).
Proof.
  intros Hf. unfold saveLoaded, saveEmailMap, ensureDirForFile. run_monad.
  rewrite external_ok; [reflexivity |].
  unfold faultFree, mkdirWorld in *. now destruct (file w).
Qed.

Lemma rolesByName_Some (g : Guild) (n : string) :
  n ∈ guildRoles g -> rolesByName g n = Some n.
Proof. intros H. unfold rolesByName. now rewrite decide_True. Qed.

(** A fault-free downgrade of a present member returns; it changes the roles
    of that member, the trace and the fault script, and nothing else. *)
Lemma downgradeToMembers_ok (cfg : Config) (uid : string) (g : Guild)
    (rs : gset string) (w : World) :
  faultFree w -> guild w = Some g ->
  BASE_ROLE_NAME cfg ∈ guildRoles g ->
  guildMembers g !! uid = Some rs ->
  exists w',
    downgradeToMembers cfg uid w = (Ok tt, w') /\
    loaded w' = loaded w /\ file w' = file w /\ clock w' = clock w /\
    ready cfg uid w' /\
    memberRoles uid w' = Some (downgradedRoles cfg g rs) /\
    exists t, trace w' = trace w ++ RolesAdd uid (BASE_ROLE_NAME cfg) :: t.
Proof.
  intros Hf Hg Hbase Hm.
  assert (Hroles : memberRoles uid w = Some rs).
  { unfold memberRoles. now rewrite Hg. }
  unfold downgradeToMembers, theGuild. run_monad. rewrite Hg.
  rewrite (rolesByName_Some _ _ Hbase).
  rewrite (rolesAdd_ok _ _ rs); [| exact Hf | exact Hroles].
  set (w1 := updateMember uid (fun rs => rs ∪ {[BASE_ROLE_NAME cfg]})
               (popFault (addTrace (RolesAdd uid (BASE_ROLE_NAME cfg)) w))).
  assert (Hf1 : faultFree w1) by (now apply faultFree_popFault in Hf).
  assert (Hm1 : memberRoles uid w1 = Some (rs ∪ {[BASE_ROLE_NAME cfg]})).
  { unfold w1. rewrite memberRoles_updateMember.
    change (memberRoles uid (popFault (addTrace _ w))) with (memberRoles uid w).
    now rewrite Hroles. }
  unfold downgradedRoles.
  destruct (paidTierRoles cfg g) as [|p paid] eqn:Hpaid.
  - exists w1. split; [reflexivity |]. repeat split; try reflexivity.
    + exact Hf1.
    + unfold w1, updateMember. simpl. rewrite Hg. simpl.
      eexists. split; [reflexivity |]. simpl. split; [exact Hbase |].
      rewrite lookup_alter_eq, Hm. simpl. eauto.
    + rewrite Hm1. simpl. now rewrite difference_empty_L.
    + exists []. reflexivity.
  - rewrite (rolesRemove_ok _ _ _ _ Hf1 Hm1).
    eexists. split; [reflexivity |]. repeat split; try reflexivity.
    + simpl. now apply faultFree_popFault in Hf1.
    + unfold updateMember. simpl. unfold w1, updateMember. simpl.
      rewrite Hg. simpl. eexists. split; [reflexivity |]. simpl.
      split; [exact Hbase |]. rewrite !lookup_alter_eq, Hm. simpl. eauto.
    + rewrite memberRoles_updateMember.
      change (memberRoles uid (popFault (addTrace ?e w1)))
        with (memberRoles uid w1).
      now rewrite Hm1.
    + exists [RolesRemove uid (p :: paid)]. simpl.
      now rewrite <- app_assoc.
Qed.

(** ** The grace threshold *)

Lemma daysBetween_lt (now past days : Z) :
  daysBetween now past < days <-> now - past < days * msPerDay.
Proof.
  unfold daysBetween. change msPerDay with 86400000. split; intros H.
  - destruct (Z_lt_le_dec (now - past) (days * 86400000)) as [Hlt|Hle];
      [exact Hlt |].
    assert (days <= (now - past) / 86400000)
      by (apply Z.div_le_lower_bound; lia).
    lia.
  - apply Z.div_lt_upper_bound; lia.
Qed.


Lemma auditEntry_overdue (cfg : Config) (now : Z) (email : string)
    (rec : EmailRecord) (s : string) (t : Z) (w0 : World) :
  isSubscription rec = true ->
  truthy (discordUserId rec) = true ->
  presentLastPaidAt rec = Some s ->
  dateParse s = Some t ->
  AUDIT_GRACE_DAYS cfg * msPerDay <= now - t ->
  AUDIT_DRY_RUN cfg = false ->
  ready cfg (discordUserId rec) w0 ->
  let w1 := after (auditEntry cfg now (email, rec)) w0 in
  let days := daysBetween now t in
  loaded w1 = <[email := downgradedRecord cfg rec days (clock w0)]> (loaded w0) /\
  file w1 = Parsed (loaded w1) /\
  ready cfg (discordUserId rec) w1 /\
  (forall g rs, guild w0 = Some g ->
     guildMembers g !! discordUserId rec = Some rs ->
     memberRoles (discordUserId rec) w1 = Some (downgradedRoles cfg g rs)) /\
  exists tr,
    trace w1 = trace w0 ++ tr /\
    In (RolesAdd (discordUserId rec) (BASE_ROLE_NAME cfg)) tr /\
    In (downgradeSuccess email rec days) tr.
Proof.
  intros Hsub Hid Hs Ht Hge Hdry (Hf & g & Hg & Hbase & rs & Hm) w1 days.
  assert (Hnlt : (daysBetween now t <? AUDIT_GRACE_DAYS cfg) = false).
  { apply Z.ltb_ge. pose proof (daysBetween_lt now t (AUDIT_GRACE_DAYS cfg)).
    lia. }
  set (overdue := BotLog "audit_overdue_detected" WARN email
                    (discordUserId rec) (pretty days)).
  destruct (downgradeToMembers_ok cfg (discordUserId rec) g rs
              (addTrace overdue (popFault w0)))
    as (w2 & Hrun & Hl2 & Hfile2 & Hc2 & Hready2 & Hroles2 & tr2 & Htr2);
    [now apply faultFree_popFault | exact Hg | exact Hbase | exact Hm |].
  set (L := <[email := downgradedRecord cfg rec days (clock w0)]> (loaded w0)).
  assert (Heq : auditEntry cfg now (email, rec) w0 =
    (Ok tt,
     addTrace (downgradeSuccess email rec days)
       (setFile (Parsed L)
          (popFault (addTrace (WriteFile L) (mkdirWorld (setLoaded L w2))))))).
  { unfold auditEntry, auditRecord. simpl.
    rewrite Hsub, Hid, Hs, Ht, Hnlt, Hdry. simpl. run_monad. rewrite Hg.
    rewrite fetchMember_ok by exact Hf.
    assert (Hmr : memberRoles (discordUserId rec) w0 = Some rs).
    { unfold memberRoles. now rewrite Hg. }
    rewrite Hmr. fold days. fold overdue. rewrite Hrun.
    rewrite Hc2, Hl2. simpl. fold L.
    rewrite saveLoaded_ok; [reflexivity |]. apply Hready2. }
  unfold w1, after. rewrite Heq. simpl.
  assert (Hmk : forall w, loaded (mkdirWorld w) = loaded w
                          /\ guild (mkdirWorld w) = guild w
                          /\ faults (mkdirWorld w) = faults w
                          /\ trace (mkdirWorld w) = trace w).
  { intros [f l gg c fs tr]. now destruct f. }
  destruct (Hmk (setLoaded L w2)) as (Hmk1 & Hmk2 & Hmk3 & Hmk4).
  split; [exact Hmk1 |]. split; [now rewrite Hmk1 |]. split; [| split].
  - destruct Hready2 as (Hf2 & g2 & Hg2 & Hbase2 & Hm2).
    split.
    + unfold faultFree in *. simpl. rewrite Hmk3. simpl.
      destruct (faults w2); simpl; [trivial | now inversion Hf2].
    + exists g2. simpl. rewrite Hmk2. simpl. auto.
  - intros g' rs' Hg' Hm'. rewrite Hg in Hg'. inversion Hg'; subst g'.
    rewrite Hm in Hm'. inversion Hm'; subst rs'.
    unfold memberRoles in *. simpl. rewrite Hmk2. simpl. exact Hroles2.
  - rewrite Hmk4. simpl. rewrite Htr2. simpl.
    exists ([overdue] ++ RolesAdd (discordUserId rec) (BASE_ROLE_NAME cfg)
              :: tr2 ++ [WriteFile L; downgradeSuccess email rec days]).
    split; [| split].
    + rewrite <- !app_assoc. reflexivity.
    + simpl. right. now left.
    + simpl. right. right. apply in_or_app. right. right. now left.
Qed.

(** ** The sweep and the overdue records *)

Lemma inv_and {A} (I J : World -> Prop) (c : M A) :
  inv I c -> inv J c -> inv (fun w => I w /\ J w) c.
Proof. intros HI HJ w [H1 H2]. split; [now apply HI | now apply HJ]. Qed.

Lemma ready_entry (cfg : Config) (now : Z) (uid : string)
    (entry : string * EmailRecord) :
  inv (ready cfg uid) (auditEntry cfg now entry).
Proof.
  destruct entry as [e' r'].
  apply inv_auditEntry; unfold ready; try (intros; assumption).
  - intros w [Hf H]. split; [now apply faultFree_popFault | exact H].
  - intros uid' f w (Hf & g & Hg & Hbase & Hm). split; [exact Hf |].
    unfold updateMember. simpl. rewrite Hg. simpl.
    eexists. split; [reflexivity |]. simpl. split; [exact Hbase |].
    rewrite lookup_alter. destruct (decide (uid' = uid)) as [->|]; [| exact Hm].
    destruct Hm as [rs Hm]. rewrite Hm. simpl. eauto.
Qed.

Lemma clock_entry (cfg : Config) (now c : Z) (entry : string * EmailRecord) :
  inv (fun w => clock w = c) (auditEntry cfg now entry).
Proof.
  destruct entry as [e' r']. apply inv_auditEntry; intros; assumption.
Qed.

Lemma ready_sweepStart (cfg : Config) (uid : string) (w : World) :
  ready cfg uid w -> ready cfg uid (sweepStart w).
Proof.
  unfold ready, faultFree, sweepStart.
  destruct w as [f l g c fs t]. simpl. now destruct f.
Qed.

Lemma clock_sweepStart (w : World) : clock (sweepStart w) = clock w.
Proof. destruct w as [f l g c fs t]. now destruct f. Qed.

Lemma holds_addTrace (email : string) (v : EmailRecord) (e : Effect)
    (w : World) :
  holds email v w -> holds email v (addTrace e w).
Proof. intros H. exact H. Qed.

Lemma sweep_overdue (cfg : Config) (w : World) (email : string)
    (rec : EmailRecord) (s : string) (t : Z) :
  storeOf w !! email = Some rec ->
  isSubscription rec = true ->
  truthy (discordUserId rec) = true ->
  presentLastPaidAt rec = Some s ->
  dateParse s = Some t ->
  AUDIT_GRACE_DAYS cfg * msPerDay <= clock w - t ->
  AUDIT_DRY_RUN cfg = false ->
  ready cfg (discordUserId rec) w ->
  let w' := after (runSubscriptionAudit cfg) w in
  let days := daysBetween (clock w) t in
  holds email (downgradedRecord cfg rec days (clock w)) w' /\
  logged (trace w) (RolesAdd (discordUserId rec) (BASE_ROLE_NAME cfg)) w' /\
  logged (trace w) (downgradeSuccess email rec days) w'.
Proof.
  intros Hrec Hsub Hid Hs Ht Hge Hdry Hready w' days.
  destruct (sweep_focus cfg w email rec Hrec) as (l1 & l2 & Hl & Hkeys & Hrun).
  unfold w', after. rewrite Hrun. simpl.
  set (wa := sweepBody cfg (clock w) l1 (sweepStart w)).
  assert (Ha : (ready cfg (discordUserId rec) wa /\ extends (trace w) wa)
               /\ clock wa = clock w).
  { unfold wa.
    apply (sweepBody_inv
             (fun w0 => (ready cfg (discordUserId rec) w0
                         /\ extends (trace w) w0) /\ clock w0 = clock w)).
    - intros entry _. apply inv_and; [apply inv_and |].
      + apply ready_entry.
      + apply extends_entry.
      + apply clock_entry.
    - split; [split |].
      + now apply ready_sweepStart.
      + apply extends_sweepStart.
      + apply clock_sweepStart. }
  destruct Ha as [[Hra [ta Hta]] Hca].
  pose proof (auditEntry_overdue cfg (clock w) email rec s t wa
                Hsub Hid Hs Ht Hge Hdry Hra) as Hstep.
  simpl in Hstep. fold days in Hstep. rewrite Hca in Hstep.
  destruct Hstep as (Hl1 & Hf1 & _ & _ & tr & Htr & Hin1 & Hin2).
  set (wb := after (auditEntry cfg (clock w) (email, rec)) wa) in *.
  assert (Hholds : holds email (downgradedRecord cfg rec days (clock w)) wb).
  { unfold holds, storeOf. rewrite Hf1, Hl1.
    split; apply lookup_insert_eq. }
  assert (Hlog : forall x, In x tr -> logged (trace w) x wb).
  { intros x Hx. exists (ta ++ tr). split.
    - now rewrite Htr, Hta, app_assoc.
    - apply in_or_app. now right. }
  split; [| split].
  - apply holds_addTrace. apply sweepBody_inv; [| exact Hholds].
    intros entry Hin. apply holds_other_entry, Hkeys, elem_of_app. now right.
  - apply logged_addTrace. apply sweepBody_inv; [| now apply Hlog].
    intros entry _. apply logged_entry.
  - apply logged_addTrace. apply sweepBody_inv; [| now apply Hlog].
    intros entry _. apply logged_entry.
Qed.


(** ** The dry run *)

Lemma onlyLogged_refl (w : World) : onlyLogged w w.
Proof.
  repeat split. exists []. split; [now rewrite app_nil_r | constructor].
Qed.

Lemma onlyLogged_entry_dry (cfg : Config) (now : Z) (w0 : World)
    (entry : string * EmailRecord) :
  AUDIT_DRY_RUN cfg = true ->
  inv (onlyLogged w0) (auditEntry cfg now entry).
Proof.
  intros Hdry. apply inv_auditEntry_dry; [| | exact Hdry].
  - intros event level email uid detail w (Hg & Hl & Hf & Hc & t & Ht & Hall).
    repeat split; try assumption.
    exists (t ++ [BotLog event level email uid detail]). simpl. split.
    + now rewrite Ht, app_assoc.
    + apply Forall_app. split; [exact Hall | repeat constructor].
  - intros w H. exact H.
Qed.

Lemma auditEntry_overdue_dry (cfg : Config) (now : Z) (email : string)
    (rec : EmailRecord) (s : string) (t : Z) (w0 : World) :
  AUDIT_DRY_RUN cfg = true ->
  isSubscription rec = true ->
  truthy (discordUserId rec) = true ->
  presentLastPaidAt rec = Some s ->
  dateParse s = Some t ->
  AUDIT_GRACE_DAYS cfg * msPerDay <= now - t ->
  faultFree w0 ->
  memberPresent (discordUserId rec) w0 ->
  auditEntry cfg now (email, rec) w0 =
    (Ok tt, addTrace (overdueDetected email rec (daysBetween now t)) (popFault w0)).
Proof.
  intros Hdry Hsub Hid Hs Ht Hge Hf (g & Hg & rs & Hm).
  assert (Hnlt : (daysBetween now t <? AUDIT_GRACE_DAYS cfg) = false).
  { apply Z.ltb_ge. pose proof (daysBetween_lt now t (AUDIT_GRACE_DAYS cfg)).
    lia. }
  unfold auditEntry, auditRecord. simpl.
  rewrite Hsub, Hid, Hs, Ht, Hnlt, Hdry. simpl. run_monad. rewrite Hg.
  rewrite fetchMember_ok by exact Hf.
  unfold memberRoles. rewrite Hg. simpl. rewrite Hm. reflexivity.
Qed.

(** C7, as the code has it.  In dry-run mode the sweep mutates nothing: the
    guild and the file are as before and the trace grows by log events only
    (no role call, no write).  The overdue detection is logged for every
    overdue subscription record whose member is found in the guild. *)
Theorem audit_dry_run_mutates_nothing (cfg : Config) (w : World) :
  AUDIT_DRY_RUN cfg = true ->
  exists w',
    runSubscriptionAudit cfg w = (Ok tt, w') /\
    guild w' = guild w /\
    file w' = file (mkdirWorld w) /\
    storeOf w' = storeOf w /\
    loaded w' = storeOf w /\
    (exists t, trace w' = trace w ++ t /\ Forall isBotLog t) /\
    forall email rec s t,
      storeOf w !! email = Some rec ->
      isSubscription rec = true ->
      truthy (discordUserId rec) = true ->
      presentLastPaidAt rec = Some s ->
      dateParse s = Some t ->
      AUDIT_GRACE_DAYS cfg * msPerDay <= clock w - t ->
      faultFree w ->
      memberPresent (discordUserId rec) w ->
      logged (trace w)
        (overdueDetected email rec (daysBetween (clock w) t)) w'.
Proof.
  intros Hdry. exists (after (runSubscriptionAudit cfg) w).
  split; [apply runSubscriptionAudit_ok |].
  assert (Hframe : onlyLogged (sweepStart w)
            (sweepBody cfg (clock w) (map_to_list (storeOf w)) (sweepStart w))).
  { apply sweepBody_inv; [| apply onlyLogged_refl].
    intros entry _. now apply onlyLogged_entry_dry. }
  destruct Hframe as (Hg & Hl & Hf & Hc & t & Ht & Hall).
  assert (Hs0 : guild (sweepStart w) = guild w
                /\ file (sweepStart w) = file (mkdirWorld w)
                /\ loaded (sweepStart w) = storeOf w
                /\ trace (sweepStart w) = trace w ++ [auditStart]).
  { destruct w as [f l g c fs tr]. now destruct f. }
  destruct Hs0 as (Hg0 & Hf0 & Hl0 & Ht0).
  unfold after. rewrite runSubscriptionAudit_run. cbn [snd].
  set (W := sweepBody cfg (clock w) (map_to_list (storeOf w)) (sweepStart w))
    in *.
  split; [change (guild W = guild w); now rewrite Hg, Hg0 |].
  split; [change (file W = file (mkdirWorld w)); now rewrite Hf, Hf0 |].
  split.
  { rewrite storeOf_addTrace, <- (storeOf_mkdirWorld w).
    unfold storeOf. now rewrite Hf, Hf0. }
  split; [change (loaded W = storeOf w); now rewrite Hl, Hl0 |].
  split.
  { exists ([auditStart] ++ t ++ [auditEnd]). split.
    - change (trace W ++ [auditEnd]
              = trace w ++ [auditStart] ++ t ++ [auditEnd]).
      rewrite Ht, Ht0. now rewrite <- !app_assoc.
    - apply Forall_app. split; [repeat constructor |].
      apply Forall_app. split; [exact Hall | repeat constructor]. }
  intros email rec s0 t0 Hrec Hsub Hid Hs Hp Hge Hfree Hpres.
  destruct (sweep_focus cfg w email rec Hrec) as (l1 & l2 & Hlist & _ & Hrun).
  rewrite runSubscriptionAudit_run in Hrun.
  apply (f_equal snd) in Hrun. cbn [snd] in Hrun. fold W in Hrun.
  rewrite Hrun. apply logged_addTrace. apply sweepBody_inv.
  { intros entry _. apply logged_entry. }
  set (wa := sweepBody cfg (clock w) l1 (sweepStart w)).
  assert (Ha : (faultFree wa /\ onlyLogged (sweepStart w) wa)).
  { unfold wa.
    apply (sweepBody_inv
             (fun w0 => faultFree w0 /\ onlyLogged (sweepStart w) w0)).
    - intros entry _. apply inv_and.
      + apply inv_auditEntry_dry; [| | exact Hdry].
        * intros; assumption.
        * intros; now apply faultFree_popFault.
      + now apply onlyLogged_entry_dry.
    - split; [| apply onlyLogged_refl].
      unfold faultFree in *. destruct w as [f l g c fs tr]. now destruct f. }
  destruct Ha as (Hfa & Hga & _ & _ & _ & ta & Hta & _).
  unfold after.
  rewrite (auditEntry_overdue_dry cfg (clock w) email rec s0 t0 wa);
    try assumption.
  - simpl. exists ([auditStart] ++ ta
                   ++ [overdueDetected email rec (daysBetween (clock w) t0)]).
    simpl. split.
    + rewrite Hta, Ht0. now rewrite <- !app_assoc.
    + right. apply in_or_app. right. now left.
  - destruct Hpres as (g & Hgw & Hm). exists g. split; [| exact Hm].
    now rewrite Hga, Hg0.
Qed.

(** ** Fault isolation *)



(** ** The exclusive grant *)

Lemma rolesAdd_run (uid r : string) (rs : gset string) (w : World) :
  memberRoles uid w = Some rs ->
  rolesAdd uid r w =
    match nextFault w with
    | Some err => (Throw err, popFault (addTrace (RolesAdd uid r) w))
    | None =>
        (Ok tt,
         updateMember uid (fun rs => rs ∪ {[r]})
           (popFault (addTrace (RolesAdd uid r) w)))
    end.
Proof.
  intros Hm. unfold rolesAdd, theMember, external. run_monad. rewrite Hm.
  change (nextFault (addTrace (RolesAdd uid r) w)) with (nextFault w).
  now destruct (nextFault w).
Qed.

Lemma rolesRemove_run (uid : string) (l : list string) (rs : gset string)
    (w : World) :
  memberRoles uid w = Some rs ->
  rolesRemove uid l w =
    match nextFault w with
    | Some err => (Throw err, popFault (addTrace (RolesRemove uid l) w))
    | None =>
        (Ok tt,
         updateMember uid (fun cur => cur ∖ list_to_set l)
           (popFault (addTrace (RolesRemove uid l) w)))
    end.
Proof.
  intros Hm. unfold rolesRemove, theMember, external. run_monad. rewrite Hm.
  change (nextFault (addTrace (RolesRemove uid l) w)) with (nextFault w).
  now destruct (nextFault w).
Qed.

Lemma rolesByName_spec (g : Guild) (n r : string) :
  rolesByName g n = Some r <-> r = n /\ n ∈ guildRoles g.
Proof.
  unfold rolesByName. destruct (decide (n ∈ guildRoles g)) as [Hin|Hin]; split.
  - intros [= <-]. split; [reflexivity | exact Hin].
  - intros [-> _]. reflexivity.
  - discriminate.
  - intros [_ H]. contradiction.
Qed.

(** A fault-free grant to a present member returns when the guild has the
    base role and the target role. *)
Lemma setExclusiveTierRole_succeeds (cfg : Config) (uid roleName : string)
    (g : Guild) (rs : gset string) (w : World) :
  faultFree w -> guild w = Some g ->
  BASE_ROLE_NAME cfg ∈ guildRoles g -> roleName ∈ guildRoles g ->
  guildMembers g !! uid = Some rs ->
  exists w', setExclusiveTierRole cfg uid roleName w = (Ok tt, w').
Proof.
  intros Hf Hg Hbase Htarget Hm.
  assert (Hroles : memberRoles uid w = Some rs).
  { unfold memberRoles. now rewrite Hg. }
  unfold setExclusiveTierRole, theGuild. run_monad. rewrite Hg.
  rewrite (rolesByName_Some _ _ Hbase), (rolesByName_Some _ _ Htarget).
  rewrite (rolesAdd_ok _ _ rs); [| exact Hf | exact Hroles].
  set (w1 := updateMember uid (fun rs => rs ∪ {[BASE_ROLE_NAME cfg]})
               (popFault (addTrace (RolesAdd uid (BASE_ROLE_NAME cfg)) w))).
  assert (Hf1 : faultFree w1) by (now apply faultFree_popFault in Hf).
  assert (Hm1 : memberRoles uid w1 = Some (rs ∪ {[BASE_ROLE_NAME cfg]})).
  { unfold w1. rewrite memberRoles_updateMember.
    change (memberRoles uid (popFault (addTrace _ w))) with (memberRoles uid w).
    now rewrite Hroles. }
  rewrite (rolesAdd_ok _ _ _ _ Hf1 Hm1).
  set (w2 := updateMember uid (fun rs => rs ∪ {[roleName]})
               (popFault (addTrace (RolesAdd uid roleName) w1))).
  assert (Hf2 : faultFree w2) by (now apply faultFree_popFault in Hf1).
  assert (Hm2 : memberRoles uid w2
                = Some ((rs ∪ {[BASE_ROLE_NAME cfg]}) ∪ {[roleName]})).
  { unfold w2. rewrite memberRoles_updateMember.
    change (memberRoles uid (popFault (addTrace _ w1)))
      with (memberRoles uid w1).
    now rewrite Hm1. }
  destruct (otherTierRoles cfg g roleName) as [|o rest].
  - now exists w2.
  - rewrite (rolesRemove_ok _ _ _ _ Hf2 Hm2). eauto.
Qed.

(** The roles removed: the other configured tier roles that the guild has. *)
Lemma elem_of_otherTierRoles (cfg : Config) (g : Guild) (roleName n : string) :
  n ∈ otherTierRoles cfg g roleName <->
  n ∈ ALL_ROLE_NAMES cfg /\ n <> BASE_ROLE_NAME cfg /\ n <> roleName /\
  n ∈ guildRoles g.
Proof.
  unfold otherTierRoles. rewrite list_elem_of_omap. split.
  - intros (x & Hx & Hr). apply rolesByName_spec in Hr as [-> Hg].
    apply list_elem_of_filter in Hx as [[H1 H2] H3]. auto.
  - intros (H1 & H2 & H3 & H4). exists n. split.
    + apply list_elem_of_filter. auto.
    + now apply rolesByName_spec.
Qed.

(** C2.  When [setExclusiveTierRole] returns, the member holds the base role
    and the target role, and no other configured tier role; the roles outside
    the configuration are as before.  The calls issued are, in this order:
    add base, add target, and (when the guild has any) one removal of the
    other configured tier roles of the guild. *)
Theorem setExclusiveTierRole_exclusive (cfg : Config) (uid roleName : string)
    (w w' : World) (g : Guild) (rs : gset string) :
  setExclusiveTierRole cfg uid roleName w = (Ok tt, w') ->
  guild w = Some g ->
  guildMembers g !! uid = Some rs ->
  rs ⊆ guildRoles g ->
  exists rs',
    memberRoles uid w' = Some rs' /\
    BASE_ROLE_NAME cfg ∈ rs' /\
    roleName ∈ rs' /\
    (forall n, n ∈ ALL_ROLE_NAMES cfg -> n ∈ rs' ->
       n = BASE_ROLE_NAME cfg \/ n = roleName) /\
    (forall n, n ∉ ALL_ROLE_NAMES cfg ->
       n <> BASE_ROLE_NAME cfg -> n <> roleName -> (n ∈ rs' <-> n ∈ rs)) /\
    trace w' = trace w ++
      [RolesAdd uid (BASE_ROLE_NAME cfg); RolesAdd uid roleName] ++
      match otherTierRoles cfg g roleName with
      | [] => []
      | l => [RolesRemove uid l]
      end /\
    (forall n, n ∈ otherTierRoles cfg g roleName <->
       n ∈ ALL_ROLE_NAMES cfg /\ n <> BASE_ROLE_NAME cfg /\ n <> roleName /\
       n ∈ guildRoles g).
Proof.
  intros Hrun Hg Hm Hsub.
  set (base := BASE_ROLE_NAME cfg) in *.
  set (others := otherTierRoles cfg g roleName) in *.
  exists (((rs ∪ {[base]}) ∪ {[roleName]}) ∖ list_to_set others).
  assert (Hothers : forall n, n ∈ others <->
            n ∈ ALL_ROLE_NAMES cfg /\ n <> base /\ n <> roleName /\
            n ∈ guildRoles g) by apply elem_of_otherTierRoles.
  assert (Hm0 : memberRoles uid w = Some rs).
  { unfold memberRoles. now rewrite Hg. }
  unfold setExclusiveTierRole, theGuild in Hrun. run_monad_in Hrun.
  rewrite Hg in Hrun.
  fold base in Hrun.
  destruct (rolesByName g base) as [b|] eqn:Hb; [| discriminate].
  destruct (rolesByName g roleName) as [tgt|] eqn:Ht; [| discriminate].
  apply rolesByName_spec in Hb as [-> Hbg].
  apply rolesByName_spec in Ht as [-> Htg].
  rewrite (rolesAdd_run _ _ _ _ Hm0) in Hrun.
  destruct (nextFault w) eqn:Hn1; [discriminate |].
  set (w1 := updateMember uid (fun rs => rs ∪ {[base]})
               (popFault (addTrace (RolesAdd uid base) w))) in *.
  assert (Hm1 : memberRoles uid w1 = Some (rs ∪ {[base]})).
  { unfold w1. rewrite memberRoles_updateMember.
    change (memberRoles uid (popFault (addTrace _ w))) with (memberRoles uid w).
    now rewrite Hm0. }
  rewrite (rolesAdd_run _ _ _ _ Hm1) in Hrun.
  destruct (nextFault w1) eqn:Hn2; [discriminate |].
  set (w2 := updateMember uid (fun rs => rs ∪ {[roleName]})
               (popFault (addTrace (RolesAdd uid roleName) w1))) in *.
  assert (Hm2 : memberRoles uid w2 = Some ((rs ∪ {[base]}) ∪ {[roleName]})).
  { unfold w2. rewrite memberRoles_updateMember.
    change (memberRoles uid (popFault (addTrace _ w1)))
      with (memberRoles uid w1).
    now rewrite Hm1. }
  assert (Ht2 : trace w2 = trace w ++ [RolesAdd uid base; RolesAdd uid roleName]).
  { unfold w2, w1, updateMember. simpl. now rewrite <- app_assoc. }
  fold others in Hrun.
  assert (Hfinal : memberRoles uid w'
            = Some (((rs ∪ {[base]}) ∪ {[roleName]}) ∖ list_to_set others)
          /\ trace w' = trace w ++
               [RolesAdd uid base; RolesAdd uid roleName] ++
               match others with [] => [] | l => [RolesRemove uid l] end).
  { destruct others as [|o rest] eqn:Ho.
    - inversion Hrun; subst w'. rewrite Hm2. split.
      + simpl. now rewrite difference_empty_L.
      + rewrite Ht2. reflexivity.
    - rewrite (rolesRemove_run _ _ _ _ Hm2) in Hrun.
      destruct (nextFault w2); [discriminate |].
      inversion Hrun; subst w'. split.
      + rewrite memberRoles_updateMember.
        change (memberRoles uid (popFault (addTrace ?e w2)))
          with (memberRoles uid w2).
        now rewrite Hm2.
      + change (trace w2 ++ [RolesRemove uid (o :: rest)]
                = trace w ++ [RolesAdd uid base; RolesAdd uid roleName]
                    ++ [RolesRemove uid (o :: rest)]).
        rewrite Ht2. now rewrite <- app_assoc. }
  destruct Hfinal as [Hroles Htrace].
  split; [exact Hroles |].
  split.
  { apply elem_of_difference. split.
    - rewrite !elem_of_union, !elem_of_singleton. auto.
    - rewrite elem_of_list_to_set, Hothers. tauto. }
  split.
  { apply elem_of_difference. split.
    - rewrite !elem_of_union, !elem_of_singleton. auto.
    - rewrite elem_of_list_to_set, Hothers. tauto. }
  split.
  { intros n Hall Hin. apply elem_of_difference in Hin as [Hin Hnot].
    rewrite elem_of_list_to_set, Hothers in Hnot.
    rewrite !elem_of_union, !elem_of_singleton in Hin.
    destruct (decide (n = base)) as [|Hnb]; [now left |].
    destruct (decide (n = roleName)) as [|Hnt]; [now right |].
    exfalso. apply Hnot. repeat split; try assumption.
    apply Hsub. tauto. }
  split.
  { intros n Hnot Hnb Hnt.
    rewrite elem_of_difference, elem_of_list_to_set, Hothers.
    rewrite !elem_of_union, !elem_of_singleton. tauto. }
  split; [| exact Hothers].
  rewrite Htrace. clear. now destruct others.
Qed.

(** ** A successful verification *)

Lemma setExclusiveTierRole_frame (cfg : Config) (uid roleName : string)
    (w : World) :
  let w' := after (setExclusiveTierRole cfg uid roleName) w in
  loaded w' = loaded w /\ clock w' = clock w /\ file w' = file w.
Proof.
  apply (inv_setExclusiveTierRole
           (fun w0 => loaded w0 = loaded w /\ clock w0 = clock w
                      /\ file w0 = file w));
    try (intros; assumption).
  repeat split.
Qed.

Lemma verifyTry_verified (cfg : Config)
    (gateway : string -> Result (list Shopify.LineItem)) (i : Interaction)
    (email r : string) (w0 w' : World) :
  verifyTry cfg gateway i email w0 = (Ok (Verified r), w') ->
  exists items t,
    gateway email = Ok items /\
    pickHighestTier cfg (map Shopify.title items) = Some t /\
    r = role t /\
    loaded w' = <[email := verifiedRecord i t items (clock w0)]> (loaded w0) /\
    file w' = Parsed (loaded w').
Proof.
  intros H. unfold verifyTry in H. run_monad_in H.
  destruct (gateway email) as [items|err]; [| discriminate].
  exists items.
  remember (map Shopify.title items) as titles eqn:Ht in H.
  destruct titles as [|t0 ts]; [discriminate |].
  rewrite Ht in H. clear Ht t0 ts.
  destruct (pickHighestTier cfg (map Shopify.title items)) as [t|];
    [| discriminate].
  exists t. split; [reflexivity |]. split; [reflexivity |].
  set (w1 := addTrace (BotLog "tier_matched" INFO email (userId i)
                         (from_option role "" (Some t)))
               (addTrace (BotLog "shopify_line_items" INFO email (userId i) "")
                  w0)) in *.
  pose proof (setExclusiveTierRole_frame cfg (userId i) (role t) w1)
    as (Hl & Hc & _).
  unfold after in Hl, Hc.
  destruct (setExclusiveTierRole cfg (userId i) (role t) w1)
    as [[[]|err] w2]; [| discriminate].
  simpl in Hl, Hc.
  unfold saveLoaded, saveEmailMap, ensureDirForFile, external in H.
  run_monad_in H. simpl in H.
  match type of H with
  | context [nextFault ?x] => destruct (nextFault x)
  end; [discriminate |].
  inversion H; subst. simpl.
  rewrite loaded_mkdirWorld. simpl. rewrite Hl, Hc. auto.
Qed.

Lemma verifyHandler_verified (cfg : Config)
    (gateway : string -> Result (list Shopify.LineItem)) (i : Interaction)
    (r : string) (w w' : World) :
  verifyHandler cfg gateway i w = (Ok (Verified r), w') ->
  exists items t,
    gateway (normEmail (emailOption i)) = Ok items /\
    pickHighestTier cfg (map Shopify.title items) = Some t /\
    r = role t /\
    loaded w' = <[normEmail (emailOption i) :=
                   verifiedRecord i t items (clock w)]> (storeOf w) /\
    file w' = Parsed (loaded w').
Proof.
  intros H. unfold verifyHandler in H. run_monad_in H.
  rewrite loadEmailMap_run in H.
  destruct (negb (truthy (normEmail (emailOption i)))
            || negb (includes (normEmail (emailOption i)) "@"));
    [discriminate |].
  destruct (linkedToOther (storeOf w) (normEmail (emailOption i)) (userId i));
    [discriminate |].
  match type of H with
  | context [verifyTry cfg gateway i ?e ?x] =>
      destruct (verifyTry cfg gateway i e x) as [[o|err] w2] eqn:E
  end; [| discriminate].
  inversion H; subst o w2. clear H.
  apply verifyTry_verified in E as (items & t & Hg & Hp & Hr & Hl & Hf).
  exists items, t. repeat split; try assumption.
  rewrite Hl. simpl. f_equal. f_equal.
  destruct w as [f l g c fs tr]. now destruct f.
Qed.

(** Every key that verification writes passes its syntax check. *)
Lemma verified_email_has_at (cfg : Config)
    (gateway : string -> Result (list Shopify.LineItem)) (i : Interaction)
    (r : string) (w w' : World) :
  verifyHandler cfg gateway i w = (Ok (Verified r), w') ->
  includes (normEmail (emailOption i)) "@" = true.
Proof.
  intros H. unfold verifyHandler in H. run_monad_in H.
  rewrite loadEmailMap_run in H.
  destruct (truthy (normEmail (emailOption i)));
    destruct (includes (normEmail (emailOption i)) "@");
    simpl in H; try discriminate.
  reflexivity.
Qed.

Lemma maxTime_None (times : list (option Z)) :
  In None times -> maxTime times = None.
Proof.
  induction times as [|t rest IH]; [intros [] |].
  intros [-> | Hin]; simpl.
  - now destruct rest.
  - rewrite (IH Hin). destruct rest; [destruct Hin |]. now destruct t.
Qed.

Lemma maxTime_Some (ts : list Z) :
  ts <> [] ->
  exists m, maxTime (map Some ts) = Some m /\ In m ts /\
    forall x, In x ts -> x <= m.
Proof.
  induction ts as [|t rest IH]; [congruence |]. intros _.
  destruct rest as [|t' rest'].
  - exists t. simpl. split; [reflexivity |]. split; [now left |].
    intros x [<- | []]. lia.
  - destruct IH as (m & Hm & Hin & Hmax); [discriminate |].
    exists (Z.max t m). split.
    + change (maxTime (map Some (t :: t' :: rest')))
        with (match Some t, maxTime (map Some (t' :: rest')) with
              | Some a, Some b => Some (Z.max a b)
              | _, _ => None
              end).
      now rewrite Hm.
    + split.
      * destruct (Z.max_spec t m) as [[_ ->] | [_ ->]];
          [now right | now left].
      * intros x [<- | Hx]; [lia |]. specialize (Hmax x Hx). lia.
Qed.

(** C6, as the code has it.  The [lastPaidAt] that a successful verification
    stores is computed from all the fetched line items that carry a
    [paidAt]: null when there is none or when one of them does not parse,
    the most recent of them otherwise, whatever tier they match. *)
Theorem verify_lastPaidAt_newest_of_all (cfg : Config)
    (gateway : string -> Result (list Shopify.LineItem)) (i : Interaction)
    (r : string) (w w' : World) :
  verifyHandler cfg gateway i w = (Ok (Verified r), w') ->
  exists items rec,
    gateway (normEmail (emailOption i)) = Ok items /\
    holds (normEmail (emailOption i)) rec w' /\
    lastPaidAt rec = newestPaidIso items /\
    (paidAtStrings items = [] -> lastPaidAt rec = None) /\
    (In None (map dateParse (paidAtStrings items)) -> lastPaidAt rec = None) /\
    (forall ts,
       map dateParse (paidAtStrings items) = map Some ts -> ts <> [] ->
       exists m, lastPaidAt rec = Some (toISOString m) /\ In m ts /\
         forall x, In x ts -> x <= m).
Proof.
  intros H.
  apply verifyHandler_verified in H as (items & t & Hg & Hp & Hr & Hl & Hf).
  exists items, (verifiedRecord i t items (clock w)).
  split; [exact Hg |]. split.
  { unfold holds, storeOf. rewrite Hf, Hl. split; apply lookup_insert_eq. }
  split; [reflexivity |]. simpl. unfold newestPaidIso.
  split; [now intros -> |]. split.
  - intros Hin. rewrite (maxTime_None _ Hin).
    now destruct (map dateParse (paidAtStrings items)).
  - intros ts Hts Hne. rewrite Hts.
    destruct (maxTime_Some ts Hne) as (m & Hm & Hin & Hmax).
    exists m. rewrite Hm. split; [| auto].
    destruct ts; [congruence | reflexivity].
Qed.

(** ** The gateway reports no payment date *)

Lemma itemsOf_paidAt (orders : list Shopify.Order) :
  Forall (fun li => Shopify.paidAt li = None) (Shopify.itemsOf orders).
Proof.
  unfold Shopify.itemsOf. apply Forall_forall. intros li Hin.
  apply list_elem_of_In in Hin.
  apply in_flat_map in Hin as (order & _ & Hin).
  apply in_map_iff in Hin as (node & <- & _). reflexivity.
Qed.

Lemma getPaidLineItemsByEmail_paidAt (shop : string -> Shopify.Reply)
    (email : string) (items : list Shopify.LineItem) :
  Shopify.getPaidLineItemsByEmail shop email = Ok items ->
  Forall (fun li => Shopify.paidAt li = None) items.
Proof.
  unfold Shopify.getPaidLineItemsByEmail.
  destruct (shop email); [discriminate |].
  intros [= <-]. apply itemsOf_paidAt.
Qed.

Lemma paidAtStrings_nil (items : list Shopify.LineItem) :
  Forall (fun li => Shopify.paidAt li = None) items ->
  paidAtStrings items = [].
Proof.
  unfold paidAtStrings. induction 1 as [|li rest Hli _ IH]; [reflexivity |].
  simpl. now rewrite Hli.
Qed.

(** C9.  The items of [getPaidLineItemsByEmail] carry no [paidAt]; so the
    record that a successful verification stores has [lastPaidAt = null],
    and the audit never downgrades it: the iteration of a sweep on it changes
    nothing (it logs the warning at most) and after any sweep over a store
    that holds it, it is unchanged in memory and on file. *)
Theorem shopify_reports_no_payment_date (cfg : Config)
    (shop : string -> Shopify.Reply) (i : Interaction) (r : string)
    (w w' : World) :
  verify cfg shop i w = (Ok (Verified r), w') ->
  (forall email items,
     Shopify.getPaidLineItemsByEmail shop email = Ok items ->
     Forall (fun li => Shopify.paidAt li = None) items) /\
  exists rec,
    holds (normEmail (emailOption i)) rec w' /\
    lastPaidAt rec = None /\
    (forall cfg' now w0,
       auditEntry cfg' now (normEmail (emailOption i), rec) w0 =
         (Ok tt,
          if isSubscription rec && truthy (discordUserId rec)
          then addTrace (skipWarning (normEmail (emailOption i)) rec) w0
          else w0)) /\
    (forall cfg' wl,
       storeOf wl !! normEmail (emailOption i) = Some rec ->
       exists wl',
         runSubscriptionAudit cfg' wl = (Ok tt, wl') /\
         holds (normEmail (emailOption i)) rec wl').
Proof.
  intros H. split; [intros email items; apply getPaidLineItemsByEmail_paidAt |].
  unfold verify in H.
  apply verifyHandler_verified in H as (items & t & Hg & Hp & Hr & Hl & Hf).
  set (email := normEmail (emailOption i)) in *.
  set (rec := verifiedRecord i t items (clock w)).
  assert (Hnone : lastPaidAt rec = None).
  { simpl. unfold newestPaidIso.
    now rewrite (paidAtStrings_nil items
                   (getPaidLineItemsByEmail_paidAt _ _ _ Hg)). }
  assert (Hno : noPaymentDate rec).
  { unfold noPaymentDate, presentLastPaidAt. now rewrite Hnone. }
  exists rec. split.
  { unfold holds, storeOf. rewrite Hf, Hl. split; apply lookup_insert_eq. }
  split; [exact Hnone |]. split.
  - intros cfg' now w0. now apply auditEntry_noPaymentDate.
  - intros cfg' wl Hrec. exists (after (runSubscriptionAudit cfg') wl).
    split; [apply runSubscriptionAudit_ok |].
    apply sweep_keeps_record; [exact Hrec |].
    intros w0 Hw0. rewrite (auditEntry_noPaymentDate _ _ _ _ _ Hno).
    cbn [snd]. now destruct (isSubscription rec && truthy (discordUserId rec)).
Qed.

(** ** An unreadable store *)


































(** ** Canonical spelling of titles and e-mails *)












(** ** The tier resolver and the set of titles *)

Lemma someTitleIncludes_ext (l l' : list string) (t : Tier) :
  (forall x, In x l -> In x l') ->
  someTitleIncludes l t = true -> someTitleIncludes l' t = true.
Proof.
  unfold someTitleIncludes. rewrite !existsb_exists.
  intros Hsub (x & Hin & Hx). exists x. auto.
Qed.

Lemma firstTier_ext (l l' : list string) (tiers : list Tier) :
  (forall x, In x l <-> In x l') -> firstTier l tiers = firstTier l' tiers.
Proof.
  intros Heq. induction tiers as [|t rest IH]; simpl; [reflexivity |].
  destruct (someTitleIncludes l t) eqn:E.
  - rewrite (someTitleIncludes_ext l l' t); [reflexivity | apply Heq | exact E].
  - destruct (someTitleIncludes l' t) eqn:E'; [| exact IH].
    rewrite (someTitleIncludes_ext l' l t) in E;
      [discriminate | apply Heq | exact E'].
Qed.

(** X2.  The tier depends on the set of normalized titles only: neither the
    order of the purchases, nor their repetition, nor the case and the outer
    white space of their titles change it. *)
Theorem pickHighestTier_same_titles (cfg : Config) (titles titles' : list string) :
  (forall x, In x (map normalize titles) <-> In x (map normalize titles')) ->
  pickHighestTier cfg titles = pickHighestTier cfg titles'.
Proof. intros H. unfold pickHighestTier. now apply firstTier_ext. Qed.

Lemma firstTier_more_titles (l l' : list string) (tiers : list Tier) (t : Tier) :
  (forall x, In x l -> In x l') ->
  firstTier l tiers = Some t ->
  exists t' (j k : nat),
    firstTier l' tiers = Some t' /\ (j <= k)%nat /\
    tiers !! j = Some t' /\ tiers !! k = Some t.
Proof.
  intros Hsub. induction tiers as [|u rest IH]; simpl; [discriminate |].
  destruct (someTitleIncludes l u) eqn:E.
  - intros [= <-]. rewrite (someTitleIncludes_ext l l' u Hsub E).
    exists u, 0%nat, 0%nat. auto.
  - intros H. destruct (IH H) as (t' & j & k & H1 & H2 & H3 & H4).
    destruct (someTitleIncludes l' u).
    + exists u, 0%nat, (S k). repeat split; [lia | exact H4].
    + exists t', (S j), (S k). repeat split; [exact H1 | lia | exact H3 | exact H4].
Qed.

(** X3.  More purchases never lower the tier: when the titles of a customer
    resolve to a tier, any larger collection of titles resolves to a tier
    that stands at the same place or earlier in the priority list. *)
Theorem pickHighestTier_more_titles (cfg : Config)
    (titles titles' : list string) (t : Tier) :
  (forall x, In x titles -> In x titles') ->
  pickHighestTier cfg titles = Some t ->
  exists t' (j k : nat),
    pickHighestTier cfg titles' = Some t' /\ (j <= k)%nat /\
    TIERS cfg !! j = Some t' /\ TIERS cfg !! k = Some t.
Proof.
  intros Hsub. unfold pickHighestTier. apply firstTier_more_titles.
  intros x Hx. apply in_map_iff in Hx as (y & <- & Hy).
  apply in_map. auto.
Qed.

(** ** The titles of the gateway *)

Lemma titles_itemsOf (orders : list Shopify.Order) :
  map Shopify.title (Shopify.itemsOf orders)
  = flat_map (fun order => map Shopify.nodeTitle (Shopify.lineItems order))
      orders.
Proof.
  unfold Shopify.itemsOf. induction orders as [|o rest IH]; simpl;
    [reflexivity |].
  rewrite map_app, IH, map_map. reflexivity.
Qed.

(** ** Masked e-mails *)










(** X5.  The legacy entry point of the gateway returns the titles of all
    the line items of all the orders of the reply, in the order of the
    reply, and fails with the error of the query when the query fails. *)
Theorem getPaidProductTitlesByEmail_titles (shop : string -> Shopify.Reply)
    (email : string) :
  getPaidProductTitlesByEmail shop email =
    match shop email with
    | Shopify.Failed err => Throw err
    | Shopify.Orders nodes =>
        Ok (flat_map
              (fun order => map Shopify.nodeTitle (Shopify.lineItems order))
              nodes)
    end.
Proof.
  unfold getPaidProductTitlesByEmail, Shopify.getPaidLineItemsByEmail.
  destruct (shop email); [reflexivity |]. now rewrite titles_itemsOf.
Qed.

(** ** The role calls under any fault *)

Ltac role_sets :=
  rewrite ?elem_of_subseteq; intros;
  rewrite ?elem_of_difference, ?elem_of_union, ?elem_of_singleton in *;
  tauto.

Lemma memberRoles_updateMember_ne (uid uid' : string)
    (f : gset string -> gset string) (w : World) :
  uid' <> uid -> memberRoles uid' (updateMember uid f w) = memberRoles uid' w.
Proof.
  intros Hne. unfold memberRoles, updateMember. simpl.
  destruct (guild w) as [g|]; simpl; [| reflexivity].
  now rewrite lookup_alter_ne.
Qed.

(** A call that adds a role to a present member: it is recorded, it touches
    no other member, and the member gains the role unless the call fails. *)
Lemma rolesAdd_step (uid r : string) (rs : gset string) (w : World) :
  memberRoles uid w = Some rs ->
  exists res w1,
    rolesAdd uid r w = (res, w1) /\
    trace w1 = trace w ++ [RolesAdd uid r] /\
    (forall uid', uid' <> uid -> memberRoles uid' w1 = memberRoles uid' w) /\
    ((exists err, res = Throw err /\ memberRoles uid w1 = Some rs) \/
     (res = Ok tt /\ memberRoles uid w1 = Some (rs ∪ {[r]}))).
Proof.
  intros Hm. rewrite (rolesAdd_run _ _ _ _ Hm).
  destruct (nextFault w) as [err|]; eexists _, _; (split; [reflexivity |]).
  - split; [reflexivity |]. split; [reflexivity |]. left. eauto.
  - split; [reflexivity |]. split.
    + intros uid' Hne. now rewrite memberRoles_updateMember_ne.
    + right. split; [reflexivity |]. rewrite memberRoles_updateMember.
      change (memberRoles uid (popFault (addTrace ?e w)))
        with (memberRoles uid w).
      now rewrite Hm.
Qed.

Lemma rolesRemove_step (uid : string) (l : list string) (rs : gset string)
    (w : World) :
  memberRoles uid w = Some rs ->
  exists res w1,
    rolesRemove uid l w = (res, w1) /\
    trace w1 = trace w ++ [RolesRemove uid l] /\
    (forall uid', uid' <> uid -> memberRoles uid' w1 = memberRoles uid' w) /\
    ((exists err, res = Throw err /\ memberRoles uid w1 = Some rs) \/
     (res = Ok tt /\ memberRoles uid w1 = Some (rs ∖ list_to_set l))).
Proof.
  intros Hm. rewrite (rolesRemove_run _ _ _ _ Hm).
  destruct (nextFault w) as [err|]; eexists _, _; (split; [reflexivity |]).
  - split; [reflexivity |]. split; [reflexivity |]. left. eauto.
  - split; [reflexivity |]. split.
    + intros uid' Hne. now rewrite memberRoles_updateMember_ne.
    + right. split; [reflexivity |]. rewrite memberRoles_updateMember.
      change (memberRoles uid (popFault (addTrace ?e w)))
        with (memberRoles uid w).
      now rewrite Hm.
Qed.

(** The steps of [setExclusiveTierRole] on a present member, whatever call
    fails. *)
Lemma setExclusiveTierRole_steps (cfg : Config) (uid roleName : string)
    (w : World) (g : Guild) (rs : gset string) :
  guild w = Some g ->
  guildMembers g !! uid = Some rs ->
  let w' := after (setExclusiveTierRole cfg uid roleName) w in
  exists rs' t,
    memberRoles uid w' = Some rs' /\
    trace w' = trace w ++ t /\
    rs' ⊆ rs ∪ {[BASE_ROLE_NAME cfg; roleName]} /\
    (forall n, n ∈ rs -> n ∉ otherTierRoles cfg g roleName -> n ∈ rs') /\
    (forall l, In (RolesRemove uid l) t ->
       l = otherTierRoles cfg g roleName /\
       BASE_ROLE_NAME cfg ∈ rs' /\ roleName ∈ rs') /\
    (forall uid', uid' <> uid -> memberRoles uid' w' = memberRoles uid' w) /\
    (forall e, In e t ->
       e = RolesAdd uid (BASE_ROLE_NAME cfg) \/ e = RolesAdd uid roleName \/
       e = RolesRemove uid (otherTierRoles cfg g roleName)).
Proof.
  intros Hg Hm w'.
  assert (Hm0 : memberRoles uid w = Some rs).
  { unfold memberRoles. now rewrite Hg. }
  unfold w', after, setExclusiveTierRole, theGuild. clear w'.
  run_monad. rewrite Hg.
  destruct (rolesByName g (BASE_ROLE_NAME cfg)) as [b|] eqn:Hb.
  2: { exists rs, []. cbn [snd]. rewrite app_nil_r.
       split; [exact Hm0 |]. split; [reflexivity |].
       split; [apply union_subseteq_l |]. split; [auto |].
       split; [intros l [] |]. split; [reflexivity | intros e []]. }
  destruct (rolesByName g roleName) as [tgt|] eqn:Ht.
  2: { exists rs, []. cbn [snd]. rewrite app_nil_r.
       split; [exact Hm0 |]. split; [reflexivity |].
       split; [apply union_subseteq_l |]. split; [auto |].
       split; [intros l [] |]. split; [reflexivity | intros e []]. }
  apply rolesByName_spec in Hb as [-> _].
  apply rolesByName_spec in Ht as [-> _].
  destruct (rolesAdd_step uid (BASE_ROLE_NAME cfg) rs w Hm0)
    as (res1 & w1 & E1 & T1 & O1 & [(err & -> & M1) | (-> & M1)]);
    rewrite E1.
  { exists rs, [RolesAdd uid (BASE_ROLE_NAME cfg)]. cbn [snd].
    split; [exact M1 |]. split; [exact T1 |].
    split; [apply union_subseteq_l |]. split; [auto |].
    split; [intros l [Hl | []]; discriminate |].
    split; [exact O1 | intros e [<- | []]; auto]. }
  destruct (rolesAdd_step uid roleName _ w1 M1)
    as (res2 & w2 & E2 & T2 & O2 & [(err & -> & M2) | (-> & M2)]);
    rewrite E2.
  { exists (rs ∪ {[BASE_ROLE_NAME cfg]}),
      [RolesAdd uid (BASE_ROLE_NAME cfg); RolesAdd uid roleName]. cbn [snd].
    split; [exact M2 |]. split; [now rewrite T2, T1, <- app_assoc |].
    split; [role_sets |]. split; [role_sets |]. split.
    - intros l [Hl | [Hl | []]]; discriminate.
    - split; [intros uid' Hne; now rewrite O2, O1 |].
      intros e [<- | [<- | []]]; auto. }
  destruct (otherTierRoles cfg g roleName) as [|o others] eqn:Ho.
  { exists ((rs ∪ {[BASE_ROLE_NAME cfg]}) ∪ {[roleName]}),
      [RolesAdd uid (BASE_ROLE_NAME cfg); RolesAdd uid roleName]. cbn [snd].
    split; [exact M2 |]. split; [now rewrite T2, T1, <- app_assoc |].
    split; [role_sets |]. split; [role_sets |]. split.
    - intros l [Hl | [Hl | []]]; discriminate.
    - split; [intros uid' Hne; now rewrite O2, O1 |].
      intros e [<- | [<- | []]]; auto. }
  destruct (rolesRemove_step uid (o :: others) _ w2 M2)
    as (res3 & w3 & E3 & T3 & O3 & [(err & -> & M3) | (-> & M3)]);
    rewrite E3.
  - exists ((rs ∪ {[BASE_ROLE_NAME cfg]}) ∪ {[roleName]}),
      [RolesAdd uid (BASE_ROLE_NAME cfg); RolesAdd uid roleName;
       RolesRemove uid (o :: others)]. cbn [snd].
    split; [exact M3 |].
    split; [now rewrite T3, T2, T1, <- !app_assoc |].
    split; [role_sets |]. split; [role_sets |]. split.
    + intros l [Hl | [Hl | [Hl | []]]]; try discriminate.
      inversion Hl; subst l. split; [reflexivity |]. role_sets.
    + split; [intros uid' Hne; now rewrite O3, O2, O1 |].
      intros e [<- | [<- | [<- | []]]]; auto.
  - exists (((rs ∪ {[BASE_ROLE_NAME cfg]}) ∪ {[roleName]})
              ∖ list_to_set (o :: others)),
      [RolesAdd uid (BASE_ROLE_NAME cfg); RolesAdd uid roleName;
       RolesRemove uid (o :: others)]. cbn [snd].
    split; [exact M3 |].
    split; [now rewrite T3, T2, T1, <- !app_assoc |].
    split; [role_sets |]. split.
    { intros n Hn Hno. apply elem_of_difference. split; [role_sets |].
      now rewrite elem_of_list_to_set. }
    split.
    + intros l [Hl | [Hl | [Hl | []]]]; try discriminate.
      inversion Hl; subst l. split; [reflexivity |].
      split; apply elem_of_difference; (split; [role_sets |]);
        rewrite elem_of_list_to_set, <- Ho; intros Hin;
        apply elem_of_otherTierRoles in Hin; tauto.
    + split; [intros uid' Hne; now rewrite O3, O2, O1 |].
      intros e [<- | [<- | [<- | []]]]; auto.
Qed.

(** X6.  Whatever call fails, [setExclusiveTierRole] adds nothing but the
    base role and the target role, takes away nothing but the other
    configured tier roles, touches no other member, and issues the removal
    only once the member holds both the base role and the target role. *)
Theorem setExclusiveTierRole_any_outcome (cfg : Config) (uid roleName : string)
    (w : World) (g : Guild) (rs : gset string) :
  guild w = Some g ->
  guildMembers g !! uid = Some rs ->
  let w' := after (setExclusiveTierRole cfg uid roleName) w in
  exists rs' t,
    memberRoles uid w' = Some rs' /\
    trace w' = trace w ++ t /\
    rs' ⊆ rs ∪ {[BASE_ROLE_NAME cfg; roleName]} /\
    (forall n, n ∈ rs -> n ∉ otherTierRoles cfg g roleName -> n ∈ rs') /\
    (forall l, In (RolesRemove uid l) t ->
       l = otherTierRoles cfg g roleName /\
       BASE_ROLE_NAME cfg ∈ rs' /\ roleName ∈ rs') /\
    (forall uid', uid' <> uid -> memberRoles uid' w' = memberRoles uid' w).
Proof.
  intros Hg Hm w'.
  destruct (setExclusiveTierRole_steps cfg uid roleName w g rs Hg Hm)
    as (rs' & t & H1 & H2 & H3 & H4 & H5 & H6 & _).
  exists rs', t. auto 10.
Qed.

(** The roles the downgrade removes: the configured tier roles of the guild
    other than the base role. *)
Lemma elem_of_paidTierRoles (cfg : Config) (g : Guild) (n : string) :
  n ∈ paidTierRoles cfg g <->
  n ∈ ALL_ROLE_NAMES cfg /\ n <> BASE_ROLE_NAME cfg /\ n ∈ guildRoles g.
Proof.
  unfold paidTierRoles. rewrite list_elem_of_omap. split.
  - intros (x & Hx & Hr). apply rolesByName_spec in Hr as [-> Hg].
    apply list_elem_of_filter in Hx as [H1 H2]. auto.
  - intros (H1 & H2 & H3). exists n. split.
    + apply list_elem_of_filter. auto.
    + now apply rolesByName_spec.
Qed.

(** X7.  When [downgradeToMembers] returns, the member holds the base role
    and no other configured tier role; the roles outside the configuration
    are as before and no other member is touched.  The calls issued are the
    addition of the base role and then, when the guild has any paid tier
    role, one removal of all of them. *)
Theorem downgradeToMembers_postcondition (cfg : Config) (uid : string)
    (w w' : World) (g : Guild) (rs : gset string) :
  downgradeToMembers cfg uid w = (Ok tt, w') ->
  guild w = Some g ->
  guildMembers g !! uid = Some rs ->
  rs ⊆ guildRoles g ->
  exists rs',
    memberRoles uid w' = Some rs' /\
    BASE_ROLE_NAME cfg ∈ rs' /\
    (forall n, n ∈ ALL_ROLE_NAMES cfg -> n ∈ rs' -> n = BASE_ROLE_NAME cfg) /\
    (forall n, n ∉ ALL_ROLE_NAMES cfg -> n <> BASE_ROLE_NAME cfg ->
       (n ∈ rs' <-> n ∈ rs)) /\
    (forall uid', uid' <> uid -> memberRoles uid' w' = memberRoles uid' w) /\
    trace w' = trace w ++
      RolesAdd uid (BASE_ROLE_NAME cfg) ::
      match paidTierRoles cfg g with
      | [] => []
      | l => [RolesRemove uid l]
      end.
Proof.
  intros Hrun Hg Hm Hsub.
  assert (Hm0 : memberRoles uid w = Some rs).
  { unfold memberRoles. now rewrite Hg. }
  pose proof (elem_of_paidTierRoles cfg g) as Hpaid.
  unfold downgradeToMembers, theGuild in Hrun. run_monad_in Hrun.
  rewrite Hg in Hrun.
  destruct (rolesByName g (BASE_ROLE_NAME cfg)) as [b|] eqn:Hb;
    [| discriminate].
  apply rolesByName_spec in Hb as [-> Hbg].
  destruct (rolesAdd_step uid (BASE_ROLE_NAME cfg) rs w Hm0)
    as (res1 & w1 & E1 & T1 & O1 & [(err & -> & M1) | (-> & M1)]);
    rewrite E1 in Hrun; [discriminate |].
  destruct (paidTierRoles cfg g) as [|p paid] eqn:Hp.
  - inversion Hrun; subst w'. exists (rs ∪ {[BASE_ROLE_NAME cfg]}).
    split; [exact M1 |]. split; [role_sets |]. split.
    { intros n Hall Hin. destruct (decide (n = BASE_ROLE_NAME cfg)) as [|Hne];
        [assumption |].
      exfalso. apply (not_elem_of_nil n). apply Hpaid.
      repeat split; [assumption | assumption |]. apply Hsub. role_sets. }
    split; [intros n _ Hne; role_sets |].
    split; [exact O1 | exact T1].
  - destruct (rolesRemove_step uid (p :: paid) _ w1 M1)
      as (res2 & w2 & E2 & T2 & O2 & [(err & -> & M2) | (-> & M2)]);
      rewrite E2 in Hrun; [discriminate |].
    inversion Hrun; subst w'.
    exists ((rs ∪ {[BASE_ROLE_NAME cfg]}) ∖ list_to_set (p :: paid)).
    split; [exact M2 |]. split.
    { apply elem_of_difference. split; [role_sets |].
      rewrite elem_of_list_to_set, Hpaid. tauto. }
    split.
    { intros n Hall Hin. apply elem_of_difference in Hin as [Hin Hnot].
      rewrite elem_of_list_to_set, Hpaid in Hnot.
      destruct (decide (n = BASE_ROLE_NAME cfg)) as [|Hne]; [assumption |].
      exfalso. apply Hnot. repeat split; [assumption | assumption |].
      apply Hsub. role_sets. }
    split.
    { intros n Hnot Hne.
      rewrite elem_of_difference, elem_of_list_to_set, Hpaid. role_sets. }
    split; [intros uid' Hne; now rewrite O2, O1 |].
    rewrite T2, T1, <- app_assoc. reflexivity.
Qed.

(** ** The outcomes of a verification *)

Lemma quiet_refl (w : World) : quiet w w.
Proof.
  unfold quiet. split; [reflexivity |]. split; [reflexivity |].
  split; [reflexivity |]. split; [reflexivity |].
  exists []. split; [now rewrite app_nil_r | constructor].
Qed.

Lemma quiet_log (e : Effect) (w0 w : World) :
  isLog e -> quiet w0 w -> quiet w0 (addTrace e w).
Proof.
  intros He (Hg & Hs & Hc & Hf & t & Ht & Hall).
  unfold quiet. split; [exact Hg |]. split; [exact Hs |].
  split; [exact Hc |]. split; [exact Hf |].
  exists (t ++ [e]). split.
  - simpl. now rewrite Ht, app_assoc.
  - apply Forall_app. split; [exact Hall | now constructor].
Qed.

Lemma quiet_verifyStart (i : Interaction) (w : World) :
  quiet w (verifyStart i w).
Proof.
  unfold verifyStart. apply quiet_log; [exact I |].
  apply quiet_log; [exact I |].
  destruct w as [f l g c fs t]. unfold quiet.
  destruct f; simpl; (split; [reflexivity |]); (split; [reflexivity |]);
    (split; [reflexivity |]); (split; [reflexivity |]);
    exists []; (split; [now rewrite app_nil_r | constructor]).
Qed.

Lemma quiet_trans (w0 w1 w2 : World) : quiet w0 w1 -> quiet w1 w2 -> quiet w0 w2.
Proof.
  intros (Hg & Hs & Hc & Hf & t & Ht & Hall)
         (Hg' & Hs' & Hc' & Hf' & t' & Ht' & Hall').
  unfold quiet. split; [congruence |]. split; [congruence |].
  split; [congruence |]. split; [congruence |].
  exists (t ++ t'). split.
  - now rewrite Ht', Ht, app_assoc.
  - apply Forall_app. auto.
Qed.

Lemma verifyHandler_run (cfg : Config)
    (gateway : string -> Result (list Shopify.LineItem)) (i : Interaction)
    (w : World) :
  verifyHandler cfg gateway i w =
    if includes (normEmail (emailOption i)) "@" then
      match linkedToOther (storeOf w) (normEmail (emailOption i)) (userId i) with
      | Some existingUserId =>
          (Ok AlreadyLinkedConflict,
           addTrace
             (BotLog "verify_email_already_linked" WARN
                (normEmail (emailOption i)) (userId i) existingUserId)
             (verifyStart i w))
      | None =>
          tryCatch (verifyTry cfg gateway i (normEmail (emailOption i)))
            (verifyCatch i (normEmail (emailOption i))) (verifyStart i w)
      end
    else
      (Ok InvalidEmail,
       addTrace
         (BotLog "verify_invalid_email" WARN (normEmail (emailOption i))
            (userId i) "")
         (verifyStart i w)).
Proof.
  unfold verifyHandler. run_monad. rewrite loadEmailMap_run.
  fold (verifyStart i w).
  destruct (includes (normEmail (emailOption i)) "@") eqn:Hat.
  - rewrite (includes_at_truthy _ Hat). simpl.
    destruct (linkedToOther (storeOf w) (normEmail (emailOption i)) (userId i));
      reflexivity.
  - rewrite orb_true_r. reflexivity.
Qed.

Lemma firstTier_nil (tiers : list Tier) : firstTier [] tiers = None.
Proof. induction tiers as [|t rest IH]; [reflexivity | exact IH]. Qed.

Lemma verifyTry_unmatched (cfg : Config)
    (gateway : string -> Result (list Shopify.LineItem)) (i : Interaction)
    (email : string) (items : list Shopify.LineItem) (w0 : World) :
  gateway email = Ok items ->
  pickHighestTier cfg (map Shopify.title items) = None ->
  exists w',
    verifyTry cfg gateway i email w0 =
      (Ok (match items with [] => NoPaidOrder | _ => PaidNoTierMatch end), w') /\
    quiet w0 w'.
Proof.
  intros Hg Hp. unfold verifyTry. run_monad. rewrite Hg, Hp.
  destruct items as [|li items]; simpl.
  - eexists. split; [reflexivity |].
    apply quiet_log; [exact I |]. apply quiet_log; [exact I |].
    apply quiet_refl.
  - eexists. split; [reflexivity |].
    apply quiet_log; [exact I |]. apply quiet_log; [exact I |].
    apply quiet_log; [exact I |]. apply quiet_refl.
Qed.

Lemma verifyTry_matched (cfg : Config)
    (gateway : string -> Result (list Shopify.LineItem)) (i : Interaction)
    (email : string) (items : list Shopify.LineItem) (t : Tier) (w0 : World) :
  gateway email = Ok items ->
  pickHighestTier cfg (map Shopify.title items) = Some t ->
  (exists w', verifyTry cfg gateway i email w0 = (Ok (Verified (role t)), w'))
  \/ (exists err w', verifyTry cfg gateway i email w0 = (Throw err, w')).
Proof.
  intros Hg Hp. unfold verifyTry. run_monad. rewrite Hg, Hp.
  destruct (map Shopify.title items) as [|t0 ts] eqn:Ht.
  { unfold pickHighestTier in Hp. rewrite ?Ht in Hp.
    rewrite firstTier_nil in Hp. discriminate. }
  match goal with
  | |- context [setExclusiveTierRole cfg ?u ?r ?x] =>
      destruct (setExclusiveTierRole cfg u r x) as [[[]|err] w2]
  end; [| right; eauto].
  unfold saveLoaded, saveEmailMap, ensureDirForFile, external. run_monad.
  match goal with
  | |- context [nextFault ?x] => destruct (nextFault x)
  end; [right; eauto | left; eauto].
Qed.

Lemma verifyCatch_quiet (i : Interaction) (email err : string) (w0 : World) :
  exists w',
    verifyCatch i email err w0 = (Ok (VerificationFailed err), w') /\
    quiet w0 w'.
Proof.
  unfold verifyCatch. run_monad. eexists. split; [reflexivity |].
  apply quiet_log; [exact I |]. apply quiet_log; [exact I |]. apply quiet_refl.
Qed.

(** The handler, case by case. *)
Lemma verifyHandler_cases (cfg : Config)
    (gateway : string -> Result (list Shopify.LineItem)) (i : Interaction)
    (w : World) :
  exists o w',
    verifyHandler cfg gateway i w = (Ok o, w') /\
    if includes (normEmail (emailOption i)) "@" then
      match linkedToOther (storeOf w) (normEmail (emailOption i)) (userId i) with
      | Some _ => o = AlreadyLinkedConflict /\ quiet w w'
      | None =>
          match gateway (normEmail (emailOption i)) with
          | Throw err => o = VerificationFailed err /\ quiet w w'
          | Ok items =>
              match pickHighestTier cfg (map Shopify.title items) with
              | None =>
                  o = match items with
                      | [] => NoPaidOrder
                      | _ => PaidNoTierMatch
                      end /\ quiet w w'
              | Some t =>
                  o = Verified (role t) \/ exists err, o = VerificationFailed err
              end
          end
      end
    else o = InvalidEmail /\ quiet w w'.
Proof.
  rewrite verifyHandler_run.
  pose proof (quiet_verifyStart i w) as Hq.
  destruct (includes (normEmail (emailOption i)) "@").
  2: { eexists _, _. split; [reflexivity |]. split; [reflexivity |].
       now apply quiet_log. }
  destruct (linkedToOther (storeOf w) (normEmail (emailOption i)) (userId i)).
  { eexists _, _. split; [reflexivity |]. split; [reflexivity |].
    now apply quiet_log. }
  unfold tryCatch.
  destruct (gateway (normEmail (emailOption i))) as [items|err] eqn:Hg.
  - destruct (pickHighestTier cfg (map Shopify.title items)) as [t|] eqn:Hp.
    + destruct (verifyTry_matched cfg gateway i _ items t (verifyStart i w)
                  Hg Hp) as [(w' & E) | (err & w' & E)]; rewrite E.
      * eexists _, _. split; [reflexivity |]. now left.
      * destruct (verifyCatch_quiet i (normEmail (emailOption i)) err w')
          as (w2 & E2 & _).
        rewrite E2. eexists _, _. split; [reflexivity |]. right. eauto.
    + destruct (verifyTry_unmatched cfg gateway i _ items (verifyStart i w)
                  Hg Hp) as (w' & E & Hq').
      rewrite E. eexists _, _. split; [reflexivity |].
      split; [reflexivity |]. now apply (quiet_trans _ _ _ Hq).
  - assert (E : verifyTry cfg gateway i (normEmail (emailOption i))
                  (verifyStart i w) = (Throw err, verifyStart i w)).
    { unfold verifyTry. run_monad. now rewrite Hg. }
    rewrite E.
    destruct (verifyCatch_quiet i (normEmail (emailOption i)) err
                (verifyStart i w)) as (w2 & E2 & Hq2).
    rewrite E2. eexists _, _. split; [reflexivity |].
    split; [reflexivity |]. now apply (quiet_trans _ _ _ Hq).
Qed.


(** X9.  Unless the e-mail is valid, not bound to another user, and the
    gateway returns items that match a tier, [/verify] only logs: it issues
    no role call and no write, and leaves the records of the store, the
    platform and the fault script as they were. *)
Theorem verify_quiet_without_matching_purchase (cfg : Config)
    (gateway : string -> Result (list Shopify.LineItem)) (i : Interaction)
    (w : World) :
  (includes (normEmail (emailOption i)) "@" = true ->
   linkedToOther (storeOf w) (normEmail (emailOption i)) (userId i) = None ->
   forall items, gateway (normEmail (emailOption i)) = Ok items ->
     pickHighestTier cfg (map Shopify.title items) = None) ->
  exists o w',
    verifyHandler cfg gateway i w = (Ok o, w') /\
    quiet w w' /\
    (forall r, o <> Verified r) /\
    (forall err, o = VerificationFailed err ->
       gateway (normEmail (emailOption i)) = Throw err).
Proof.
  intros Hno.
  destruct (verifyHandler_cases cfg gateway i w) as (o & w' & Hrun & Hcase).
  exists o, w'. split; [exact Hrun |].
  destruct (includes (normEmail (emailOption i)) "@").
  2: { destruct Hcase as [-> Hq]. split; [exact Hq |]. split; discriminate. }
  destruct (linkedToOther (storeOf w) (normEmail (emailOption i)) (userId i)).
  { destruct Hcase as [-> Hq]. split; [exact Hq |]. split; discriminate. }
  destruct (gateway (normEmail (emailOption i))) as [items|err].
  - rewrite (Hno eq_refl eq_refl items eq_refl) in Hcase.
    destruct Hcase as [-> Hq]. split; [exact Hq |].
    split; destruct items; discriminate.
  - destruct Hcase as [-> Hq]. split; [exact Hq |].
    split; [discriminate | now intros e [= ->]].
Qed.

(** ** A verification that cannot grant *)

Lemma mkdirWorld_frame (w : World) :
  loaded (mkdirWorld w) = loaded w /\ guild (mkdirWorld w) = guild w /\
  clock (mkdirWorld w) = clock w /\ faults (mkdirWorld w) = faults w /\
  trace (mkdirWorld w) = trace w.
Proof. destruct w as [f l g c fs t]. now destruct f. Qed.

Lemma verifyStart_frame (i : Interaction) (w : World) :
  loaded (verifyStart i w) = storeOf w /\ guild (verifyStart i w) = guild w /\
  clock (verifyStart i w) = clock w /\ faults (verifyStart i w) = faults w /\
  storeOf (verifyStart i w) = storeOf w.
Proof. destruct w as [f l g c fs t]. now destruct f. Qed.

Lemma setExclusiveTierRole_missing_role (cfg : Config) (uid roleName : string)
    (g : Guild) (w : World) :
  guild w = Some g ->
  BASE_ROLE_NAME cfg ∉ guildRoles g \/ roleName ∉ guildRoles g ->
  setExclusiveTierRole cfg uid roleName w =
    (Throw (if decide (BASE_ROLE_NAME cfg ∈ guildRoles g)
            then "Target role not found: " +:+ roleName
            else "Base role not found: " +:+ BASE_ROLE_NAME cfg), w).
Proof.
  intros Hg Hmiss. unfold setExclusiveTierRole, theGuild, rolesByName.
  run_monad. rewrite Hg.
  destruct (decide (BASE_ROLE_NAME cfg ∈ guildRoles g)) as [Hb|Hb];
    [| reflexivity].
  destruct (decide (roleName ∈ guildRoles g)) as [Ht|Ht]; [tauto | reflexivity].
Qed.

(** X10.  A purchase that matches a tier is not honoured when the guild
    lacks the base role or the role of the tier: the verification fails
    with the message that names the missing role (the base role first),
    before any role call and any write. *)
Theorem verify_fails_on_missing_role (cfg : Config)
    (gateway : string -> Result (list Shopify.LineItem)) (i : Interaction)
    (w : World) (g : Guild) (items : list Shopify.LineItem) (t : Tier) :
  includes (normEmail (emailOption i)) "@" = true ->
  linkedToOther (storeOf w) (normEmail (emailOption i)) (userId i) = None ->
  gateway (normEmail (emailOption i)) = Ok items ->
  pickHighestTier cfg (map Shopify.title items) = Some t ->
  guild w = Some g ->
  BASE_ROLE_NAME cfg ∉ guildRoles g \/ role t ∉ guildRoles g ->
  exists w',
    verifyHandler cfg gateway i w =
      (Ok (VerificationFailed
             (if decide (BASE_ROLE_NAME cfg ∈ guildRoles g)
              then "Target role not found: " +:+ role t
              else "Base role not found: " +:+ BASE_ROLE_NAME cfg)), w') /\
    quiet w w'.
Proof.
  intros Hat Hlink Hgw Hp Hg Hmiss.
  rewrite verifyHandler_run, Hat, Hlink.
  unfold tryCatch, verifyTry. run_monad. rewrite Hgw, Hp.
  destruct (map Shopify.title items) as [|t0 ts] eqn:Ht.
  { unfold pickHighestTier in Hp. rewrite ?Ht in Hp.
    rewrite firstTier_nil in Hp. discriminate. }
  rewrite (setExclusiveTierRole_missing_role cfg (userId i) (role t) g);
    [| destruct (verifyStart_frame i w) as (_ & H & _);
       change (guild (verifyStart i w) = Some g); congruence
     | exact Hmiss].
  match goal with
  | |- context [verifyCatch i ?e ?err ?x] =>
      destruct (verifyCatch_quiet i e err x) as (w2 & E2 & Hq2)
  end.
  rewrite E2. eexists. split; [reflexivity |].
  apply (quiet_trans _ _ _ (quiet_verifyStart i w)).
  refine (quiet_trans _ _ _ _ Hq2).
  apply quiet_log; [exact I |]. apply quiet_log; [exact I |]. apply quiet_refl.
Qed.

(** ** The effects of a verification *)

(** The calls of [setExclusiveTierRole], whatever the guild and the member
    are and whatever call fails. *)
Lemma setExclusiveTierRole_effects (cfg : Config) (uid roleName : string)
    (w : World) :
  let w' := after (setExclusiveTierRole cfg uid roleName) w in
  exists t,
    trace w' = trace w ++ t /\
    Forall (fun e =>
      e = RolesAdd uid (BASE_ROLE_NAME cfg) \/ e = RolesAdd uid roleName \/
      exists g, guild w = Some g /\
        e = RolesRemove uid (otherTierRoles cfg g roleName)) t /\
    (forall uid', uid' <> uid -> memberRoles uid' w' = memberRoles uid' w).
Proof.
  intros w'. destruct (guild w) as [g|] eqn:Hg.
  - destruct (guildMembers g !! uid) as [rs|] eqn:Hm.
    + destruct (setExclusiveTierRole_steps cfg uid roleName w g rs Hg Hm)
        as (rs' & t & _ & Ht & _ & _ & _ & Ho & Hall).
      exists t. split; [exact Ht |]. split; [| exact Ho].
      apply Forall_forall. intros e He. apply list_elem_of_In in He.
      destruct (Hall e He) as [H | [H | H]]; eauto.
    + assert (Hm0 : memberRoles uid w = None).
      { unfold memberRoles. now rewrite Hg. }
      exists []. unfold w', after, setExclusiveTierRole, theGuild, rolesAdd,
        theMember. run_monad. rewrite Hg.
      destruct (rolesByName g (BASE_ROLE_NAME cfg));
        [destruct (rolesByName g roleName) |]; rewrite ?Hm0; cbn [snd];
        rewrite app_nil_r; auto.
  - exists []. unfold w', after, setExclusiveTierRole, theGuild. run_monad.
    rewrite Hg. cbn [snd]. rewrite app_nil_r. auto.
Qed.

(** The effect the handler may issue for the requester [i], whose purchase
    [items] resolves to [tier]. *)
Lemma verifyTry_effects (cfg : Config)
    (gateway : string -> Result (list Shopify.LineItem)) (i : Interaction)
    (email : string) (items : list Shopify.LineItem) (tier : Tier)
    (w0 : World) :
  gateway email = Ok items ->
  pickHighestTier cfg (map Shopify.title items) = Some tier ->
  let w' := after (tryCatch (verifyTry cfg gateway i email)
                     (verifyCatch i email)) w0 in
  let rec := verifiedRecord i tier items (clock w0) in
  exists t,
    trace w' = trace w0 ++ t /\
    Forall (fun e =>
      isLog e \/
      e = RolesAdd (userId i) (BASE_ROLE_NAME cfg) \/
      e = RolesAdd (userId i) (role tier) \/
      (exists g, guild w0 = Some g /\
         e = RolesRemove (userId i) (otherTierRoles cfg g (role tier))) \/
      e = WriteFile (<[email := rec]> (loaded w0))) t /\
    (forall uid', uid' <> userId i ->
       memberRoles uid' w' = memberRoles uid' w0) /\
    (storeOf w' = storeOf w0 \/ storeOf w' = <[email := rec]> (loaded w0)).
Proof.
  intros Hgw Hp w' rec.
  set (P := fun e : Effect =>
      isLog e \/
      e = RolesAdd (userId i) (BASE_ROLE_NAME cfg) \/
      e = RolesAdd (userId i) (role tier) \/
      (exists g, guild w0 = Some g /\
         e = RolesRemove (userId i) (otherTierRoles cfg g (role tier))) \/
      e = WriteFile (<[email := rec]> (loaded w0))).
  assert (Plog : forall e, isLog e -> P e) by (intros e He; now left).
  set (w1 := addTrace (BotLog "tier_matched" INFO email (userId i)
                         (from_option role "" (Some tier)))
               (addTrace (BotLog "shopify_line_items" INFO email (userId i) "")
                  w0)).
  destruct (setExclusiveTierRole_effects cfg (userId i) (role tier) w1)
    as (t2 & Ht2 & Hall2 & Ho2).
  pose proof (setExclusiveTierRole_frame cfg (userId i) (role tier) w1)
    as (Hl2 & Hc2 & Hf2).
  assert (HP2 : Forall P t2).
  { eapply Forall_impl; [exact Hall2 |]. intros e [H | [H | H]]; unfold P; auto. }
  unfold w', after, tryCatch, verifyTry, verifyCatch. clear w'.
  run_monad. rewrite Hgw, Hp.
  destruct (map Shopify.title items) as [|t0 ts] eqn:Ht.
  { unfold pickHighestTier in Hp. rewrite ?Ht in Hp.
    rewrite firstTier_nil in Hp. discriminate. }
  fold w1. unfold after in Ht2, Ho2, Hl2, Hc2, Hf2.
  destruct (setExclusiveTierRole cfg (userId i) (role tier) w1)
    as [[[]|err] w2]; cbn [snd] in *.
  2: { exists ([BotLog "shopify_line_items" INFO email (userId i) "";
                BotLog "tier_matched" INFO email (userId i)
                  (from_option role "" (Some tier))] ++ t2 ++
               [LoggerLog ERROR "verify_error" email;
                BotLog "verify_error" ERROR email (userId i) err]).
       split; [simpl; rewrite Ht2; unfold w1; simpl;
               now rewrite <- !app_assoc |].
       split.
       { apply Forall_app. split; [repeat constructor; apply Plog; exact I |].
         apply Forall_app. split; [exact HP2 |].
         repeat constructor; apply Plog; exact I. }
       split; [exact Ho2 |]. left. unfold storeOf. simpl. now rewrite Hf2. }
  fold rec. rewrite Hc2, Hl2.
  change (clock w1) with (clock w0). change (loaded w1) with (loaded w0).
  fold rec.
  set (L := <[email := rec]> (loaded w0)).
  unfold saveLoaded, saveEmailMap, ensureDirForFile, external. run_monad.
  destruct (mkdirWorld_frame (setLoaded L w2)) as (Hk1 & Hk2 & Hk3 & Hk4 & Hk5).
  rewrite ?Hk1. change (loaded (setLoaded L w2)) with L.
  assert (Hother : forall uid' (x : World),
            guild x = guild w2 -> uid' <> userId i ->
            memberRoles uid' x = memberRoles uid' w0).
  { intros uid' x Hx Hne. transitivity (memberRoles uid' w2);
      [unfold memberRoles; now rewrite Hx | exact (Ho2 uid' Hne)]. }
  assert (Hstore : storeOf (mkdirWorld (setLoaded L w2)) = storeOf w0).
  { rewrite storeOf_mkdirWorld. unfold storeOf. simpl. now rewrite Hf2. }
  match goal with
  | |- context [nextFault ?x] => destruct (nextFault x) as [err|]
  end.
  - exists ([BotLog "shopify_line_items" INFO email (userId i) "";
             BotLog "tier_matched" INFO email (userId i)
               (from_option role "" (Some tier))] ++ t2 ++
            [WriteFile L;
             LoggerLog ERROR "verify_error" email;
             BotLog "verify_error" ERROR email (userId i) err]).
    cbn [snd]. split.
    { simpl. rewrite Hk5. simpl. rewrite Ht2. unfold w1. simpl.
      now rewrite <- !app_assoc. }
    split.
    { apply Forall_app. split; [repeat constructor; apply Plog; exact I |].
      apply Forall_app. split; [exact HP2 |].
      constructor; [unfold P; auto 6 |].
      repeat constructor; apply Plog; exact I. }
    split; [intros uid' Hne; apply Hother; [simpl; now rewrite Hk2 | exact Hne] |].
    left. exact Hstore.
  - exists ([BotLog "shopify_line_items" INFO email (userId i) "";
             BotLog "tier_matched" INFO email (userId i)
               (from_option role "" (Some tier))] ++ t2 ++
            [WriteFile L;
             LoggerLog INFO "verify_success" email;
             BotLog "verify_success"
               (match newestPaidIso items with
                | Some _ => SUCCESS
                | None => WARN
                end)
               email (userId i) (from_option id "missing" (newestPaidIso items))]).
    cbn [snd]. split.
    { simpl. rewrite Hk5. simpl. rewrite Ht2. unfold w1. simpl.
      now rewrite <- !app_assoc. }
    split.
    { apply Forall_app. split; [repeat constructor; apply Plog; exact I |].
      apply Forall_app. split; [exact HP2 |].
      constructor; [unfold P; auto 6 |].
      repeat constructor; apply Plog; exact I. }
    split; [intros uid' Hne; apply Hother; [simpl; now rewrite Hk2 | exact Hne] |].
    right. reflexivity.
Qed.

(** X11.  Whatever the store, the platform and the faults, the effects of
    [/verify] are log events and, when the gateway returns items that
    resolve to a tier, the calls of the grant for the requester: the
    addition of the base role, the addition of the role of that tier, the
    removal of the other configured tier roles, and the write of the store
    with the record of the requester.  No other member is touched, and the
    records of the store are as before or as before with that record. *)
Theorem verify_effects (cfg : Config)
    (gateway : string -> Result (list Shopify.LineItem)) (i : Interaction)
    (w : World) :
  let email := normEmail (emailOption i) in
  let w' := after (verifyHandler cfg gateway i) w in
  exists t,
    trace w' = trace w ++ t /\
    Forall (fun e =>
      isLog e \/
      exists items tier,
        gateway email = Ok items /\
        pickHighestTier cfg (map Shopify.title items) = Some tier /\
        (e = RolesAdd (userId i) (BASE_ROLE_NAME cfg) \/
         e = RolesAdd (userId i) (role tier) \/
         (exists g, guild w = Some g /\
            e = RolesRemove (userId i) (otherTierRoles cfg g (role tier))) \/
         e = WriteFile
               (<[email := verifiedRecord i tier items (clock w)]> (storeOf w))))
      t /\
    (forall uid', uid' <> userId i -> memberRoles uid' w' = memberRoles uid' w) /\
    (storeOf w' = storeOf w \/
     exists items tier,
       gateway email = Ok items /\
       pickHighestTier cfg (map Shopify.title items) = Some tier /\
       storeOf w' =
         <[email := verifiedRecord i tier items (clock w)]> (storeOf w)).
Proof.
  intros email w'.
  assert (Hquiet : quiet w w' ->
    exists t,
      trace w' = trace w ++ t /\
      Forall (fun e =>
        isLog e \/
        exists items tier,
          gateway email = Ok items /\
          pickHighestTier cfg (map Shopify.title items) = Some tier /\
          (e = RolesAdd (userId i) (BASE_ROLE_NAME cfg) \/
           e = RolesAdd (userId i) (role tier) \/
           (exists g, guild w = Some g /\
              e = RolesRemove (userId i) (otherTierRoles cfg g (role tier))) \/
           e = WriteFile
                 (<[email := verifiedRecord i tier items (clock w)]> (storeOf w))))
        t /\
      (forall uid', uid' <> userId i ->
         memberRoles uid' w' = memberRoles uid' w) /\
      (storeOf w' = storeOf w \/
       exists items tier,
         gateway email = Ok items /\
         pickHighestTier cfg (map Shopify.title items) = Some tier /\
         storeOf w' =
           <[email := verifiedRecord i tier items (clock w)]> (storeOf w))).
  { intros (Hg & Hs & _ & _ & t & Ht & Hall). exists t.
    split; [exact Ht |]. split.
    - eapply Forall_impl; [exact Hall |]. intros e He. now left.
    - split; [| now left]. intros uid' _. unfold memberRoles. now rewrite Hg. }
  destruct (verifyHandler_cases cfg gateway i w) as (o & w1 & Hrun & Hcase).
  assert (Hw' : w' = w1) by (unfold w', after; now rewrite Hrun).
  fold email in Hcase.
  destruct (includes email "@") eqn:Hat;
    [| apply Hquiet; rewrite Hw'; apply Hcase].
  destruct (linkedToOther (storeOf w) email (userId i)) eqn:Hlink;
    [apply Hquiet; rewrite Hw'; apply Hcase |].
  destruct (gateway email) as [items|err] eqn:Hgw;
    [| apply Hquiet; rewrite Hw'; apply Hcase].
  destruct (pickHighestTier cfg (map Shopify.title items)) as [tier|] eqn:Hp;
    [| apply Hquiet; rewrite Hw'; apply Hcase].
  clear Hquiet Hcase Hrun Hw' o w1.
  destruct (verifyTry_effects cfg gateway i email items tier (verifyStart i w)
              Hgw Hp) as (t & Ht & Hall & Ho & Hs).
  destruct (verifyStart_frame i w) as (Hl0 & Hg0 & Hc0 & _ & Hs0).
  rewrite Hl0, Hc0, Hs0, Hg0 in *.
  assert (Hw' : w' = after (tryCatch (verifyTry cfg gateway i email)
                              (verifyCatch i email)) (verifyStart i w)).
  { unfold w', after. rewrite verifyHandler_run. fold email.
    now rewrite Hat, Hlink. }
  rewrite Hw'.
  exists ([LoggerLog INFO "verify_requested" email;
           BotLog "verify_requested" INFO email (userId i) ""] ++ t).
  split.
  { rewrite Ht. unfold verifyStart. fold email. simpl.
    destruct (mkdirWorld_frame w) as (_ & _ & _ & _ & ->).
    now rewrite <- !app_assoc. }
  split.
  { apply Forall_app. split; [repeat constructor; left; exact I |].
    eapply Forall_impl; [exact Hall |].
    intros e [H | H]; [now left | right].
    exists items, tier. split; [reflexivity |]. split; [exact Hp |].
    exact H. }
  split.
  { intros uid' Hne. rewrite (Ho uid' Hne). unfold memberRoles.
    now rewrite Hg0. }
  destruct Hs as [Hs | Hs]; [now left |].
  right. exists items, tier. auto.
Qed.

(** ** A verification that grants *)

Lemma otherTierRoles_guildRoles (cfg : Config) (g g' : Guild)
    (roleName : string) :
  guildRoles g' = guildRoles g ->
  otherTierRoles cfg g' roleName = otherTierRoles cfg g roleName.
Proof.
  intros H. unfold otherTierRoles. f_equal.
  unfold rolesByName. now rewrite H.
Qed.

(** A fault-free grant to a present member of a guild that has the base role
    and the target role: it returns, and changes the roles of that member
    only. *)
Lemma setExclusiveTierRole_ok (cfg : Config) (uid roleName : string)
    (g : Guild) (rs : gset string) (w : World) :
  faultFree w -> guild w = Some g ->
  BASE_ROLE_NAME cfg ∈ guildRoles g -> roleName ∈ guildRoles g ->
  guildMembers g !! uid = Some rs ->
  exists w' g',
    setExclusiveTierRole cfg uid roleName w = (Ok tt, w') /\
    loaded w' = loaded w /\ file w' = file w /\ clock w' = clock w /\
    faultFree w' /\
    guild w' = Some g' /\ guildRoles g' = guildRoles g /\
    guildMembers g' !! uid = Some (grantedRoles cfg g roleName rs) /\
    (forall uid', uid' <> uid ->
       guildMembers g' !! uid' = guildMembers g !! uid').
Proof.
  intros Hf Hg Hbase Htarget Hm.
  assert (Hroles : memberRoles uid w = Some rs).
  { unfold memberRoles. now rewrite Hg. }
  unfold setExclusiveTierRole, theGuild. run_monad. rewrite Hg.
  rewrite (rolesByName_Some _ _ Hbase), (rolesByName_Some _ _ Htarget).
  rewrite (rolesAdd_ok _ _ rs); [| exact Hf | exact Hroles].
  set (w1 := updateMember uid (fun rs => rs ∪ {[BASE_ROLE_NAME cfg]})
               (popFault (addTrace (RolesAdd uid (BASE_ROLE_NAME cfg)) w))).
  assert (Hf1 : faultFree w1) by (now apply faultFree_popFault in Hf).
  assert (Hm1 : memberRoles uid w1 = Some (rs ∪ {[BASE_ROLE_NAME cfg]})).
  { unfold w1. rewrite memberRoles_updateMember.
    change (memberRoles uid (popFault (addTrace ?e w))) with (memberRoles uid w).
    now rewrite Hroles. }
  rewrite (rolesAdd_ok _ _ _ _ Hf1 Hm1).
  set (w2 := updateMember uid (fun rs => rs ∪ {[roleName]})
               (popFault (addTrace (RolesAdd uid roleName) w1))).
  assert (Hf2 : faultFree w2) by (now apply faultFree_popFault in Hf1).
  assert (Hm2 : memberRoles uid w2
                = Some ((rs ∪ {[BASE_ROLE_NAME cfg]}) ∪ {[roleName]})).
  { unfold w2. rewrite memberRoles_updateMember.
    change (memberRoles uid (popFault (addTrace ?e w1)))
      with (memberRoles uid w1).
    now rewrite Hm1. }
  unfold grantedRoles.
  destruct (otherTierRoles cfg g roleName) as [|o rest].
  - eexists w2, _. split; [reflexivity |].
    split; [reflexivity |]. split; [reflexivity |]. split; [reflexivity |].
    split; [exact Hf2 |].
    split; [unfold w2, w1, updateMember; simpl; rewrite Hg; reflexivity |].
    split; [reflexivity |]. simpl. split.
    + rewrite !lookup_alter_eq, Hm. simpl. now rewrite difference_empty_L.
    + intros uid' Hne. now rewrite !lookup_alter_ne.
  - rewrite (rolesRemove_ok _ _ _ _ Hf2 Hm2).
    eexists _, _. split; [reflexivity |].
    split; [reflexivity |]. split; [reflexivity |]. split; [reflexivity |].
    split; [now apply faultFree_popFault in Hf2 |].
    split; [unfold w2, w1, updateMember; simpl; rewrite Hg; reflexivity |].
    split; [reflexivity |]. simpl. split.
    + rewrite !lookup_alter_eq, Hm. reflexivity.
    + intros uid' Hne. now rewrite !lookup_alter_ne.
Qed.

Lemma verifyHandler_succeeds (cfg : Config)
    (gateway : string -> Result (list Shopify.LineItem)) (i : Interaction)
    (w : World) (g : Guild) (rs : gset string)
    (items : list Shopify.LineItem) (t : Tier) :
  faultFree w -> guild w = Some g ->
  BASE_ROLE_NAME cfg ∈ guildRoles g -> role t ∈ guildRoles g ->
  guildMembers g !! userId i = Some rs ->
  includes (normEmail (emailOption i)) "@" = true ->
  linkedToOther (storeOf w) (normEmail (emailOption i)) (userId i) = None ->
  gateway (normEmail (emailOption i)) = Ok items ->
  pickHighestTier cfg (map Shopify.title items) = Some t ->
  exists w' g',
    verifyHandler cfg gateway i w = (Ok (Verified (role t)), w') /\
    loaded w' =
      <[normEmail (emailOption i) := verifiedRecord i t items (clock w)]>
        (storeOf w) /\
    file w' = Parsed (loaded w') /\
    clock w' = clock w /\ faultFree w' /\
    guild w' = Some g' /\ guildRoles g' = guildRoles g /\
    guildMembers g' !! userId i = Some (grantedRoles cfg g (role t) rs) /\
    (forall uid', uid' <> userId i ->
       guildMembers g' !! uid' = guildMembers g !! uid').
Proof.
  intros Hf Hg Hbase Htarget Hm Hat Hlink Hgw Hp.
  rewrite verifyHandler_run, Hat, Hlink.
  unfold tryCatch, verifyTry. run_monad. rewrite Hgw, Hp.
  destruct (map Shopify.title items) as [|t0 ts] eqn:Ht.
  { unfold pickHighestTier in Hp. rewrite ?Ht in Hp.
    rewrite firstTier_nil in Hp. discriminate. }
  destruct (verifyStart_frame i w) as (Hl0 & Hg0 & Hc0 & Hf0 & Hs0).
  set (w1 := addTrace (BotLog "tier_matched" INFO (normEmail (emailOption i))
                         (userId i) (from_option role "" (Some t)))
               (addTrace (BotLog "shopify_line_items" INFO
                            (normEmail (emailOption i)) (userId i) "")
                  (verifyStart i w))).
  destruct (setExclusiveTierRole_ok cfg (userId i) (role t) g rs w1)
    as (w2 & g2 & E2 & Hl2 & Hfile2 & Hc2 & Hf2 & Hg2 & Hr2 & Hm2 & Ho2);
    [unfold faultFree; change (faults w1) with (faults (verifyStart i w));
     now rewrite Hf0
    | change (guild w1) with (guild (verifyStart i w)); congruence
    | exact Hbase | exact Htarget | exact Hm |].
  rewrite E2.
  change (loaded w1) with (loaded (verifyStart i w)) in Hl2.
  change (clock w1) with (clock (verifyStart i w)) in Hc2.
  rewrite Hc2, Hc0, Hl2, Hl0.
  set (L := <[normEmail (emailOption i) :=
               verifiedRecord i t items (clock w)]> (storeOf w)).
  rewrite saveLoaded_ok by exact Hf2.
  destruct (mkdirWorld_frame (setLoaded L w2)) as (Hk1 & Hk2 & Hk3 & Hk4 & Hk5).
  eexists _, g2. split; [reflexivity |].
  split; [simpl; now rewrite Hk1 |].
  split; [simpl; now rewrite Hk1 |].
  split; [simpl; rewrite Hk3; simpl; congruence |].
  split.
  { unfold faultFree in *. simpl. rewrite Hk4. simpl.
    destruct (faults w2); simpl; [trivial | now inversion Hf2]. }
  split; [simpl; rewrite Hk2; exact Hg2 |].
  auto.
Qed.

(** X12.  When no call fails, the guild has the base role and the role of the
    tier, and the requester is a member, a valid e-mail that is not bound to
    another user and whose purchases resolve to a tier is verified: the
    answer is the role of the tier, the record of the requester is in memory
    and on file, the requester holds the base role and that role and none of
    the other configured tier roles of the guild, and no other member and no
    role of the guild changes. *)
Theorem verify_succeeds (cfg : Config)
    (gateway : string -> Result (list Shopify.LineItem)) (i : Interaction)
    (w : World) (g : Guild) (rs : gset string)
    (items : list Shopify.LineItem) (t : Tier) :
  faultFree w -> guild w = Some g ->
  BASE_ROLE_NAME cfg ∈ guildRoles g -> role t ∈ guildRoles g ->
  guildMembers g !! userId i = Some rs ->
  includes (normEmail (emailOption i)) "@" = true ->
  linkedToOther (storeOf w) (normEmail (emailOption i)) (userId i) = None ->
  gateway (normEmail (emailOption i)) = Ok items ->
  pickHighestTier cfg (map Shopify.title items) = Some t ->
  exists w',
    verifyHandler cfg gateway i w = (Ok (Verified (role t)), w') /\
    holds (normEmail (emailOption i))
      (verifiedRecord i t items (clock w)) w' /\
    storeOf w' =
      <[normEmail (emailOption i) := verifiedRecord i t items (clock w)]>
        (storeOf w) /\
    memberRoles (userId i) w' = Some (grantedRoles cfg g (role t) rs) /\
    BASE_ROLE_NAME cfg ∈ grantedRoles cfg g (role t) rs /\
    role t ∈ grantedRoles cfg g (role t) rs /\
    (forall n, n ∈ otherTierRoles cfg g (role t) ->
       n ∉ grantedRoles cfg g (role t) rs) /\
    (forall uid', uid' <> userId i ->
       memberRoles uid' w' = memberRoles uid' w) /\
    (guildRoles <$> guild w') = Some (guildRoles g).
Proof.
  intros Hf Hg Hbase Htarget Hm Hat Hlink Hgw Hp.
  destruct (verifyHandler_succeeds cfg gateway i w g rs items t
              Hf Hg Hbase Htarget Hm Hat Hlink Hgw Hp)
    as (w' & g' & Hrun & Hl & Hfile & _ & _ & Hg' & Hr' & Hm' & Ho').
  exists w'. split; [exact Hrun |].
  assert (Hstore : storeOf w' =
    <[normEmail (emailOption i) := verifiedRecord i t items (clock w)]>
      (storeOf w)).
  { unfold storeOf at 1. now rewrite Hfile, Hl. }
  split.
  { unfold holds. rewrite Hstore, Hl. split; apply lookup_insert_eq. }
  split; [exact Hstore |].
  split; [unfold memberRoles; rewrite Hg'; exact Hm' |].
  unfold grantedRoles.
  split.
  { apply elem_of_difference. split; [role_sets |].
    rewrite elem_of_list_to_set, elem_of_otherTierRoles. tauto. }
  split.
  { apply elem_of_difference. split; [role_sets |].
    rewrite elem_of_list_to_set, elem_of_otherTierRoles. tauto. }
  split.
  { intros n Hn Hin. apply elem_of_difference in Hin as [_ Hnot].
    apply Hnot. now apply elem_of_list_to_set. }
  split.
  { intros uid' Hne. unfold memberRoles. rewrite Hg', Hg. simpl.
    now apply Ho'. }
  rewrite Hg'. simpl. now rewrite Hr'.
Qed.

Lemma grantedRoles_idempotent (cfg : Config) (g g' : Guild)
    (roleName : string) (rs : gset string) :
  guildRoles g' = guildRoles g ->
  grantedRoles cfg g' roleName (grantedRoles cfg g roleName rs)
  = grantedRoles cfg g roleName rs.
Proof.
  intros Hr. unfold grantedRoles.
  rewrite (otherTierRoles_guildRoles cfg g g' roleName Hr).
  apply set_eq. intros n.
  rewrite !elem_of_difference, !elem_of_union, !elem_of_singleton,
    !elem_of_difference, !elem_of_union, !elem_of_singleton,
    elem_of_list_to_set, elem_of_otherTierRoles.
  tauto.
Qed.

(** X13.  Verifying again changes nothing but the date of the record: when
    a verification has granted a tier, a later verification by the same
    user for the same e-mail and the same purchases, on the store and the
    guild the first one left, grants the same role, leaves the roles of every
    member as they are, and stores the same record up to [updatedAt]. *)
Theorem verify_again_is_stable (cfg : Config)
    (gateway : string -> Result (list Shopify.LineItem)) (i : Interaction)
    (w : World) (g : Guild) (rs : gset string)
    (items : list Shopify.LineItem) (t : Tier) :
  faultFree w -> guild w = Some g ->
  BASE_ROLE_NAME cfg ∈ guildRoles g -> role t ∈ guildRoles g ->
  guildMembers g !! userId i = Some rs ->
  includes (normEmail (emailOption i)) "@" = true ->
  linkedToOther (storeOf w) (normEmail (emailOption i)) (userId i) = None ->
  gateway (normEmail (emailOption i)) = Ok items ->
  pickHighestTier cfg (map Shopify.title items) = Some t ->
  let w' := after (verifyHandler cfg gateway i) w in
  forall w2,
    faultFree w2 -> guild w2 = guild w' -> storeOf w2 = storeOf w' ->
    exists w3,
      verifyHandler cfg gateway i w2 = (Ok (Verified (role t)), w3) /\
      (forall uid, memberRoles uid w3 = memberRoles uid w') /\
      holds (normEmail (emailOption i))
        (verifiedRecord i t items (clock w2)) w3 /\
      storeOf w3 =
        <[normEmail (emailOption i) := verifiedRecord i t items (clock w2)]>
          (storeOf w').
Proof.
  intros Hf Hg Hbase Htarget Hm Hat Hlink Hgw Hp w' w2 Hf2 Hg2 Hs2.
  destruct (verifyHandler_succeeds cfg gateway i w g rs items t
              Hf Hg Hbase Htarget Hm Hat Hlink Hgw Hp)
    as (w1 & g' & Hrun & Hl & Hfile & _ & _ & Hg' & Hr' & Hm' & Ho').
  assert (Hw' : w' = w1) by (unfold w', after; now rewrite Hrun).
  rewrite Hw' in *. clear Hw' w'.
  assert (Hstore : storeOf w1 =
    <[normEmail (emailOption i) := verifiedRecord i t items (clock w)]>
      (storeOf w)).
  { unfold storeOf at 1. now rewrite Hfile, Hl. }
  assert (Hlink2 : linkedToOther (storeOf w2) (normEmail (emailOption i))
                     (userId i) = None).
  { unfold linkedToOther. rewrite Hs2, Hstore, lookup_insert_eq. simpl.
    now rewrite String.eqb_refl. }
  rewrite Hg' in Hg2.
  destruct (verifyHandler_succeeds cfg gateway i w2 g'
              (grantedRoles cfg g (role t) rs) items t)
    as (w3 & g3 & Hrun3 & Hl3 & Hfile3 & _ & _ & Hg3 & Hr3 & Hm3 & Ho3);
    try assumption; try (now rewrite Hr').
  exists w3. split; [exact Hrun3 |].
  assert (Hstore3 : storeOf w3 =
    <[normEmail (emailOption i) := verifiedRecord i t items (clock w2)]>
      (storeOf w1)).
  { unfold storeOf at 1. now rewrite Hfile3, Hl3, Hs2. }
  split.
  { intros uid. unfold memberRoles. rewrite Hg3, Hg'. simpl.
    destruct (decide (uid = userId i)) as [->|Hne].
    - rewrite Hm3, Hm'. f_equal. now apply grantedRoles_idempotent.
    - now apply Ho3. }
  split; [| exact Hstore3].
  unfold holds. rewrite Hstore3, Hl3. split; apply lookup_insert_eq.
Qed.

(** X14.  A binding that a verification has written is on file: from any
    world over that file, [/lookup] of the e-mail, however it is spelled,
    returns the record of the verified user, and a [/verify] of it by any
    other user ends in the conflict outcome without any role call or
    write. *)
Theorem verified_binding_is_persistent (cfg : Config)
    (gateway : string -> Result (list Shopify.LineItem)) (i : Interaction)
    (r : string) (w w' : World) :
  verifyHandler cfg gateway i w = (Ok (Verified r), w') ->
  exists rec,
    storeOf w' !! normEmail (emailOption i) = Some rec /\
    discordUserId rec = userId i /\ tier rec = r /\
    forall (i2 : Interaction) (w2 : World),
      storeOf w2 = storeOf w' ->
      normEmail (emailOption i2) = normEmail (emailOption i) ->
      (exists w3, lookupHandler i2 w2 = (Ok (Some rec), w3) /\ quiet w2 w3) /\
      (userId i2 <> userId i ->
       forall cfg2 gateway2,
       exists w3,
         verifyHandler cfg2 gateway2 i2 w2 = (Ok AlreadyLinkedConflict, w3) /\
         quiet w2 w3).
Proof.
  intros Hrun.
  pose proof (verified_email_has_at _ _ _ _ _ _ Hrun) as Hat.
  apply verifyHandler_verified in Hrun as (items & t & Hgw & Hp & -> & Hl & Hf).
  exists (verifiedRecord i t items (clock w)).
  assert (Hrec : storeOf w' !! normEmail (emailOption i)
                 = Some (verifiedRecord i t items (clock w))).
  { unfold storeOf. rewrite Hf, Hl. apply lookup_insert_eq. }
  split; [exact Hrec |]. split; [reflexivity |]. split; [reflexivity |].
  intros i2 w2 Hs2 He2. split.
  - unfold lookupHandler. run_monad. rewrite loadEmailMap_run.
    rewrite He2, Hs2, Hrec. eexists. split; [reflexivity |].
    apply quiet_log; [exact I |].
    destruct w2 as [f l g c fs tr]. unfold quiet.
    destruct f; simpl; (split; [reflexivity |]); (split; [reflexivity |]);
      (split; [reflexivity |]); (split; [reflexivity |]);
      exists []; (split; [now rewrite app_nil_r | constructor]).
  - intros Hne cfg2 gateway2.
    destruct (verifyHandler_cases cfg2 gateway2 i2 w2)
      as (o & w3 & Hrun2 & Hcase).
    rewrite He2, Hat, Hs2 in Hcase. unfold linkedToOther in Hcase.
    rewrite Hrec in Hcase. simpl in Hcase.
    destruct (String.eqb_spec (userId i) (userId i2)) as [E|E];
      [congruence |].
    simpl in Hcase. destruct Hcase as [-> Hq]. eauto.
Qed.

(** ** What the sweep changes *)

(** X15.  The audit ignores the records that are not subscriptions: the
    iteration on such a record does nothing at all, and after any sweep the
    record is unchanged in memory and on file, however old its payment
    is. *)
Theorem audit_ignores_non_subscriptions (cfg : Config) (w : World)
    (email : string) (rec : EmailRecord) :
  storeOf w !! email = Some rec ->
  isSubscription rec = false ->
  (forall now w0, auditEntry cfg now (email, rec) w0 = (Ok tt, w0)) /\
  holds email rec (after (runSubscriptionAudit cfg) w).
Proof.
  intros Hrec Hsub.
  assert (Hstep : forall now w0, auditEntry cfg now (email, rec) w0 = (Ok tt, w0)).
  { intros now w0. unfold auditEntry, auditRecord, tryCatch. simpl.
    now rewrite Hsub. }
  split; [exact Hstep |].
  apply sweep_keeps_record; [exact Hrec |].
  intros w0 Hw0. now rewrite Hstep.
Qed.

(** The iteration on an entry preserves an invariant of the primitive
    effects as soon as the one insertion it can make does: that of the
    downgraded record of an overdue subscription, outside dry-run mode. *)
Lemma inv_auditEntry_downgrade (I : World -> Prop) (cfg : Config) (now : Z)
    (email : string) (rec : EmailRecord) :
  (forall e w, I w -> I (addTrace e w)) ->
  (forall w, I w -> I (popFault w)) ->
  (forall uid f w, I w -> I (updateMember uid f w)) ->
  (forall w, file w = NoDirectory -> I w -> I (setFile NoFile w)) ->
  (forall w, I w -> I (setFile (Parsed (loaded w)) w)) ->
  (forall s t w,
     isSubscription rec = true -> truthy (discordUserId rec) = true ->
     presentLastPaidAt rec = Some s -> dateParse s = Some t ->
     AUDIT_GRACE_DAYS cfg <= daysBetween now t ->
     AUDIT_DRY_RUN cfg = false ->
     I w ->
     I (setLoaded
          (<[email := downgradedRecord cfg rec (daysBetween now t) (clock w)]>
             (loaded w)) w)) ->
  inv I (auditEntry cfg now (email, rec)).
Proof.
  intros I_trace I_faults I_member I_mkdir I_save I_insert.
  assert (I_log : forall event level email uid detail w,
            I w -> I (addTrace (BotLog event level email uid detail) w))
    by (intros; now apply I_trace).
  unfold auditEntry. apply inv_tryCatch;
    [| intros err; now apply inv_postBotLog].
  unfold auditRecord. cbn [fst snd].
  destruct (isSubscription rec) eqn:Hsub; [| apply inv_ret]. cbn [negb].
  destruct (truthy (discordUserId rec)) eqn:Hid; [| apply inv_ret]. cbn [negb].
  destruct (presentLastPaidAt rec) as [s|] eqn:Hs;
    [| now apply inv_postBotLog].
  destruct (dateParse s) as [t|] eqn:Ht; [| now apply inv_postBotLog].
  destruct (daysBetween now t <? AUDIT_GRACE_DAYS cfg) eqn:Hlt;
    [apply inv_ret |].
  apply Z.ltb_ge in Hlt.
  apply inv_bind; [apply inv_gets | intros [g|]]; [| apply inv_ret].
  apply inv_bind; [now apply inv_fetchMember | intros [m|]];
    [| now apply inv_postBotLog].
  apply inv_bind; [now apply inv_postBotLog | intros _].
  destruct (AUDIT_DRY_RUN cfg) eqn:Hdry; [apply inv_ret |].
  apply inv_bind; [now apply inv_downgradeToMembers | intros _].
  intros w Hw.
  change (I ((saveLoaded ≫=
                (fun _ => postBotLog "audit_downgrade_success" SUCCESS email
                            (discordUserId rec) (pretty (daysBetween now t))))
               (setLoaded
                  (<[email := downgradedRecord cfg rec (daysBetween now t)
                                 (clock w)]> (loaded w)) w)).2).
  apply inv_bind;
    [now apply inv_saveLoaded | intros _; now apply inv_postBotLog |].
  now apply (I_insert s t).
Qed.

(** What a sweep may have made of the record [r] that the store held for a
    key: nothing, or its downgraded copy. *)
Lemma sweep_records (cfg : Config) (w : World) :
  let changed (r : EmailRecord) (x : option EmailRecord) : Prop :=
    x = Some r \/
    exists s t,
      isSubscription r = true /\ truthy (discordUserId r) = true /\
      presentLastPaidAt r = Some s /\ dateParse s = Some t /\
      AUDIT_GRACE_DAYS cfg <= daysBetween (clock w) t /\
      AUDIT_DRY_RUN cfg = false /\
      x = Some (downgradedRecord cfg r (daysBetween (clock w) t) (clock w)) in
  let ok (k : string) (x : option EmailRecord) : Prop :=
    match storeOf w !! k with
    | None => x = None
    | Some r => changed r x
    end in
  let w' := after (runSubscriptionAudit cfg) w in
  forall k, ok k (loaded w' !! k) /\ ok k (storeOf w' !! k).
Proof.
  intros changed ok w'.
  set (I := fun w0 : World =>
         clock w0 = clock w /\
         forall k, ok k (loaded w0 !! k) /\ ok k (storeOf w0 !! k)).
  assert (Hstart : I (sweepStart w)).
  { split; [apply clock_sweepStart |]. intros k.
    assert (Hk : ok k (storeOf w !! k)).
    { unfold ok, changed. destruct (storeOf w !! k); auto. }
    split.
    - exact Hk.
    - unfold sweepStart. rewrite storeOf_addTrace.
      change (storeOf (setLoaded (storeOf w) (mkdirWorld w)))
        with (storeOf (mkdirWorld w)).
      now rewrite storeOf_mkdirWorld. }
  assert (Hentry : forall entry, entry ∈ map_to_list (storeOf w) ->
            inv I (auditEntry cfg (clock w) entry)).
  { intros [email rec] Hin. apply elem_of_map_to_list in Hin.
    apply inv_auditEntry_downgrade; unfold I.
    - intros e w0 H. exact H.
    - intros w0 H. exact H.
    - intros uid f w0 H. exact H.
    - intros w0 Hf [Hc H]. split; [exact Hc |]. intros k.
      destruct (H k) as [H1 H2]. split; [exact H1 |].
      unfold storeOf in *. simpl. now rewrite Hf in H2.
    - intros w0 [Hc H]. split; [exact Hc |]. intros k.
      destruct (H k) as [H1 _]. split; exact H1.
    - intros s t w0 Hsub Hid Hs Ht Hge Hdry [Hc H]. split; [exact Hc |].
      intros k. destruct (H k) as [H1 H2]. split; [| exact H2].
      simpl. destruct (decide (k = email)) as [->|Hne].
      + rewrite lookup_insert_eq. unfold ok. rewrite Hin. right.
        exists s, t. rewrite Hc. auto 10.
      + now rewrite lookup_insert_ne. }
  assert (Hend : I w').
  { unfold w', after. rewrite runSubscriptionAudit_run. cbn [snd].
    apply (sweepBody_inv I cfg (clock w) (map_to_list (storeOf w)) Hentry)
      in Hstart.
    exact Hstart. }
  apply Hend.
Qed.

(** X16.  Whatever the platform does and whatever call fails, a sweep adds
    no record and deletes none, and the only change it makes to a record is
    the downgrade of a subscription with a bound user whose payment date is
    at least the grace threshold old, outside dry-run mode: the record keeps
    its user, its subscription flag and its payment date, and takes the base
    role as tier. *)
Theorem audit_changes_only_overdue_subscriptions (cfg : Config) (w : World)
    (k : string) :
  let w' := after (runSubscriptionAudit cfg) w in
  match storeOf w !! k with
  | None => storeOf w' !! k = None
  | Some r =>
      storeOf w' !! k = Some r \/
      exists s t r',
        storeOf w' !! k = Some r' /\
        isSubscription r = true /\ truthy (discordUserId r) = true /\
        presentLastPaidAt r = Some s /\ dateParse s = Some t /\
        AUDIT_GRACE_DAYS cfg <= daysBetween (clock w) t /\
        AUDIT_DRY_RUN cfg = false /\
        r' = downgradedRecord cfg r (daysBetween (clock w) t) (clock w) /\
        discordUserId r' = discordUserId r /\
        isSubscription r' = isSubscription r /\
        lastPaidAt r' = lastPaidAt r /\
        tier r' = BASE_ROLE_NAME cfg
  end.
Proof.
  intros w'. destruct (sweep_records cfg w k) as [_ H]. fold w' in H.
  destruct (storeOf w !! k) as [r|]; [| exact H].
  destruct H as [H | (s & t & H1 & H2 & H3 & H4 & H5 & H6 & H7)];
    [now left | right].
  exists s, t, (downgradedRecord cfg r (daysBetween (clock w) t) (clock w)).
  auto 15.
Qed.

(** X17.  A downgrade does not end the enforcement: the downgraded record is
    still a subscription with the same payment date, so a later sweep that
    finds the member downgrades again, rewrites the record and logs the
    downgrade once more. *)
Theorem audit_downgrades_again (cfg : Config) (w : World) (email : string)
    (rec : EmailRecord) (s : string) (t days stamp : Z) :
  isSubscription rec = true ->
  truthy (discordUserId rec) = true ->
  presentLastPaidAt rec = Some s ->
  dateParse s = Some t ->
  storeOf w !! email = Some (downgradedRecord cfg rec days stamp) ->
  AUDIT_GRACE_DAYS cfg * msPerDay <= clock w - t ->
  AUDIT_DRY_RUN cfg = false ->
  ready cfg (discordUserId rec) w ->
  let w' := after (runSubscriptionAudit cfg) w in
  let days' := daysBetween (clock w) t in
  holds email
    (downgradedRecord cfg (downgradedRecord cfg rec days stamp) days' (clock w))
    w' /\
  logged (trace w) (RolesAdd (discordUserId rec) (BASE_ROLE_NAME cfg)) w' /\
  logged (trace w) (downgradeSuccess email rec days') w'.
Proof.
  intros Hsub Hid Hs Ht Hrec Hge Hdry Hready.
  exact (sweep_overdue cfg w email (downgradedRecord cfg rec days stamp) s t
           Hrec Hsub Hid Hs Ht Hge Hdry Hready).
Qed.

(** ** The sweep when the downgrade cannot be made *)

(** The sweep seen from an entry whose iteration, under an invariant [J] of
    the iterations, keeps the record and logs [x]. *)
Lemma sweep_entry (J : World -> Prop) (x : Effect) (cfg : Config) (w : World)
    (email : string) (rec : EmailRecord) :
  storeOf w !! email = Some rec ->
  (forall entry, inv J (auditEntry cfg (clock w) entry)) ->
  J (sweepStart w) ->
  (forall w0, J w0 -> extends (trace w) w0 -> holds email rec w0 ->
     holds email rec (after (auditEntry cfg (clock w) (email, rec)) w0) /\
     logged (trace w) x (after (auditEntry cfg (clock w) (email, rec)) w0)) ->
  holds email rec (after (runSubscriptionAudit cfg) w) /\
  logged (trace w) x (after (runSubscriptionAudit cfg) w).
Proof.
  intros Hrec HJ HJ0 Hstep.
  destruct (sweep_focus cfg w email rec Hrec) as (l1 & l2 & Hl & Hkeys & Hrun).
  unfold after at 1 2. rewrite Hrun. cbn [snd].
  set (wa := sweepBody cfg (clock w) l1 (sweepStart w)).
  assert (Ha : (J wa /\ extends (trace w) wa) /\ holds email rec wa).
  { unfold wa.
    apply (sweepBody_inv
             (fun w0 => (J w0 /\ extends (trace w) w0) /\ holds email rec w0)).
    - intros entry Hin. apply inv_and; [apply inv_and |].
      + apply HJ.
      + apply extends_entry.
      + apply holds_other_entry, Hkeys, elem_of_app. now left.
    - split; [split |].
      + exact HJ0.
      + apply extends_sweepStart.
      + now apply holds_sweepStart. }
  destruct Ha as [[HJa Hea] Hha].
  destruct (Hstep wa HJa Hea Hha) as [Hh Hlog].
  split.
  - apply holds_addTrace. apply sweepBody_inv; [| exact Hh].
    intros entry Hin. apply holds_other_entry, Hkeys, elem_of_app. now right.
  - apply logged_addTrace. apply sweepBody_inv; [| exact Hlog].
    intros entry _. apply logged_entry.
Qed.

Lemma extends_popFault (t0 : list Effect) (w : World) :
  extends t0 w -> extends t0 (popFault w).
Proof. intros H. exact H. Qed.

(** X18.  When the user of an overdue subscription is not a member of the
    guild, the sweep warns and changes nothing: the iteration issues the
    lookup of the member and the warning [audit_member_not_found] only, and
    after the sweep the record is unchanged in memory and on file. *)
Theorem audit_warns_when_member_is_gone (cfg : Config) (w : World) (email : string)
    (rec : EmailRecord) (s : string) (t : Z) (g : Guild) :
  storeOf w !! email = Some rec ->
  isSubscription rec = true ->
  truthy (discordUserId rec) = true ->
  presentLastPaidAt rec = Some s ->
  dateParse s = Some t ->
  AUDIT_GRACE_DAYS cfg * msPerDay <= clock w - t ->
  guild w = Some g ->
  guildMembers g !! discordUserId rec = None ->
  let warning :=
    BotLog "audit_member_not_found" WARN email (discordUserId rec)
      (pretty (daysBetween (clock w) t)) in
  (forall w0, memberRoles (discordUserId rec) w0 = None ->
     is_Some (guild w0) ->
     auditEntry cfg (clock w) (email, rec) w0
       = (Ok tt, addTrace warning (popFault w0))) /\
  holds email rec (after (runSubscriptionAudit cfg) w) /\
  logged (trace w) warning (after (runSubscriptionAudit cfg) w).
Proof.
  intros Hrec Hsub Hid Hs Ht Hge Hg Hm warning.
  assert (Hnlt : (daysBetween (clock w) t <? AUDIT_GRACE_DAYS cfg) = false).
  { apply Z.ltb_ge.
    pose proof (daysBetween_lt (clock w) t (AUDIT_GRACE_DAYS cfg)). lia. }
  assert (Hstep : forall w0, memberRoles (discordUserId rec) w0 = None ->
            is_Some (guild w0) ->
            auditEntry cfg (clock w) (email, rec) w0
              = (Ok tt, addTrace warning (popFault w0))).
  { intros w0 Hm0 [g0 Hg0]. unfold auditEntry, auditRecord, tryCatch.
    cbn [fst snd]. rewrite Hsub, Hid, Hs, Ht, Hnlt. cbn [negb].
    unfold fetchMember, external. run_monad. rewrite Hg0.
    destruct (nextFault w0); [reflexivity |].
    change (memberRoles (discordUserId rec) (popFault w0))
      with (memberRoles (discordUserId rec) w0).
    now rewrite Hm0. }
  split; [exact Hstep |].
  apply (sweep_entry
           (fun w0 => memberRoles (discordUserId rec) w0 = None
                      /\ is_Some (guild w0))).
  - exact Hrec.
  - intros [e' r']. apply inv_auditEntry; try (intros; assumption).
    intros uid f w0 [H1 [g0 H2]]. split.
    + unfold memberRoles, updateMember in *. simpl. rewrite H2 in *. simpl in *.
      rewrite lookup_alter.
      destruct (decide (uid = discordUserId rec)) as [E|E]; [| exact H1].
      now rewrite E, H1.
    + unfold updateMember. simpl. rewrite H2. simpl. eauto.
  - unfold sweepStart. destruct (mkdirWorld_frame w) as (_ & Hk & _).
    unfold memberRoles. simpl. rewrite Hk, Hg. simpl. split; [exact Hm | eauto].
  - intros w0 [Hm0 Hg0] Hext Hh. unfold after.
    rewrite (Hstep w0 Hm0 Hg0). cbn [snd]. split.
    + exact Hh.
    + now apply extends_logged.
Qed.

(** X19.  When the guild lacks the base role, the sweep cannot downgrade an
    overdue subscription: the iteration logs the overdue record and then the
    error "Base role not found", issues no role call and no write, and after
    the sweep the record is unchanged in memory and on file. *)
Theorem audit_reports_missing_base_role (cfg : Config) (w : World)
    (email : string) (rec : EmailRecord) (s : string) (t : Z) (g : Guild) :
  storeOf w !! email = Some rec ->
  isSubscription rec = true ->
  truthy (discordUserId rec) = true ->
  presentLastPaidAt rec = Some s ->
  dateParse s = Some t ->
  AUDIT_GRACE_DAYS cfg * msPerDay <= clock w - t ->
  AUDIT_DRY_RUN cfg = false ->
  faultFree w ->
  guild w = Some g ->
  is_Some (guildMembers g !! discordUserId rec) ->
  BASE_ROLE_NAME cfg ∉ guildRoles g ->
  let days := daysBetween (clock w) t in
  let failure :=
    auditError (email, rec) ("Base role not found: " +:+ BASE_ROLE_NAME cfg) in
  auditEntry cfg (clock w) (email, rec) w
    = (Ok tt,
       addTrace failure (addTrace (overdueDetected email rec days) (popFault w)))
  /\ holds email rec (after (runSubscriptionAudit cfg) w)
  /\ logged (trace w) failure (after (runSubscriptionAudit cfg) w).
Proof.
  intros Hrec Hsub Hid Hs Ht Hge Hdry Hf Hg Hm Hbase days failure.
  assert (Hnlt : (daysBetween (clock w) t <? AUDIT_GRACE_DAYS cfg) = false).
  { apply Z.ltb_ge.
    pose proof (daysBetween_lt (clock w) t (AUDIT_GRACE_DAYS cfg)). lia. }
  set (J := fun w0 : World =>
         faultFree w0 /\
         exists g0, guild w0 = Some g0 /\
           (BASE_ROLE_NAME cfg ∉ guildRoles g0) /\
           is_Some (guildMembers g0 !! discordUserId rec)).
  assert (Hstep : forall w0, J w0 ->
            auditEntry cfg (clock w) (email, rec) w0
              = (Ok tt,
                 addTrace failure
                   (addTrace (overdueDetected email rec days) (popFault w0)))).
  { intros w0 (Hf0 & g0 & Hg0 & Hb0 & rs0 & Hm0).
    unfold auditEntry, auditRecord, tryCatch.
    cbn [fst snd]. rewrite Hsub, Hid, Hs, Ht, Hnlt, Hdry. cbn [negb].
    run_monad. rewrite Hg0. rewrite fetchMember_ok by exact Hf0.
    assert (Hmr : memberRoles (discordUserId rec) w0 = Some rs0).
    { unfold memberRoles. now rewrite Hg0. }
    rewrite Hmr. unfold downgradeToMembers, theGuild, rolesByName. run_monad.
    change (guild (addTrace ?e (popFault w0))) with (guild w0).
    rewrite Hg0. rewrite decide_False by exact Hb0. reflexivity. }
  assert (HJ : J w) by (unfold J; eauto 6).
  split; [now apply Hstep |].
  apply (sweep_entry J).
  - exact Hrec.
  - intros [e' r']. apply inv_auditEntry; unfold J; try (intros; assumption).
    + intros w0 [H1 H2]. split; [now apply faultFree_popFault | exact H2].
    + intros uid f w0 (H1 & g0 & Hg0 & Hb0 & Hm0). split; [exact H1 |].
      unfold updateMember. simpl. rewrite Hg0. simpl.
      eexists. split; [reflexivity |]. simpl. split; [exact Hb0 |].
      rewrite lookup_alter.
      destruct (decide (uid = discordUserId rec)) as [->|]; [| exact Hm0].
      destruct Hm0 as [rs0 Hm0]. rewrite Hm0. simpl. eauto.
  - unfold J, faultFree, sweepStart in *.
    destruct (mkdirWorld_frame w) as (_ & Hk & _ & Hkf & _).
    simpl. rewrite Hk, Hkf. eauto 6.
  - intros w0 HJ0 Hext Hh. unfold after. rewrite (Hstep w0 HJ0). cbn [snd].
    split.
    + exact Hh.
    + apply extends_logged. now apply extends_addTrace.
Qed.

(** ** The command handler *)

(** X20.  [/lookup] and [/status] are refused, before anything is read,
    logged or asked from the gateway, to a user who is not an administrator
    and, when a log channel is configured, outside that channel; the channel
    is checked first. *)
Theorem admin_commands_are_gated (cfg : Config) (LOG_CHANNEL_ID : string)
    (gateway : string -> Result (list Shopify.LineItem)) (c : Command)
    (w : World) :
  isChatInputCommand c = true ->
  commandName c = "lookup" \/ commandName c = "status" ->
  administrator c = false \/
    (LOG_CHANNEL_ID <> "" /\ channelId c <> LOG_CHANNEL_ID) ->
  exists why,
    onInteraction cfg LOG_CHANNEL_ID gateway c w = (Ok (Restricted why), w) /\
    (LOG_CHANNEL_ID <> "" -> channelId c <> LOG_CHANNEL_ID ->
     why = "Use this command in the bot logs channel only.") /\
    (LOG_CHANNEL_ID = "" \/ channelId c = LOG_CHANNEL_ID ->
     why = "Admin only.").
Proof.
  intros Hchat Hcmd Hdenied. unfold onInteraction. rewrite Hchat. cbn [negb].
  assert (Hadmin : String.eqb (commandName c) "lookup"
                   || String.eqb (commandName c) "status" = true).
  { destruct Hcmd as [-> | ->]; reflexivity. }
  assert (Hknown : negb (String.eqb (commandName c) "verify")
                   && negb (String.eqb (commandName c) "lookup")
                   && negb (String.eqb (commandName c) "status") = false).
  { destruct Hcmd as [-> | ->]; reflexivity. }
  rewrite Hknown, Hadmin. cbn [andb].
  destruct (truthy LOG_CHANNEL_ID) eqn:Hlog; cbn [andb].
  - assert (Hne : LOG_CHANNEL_ID <> "") by (now destruct LOG_CHANNEL_ID).
    destruct (String.eqb_spec (channelId c) LOG_CHANNEL_ID) as [Hch|Hch];
      cbn [negb].
    + destruct Hdenied as [Hnot | [_ Hch']]; [| contradiction].
      rewrite Hnot. cbn [negb]. eexists. split; [reflexivity |].
      split; [intros _ H; contradiction | reflexivity].
    + eexists. split; [reflexivity |].
      split; [reflexivity | intros [H | H]; contradiction].
  - assert (He : LOG_CHANNEL_ID = "") by (now destruct LOG_CHANNEL_ID).
    destruct Hdenied as [Hnot | [Hne _]]; [| contradiction].
    rewrite Hnot. cbn [negb]. eexists. split; [reflexivity |].
    split; [intros H; contradiction | reflexivity].
Qed.

Lemma existsb_isSubscription (items : list Shopify.LineItem) (t : Tier) :
  matchedIsSubscriptionOf items t = true ->
  existsb Shopify.isSubscription items = true.
Proof.
  unfold matchedIsSubscriptionOf. rewrite !existsb_exists.
  intros (li & Hin & H). apply andb_true_iff in H as [_ H]. eauto.
Qed.

(** X21.  [/status] tells what [/verify] grants.  When a verification has
    granted a role for an e-mail, [/status] of that e-mail by an
    administrator in the log channel reports that role as the matched tier
    and the number of the items; it reports a subscription whenever the
    stored record is one; and it changes nothing but the log. *)
Theorem status_agrees_with_verify (cfg : Config) (LOG_CHANNEL_ID : string)
    (gateway : string -> Result (list Shopify.LineItem)) (i : Interaction)
    (r : string) (w w' : World) (c : Command) (w2 : World) :
  verifyHandler cfg gateway i w = (Ok (Verified r), w') ->
  isChatInputCommand c = true ->
  commandName c = "status" ->
  administrator c = true ->
  LOG_CHANNEL_ID = "" \/ channelId c = LOG_CHANNEL_ID ->
  normEmail (emailOption (request c)) = normEmail (emailOption i) ->
  exists items rec subscription w3,
    gateway (normEmail (emailOption i)) = Ok items /\
    holds (normEmail (emailOption i)) rec w' /\
    onInteraction cfg LOG_CHANNEL_ID gateway c w2 =
      (Ok (StatusResult (length items) (Some r) subscription), w3) /\
    (isSubscription rec = true -> subscription = true) /\
    onlyLogged w2 w3.
Proof.
  intros Hrun Hchat Hcmd Hadm Hch Hemail.
  apply verifyHandler_verified in Hrun as (items & t & Hgw & Hp & -> & Hl & Hf).
  exists items, (verifiedRecord i t items (clock w)),
    (existsb Shopify.isSubscription items).
  unfold onInteraction. rewrite Hchat, Hcmd, Hadm. cbn [negb].
  change (String.eqb "status" "verify") with false.
  change (String.eqb "status" "lookup") with false.
  change (String.eqb "status" "status") with true.
  cbn [negb andb orb].
  assert (Hgate : truthy LOG_CHANNEL_ID
                  && negb (String.eqb (channelId c) LOG_CHANNEL_ID) = false).
  { destruct Hch as [-> | ->]; [reflexivity |].
    rewrite String.eqb_refl. apply andb_false_r. }
  rewrite Hgate. unfold statusHandler, tryCatch. run_monad.
  rewrite Hemail, Hgw, Hp.
  eexists. split; [reflexivity |]. split.
  { unfold holds, storeOf. rewrite Hf, Hl. split; apply lookup_insert_eq. }
  split; [reflexivity |]. split.
  { simpl. apply existsb_isSubscription. }
  unfold onlyLogged. simpl. repeat (split; [reflexivity |]).
  eexists. split; [reflexivity |]. constructor; [exact I | constructor].
Qed.

(** X22.  The subscription flag of a verified record is scoped to the
    granted tier: the record is a subscription exactly when one of the items
    whose title matches the product of that tier was bought with a selling
    plan; a plan on another item does not count. *)
Theorem verified_subscription_is_tier_scoped (cfg : Config)
    (gateway : string -> Result (list Shopify.LineItem)) (i : Interaction)
    (r : string) (w w' : World) :
  verifyHandler cfg gateway i w = (Ok (Verified r), w') ->
  exists items t rec,
    gateway (normEmail (emailOption i)) = Ok items /\
    pickHighestTier cfg (map Shopify.title items) = Some t /\
    r = role t /\
    holds (normEmail (emailOption i)) rec w' /\
    (isSubscription rec = true <->
     exists li, In li items /\
       Substring (normalize (product t)) (normalize (Shopify.title li)) /\
       Shopify.isSubscription li = true).
Proof.
  intros Hrun.
  apply verifyHandler_verified in Hrun as (items & t & Hgw & Hp & -> & Hl & Hf).
  exists items, t, (verifiedRecord i t items (clock w)).
  split; [exact Hgw |]. split; [exact Hp |]. split; [reflexivity |]. split.
  { unfold holds, storeOf. rewrite Hf, Hl. split; apply lookup_insert_eq. }
  simpl. unfold matchedIsSubscriptionOf, isTierTitleMatch.
  rewrite existsb_exists. split.
  - intros (li & Hin & H). apply andb_true_iff in H as [H1 H2].
    exists li. split; [exact Hin |]. split; [now apply includes_spec | exact H2].
  - intros (li & Hin & H1 & H2). exists li. split; [exact Hin |].
    apply andb_true_iff. split; [now apply includes_spec | exact H2].
Qed.

(** ** Verifying again after a downgrade *)

(** X23.  A downgraded user gets the tier back by verifying again: when the
    store holds the downgraded record of the requester, a verification that
    meets the conditions of a grant replaces the record as a whole, so the
    tier is the granted role again and the marks of the audit are gone, and
    the requester holds the role of the tier. *)
Theorem reverification_restores_access (cfg : Config)
    (gateway : string -> Result (list Shopify.LineItem)) (i : Interaction)
    (w : World) (g : Guild) (rs : gset string)
    (items : list Shopify.LineItem) (t : Tier)
    (rec : EmailRecord) (days stamp : Z) :
  faultFree w -> guild w = Some g ->
  BASE_ROLE_NAME cfg ∈ guildRoles g -> role t ∈ guildRoles g ->
  guildMembers g !! userId i = Some rs ->
  includes (normEmail (emailOption i)) "@" = true ->
  storeOf w !! normEmail (emailOption i)
    = Some (downgradedRecord cfg rec days stamp) ->
  discordUserId rec = userId i ->
  gateway (normEmail (emailOption i)) = Ok items ->
  pickHighestTier cfg (map Shopify.title items) = Some t ->
  exists w' rec',
    verifyHandler cfg gateway i w = (Ok (Verified (role t)), w') /\
    holds (normEmail (emailOption i)) rec' w' /\
    discordUserId rec' = userId i /\
    tier rec' = role t /\
    lastAuditAt rec' = None /\ lastAuditReason rec' = None /\
    memberRoles (userId i) w' = Some (grantedRoles cfg g (role t) rs) /\
    role t ∈ grantedRoles cfg g (role t) rs.
Proof.
  intros Hf Hg Hbase Htarget Hm Hat Hrec Hid Hgw Hp.
  assert (Hlink : linkedToOther (storeOf w) (normEmail (emailOption i))
                    (userId i) = None).
  { unfold linkedToOther. rewrite Hrec. simpl. rewrite Hid.
    now rewrite String.eqb_refl. }
  destruct (verifyHandler_succeeds cfg gateway i w g rs items t
              Hf Hg Hbase Htarget Hm Hat Hlink Hgw Hp)
    as (w' & g' & Hrun & Hl & Hfile & _ & _ & Hg' & _ & Hm' & _).
  exists w', (verifiedRecord i t items (clock w)).
  split; [exact Hrun |]. split.
  { unfold holds, storeOf. rewrite Hfile, Hl. split; apply lookup_insert_eq. }
  split; [reflexivity |]. split; [reflexivity |].
  split; [reflexivity |]. split; [reflexivity |].
  split; [unfold memberRoles; rewrite Hg'; exact Hm' |].
  unfold grantedRoles. apply elem_of_difference. split; [role_sets |].
  rewrite elem_of_list_to_set, elem_of_otherTierRoles. tauto.
Qed.

(** ** The calls of the sweep *)

Lemma emits_ret {A} (P : Effect -> Prop) (a : A) : emits P (ret a).
Proof. intros w. exists []. split; [now rewrite app_nil_r | constructor]. Qed.

Lemma emits_throw {A} (P : Effect -> Prop) (err : string) :
  emits P (@throw A err).
Proof. intros w. exists []. split; [now rewrite app_nil_r | constructor]. Qed.

Lemma emits_gets {A} (P : Effect -> Prop) (f : World -> A) : emits P (gets f).
Proof. intros w. exists []. split; [now rewrite app_nil_r | constructor]. Qed.

Lemma emits_modify (P : Effect -> Prop) (f : World -> World) :
  (forall w, trace (f w) = trace w) -> emits P (modify f).
Proof.
  intros Hf w. exists []. simpl. split; [now rewrite app_nil_r, Hf | constructor].
Qed.

Lemma emits_emit (P : Effect -> Prop) (e : Effect) : P e -> emits P (emit e).
Proof.
  intros He w. exists [e].
  split; [reflexivity | constructor; [exact He | constructor]].
Qed.

Lemma emits_bind {A B} (P : Effect -> Prop) (c : M A) (k : A -> M B) :
  emits P c -> (forall a, emits P (k a)) -> emits P (c ≫= k).
Proof.
  intros Hc Hk w. destruct (Hc w) as (t & Ht & Hall).
  unfold mbind, M_bind, bind. destruct (c w) as [[a|err] w1]; simpl in *.
  - destruct (Hk a w1) as (t' & Ht' & Hall'). exists (t ++ t'). split.
    + now rewrite Ht', Ht, app_assoc.
    + apply Forall_app. auto.
  - exists t. auto.
Qed.

Lemma emits_tryCatch {A} (P : Effect -> Prop) (c : M A) (h : string -> M A) :
  emits P c -> (forall err, emits P (h err)) -> emits P (tryCatch c h).
Proof.
  intros Hc Hh w. destruct (Hc w) as (t & Ht & Hall).
  unfold tryCatch. destruct (c w) as [[a|err] w1]; simpl in *.
  - exists t. auto.
  - destruct (Hh err w1) as (t' & Ht' & Hall'). exists (t ++ t'). split.
    + now rewrite Ht', Ht, app_assoc.
    + apply Forall_app. auto.
Qed.

Lemma emits_external (P : Effect -> Prop) : emits P external.
Proof.
  intros w. exists []. unfold external.
  destruct (nextFault w); simpl; (split; [now rewrite app_nil_r | constructor]).
Qed.

Lemma emits_theMember (P : Effect -> Prop) (uid : string) :
  emits P (theMember uid).
Proof.
  unfold theMember. apply emits_bind; [apply emits_gets |].
  intros [rs|]; [apply emits_ret | apply emits_throw].
Qed.

Lemma emits_rolesAdd (P : Effect -> Prop) (uid r : string) :
  P (RolesAdd uid r) -> emits P (rolesAdd uid r).
Proof.
  intros H. unfold rolesAdd.
  apply emits_bind; [apply emits_theMember | intros _].
  apply emits_bind; [now apply emits_emit | intros _].
  apply emits_bind; [apply emits_external | intros _].
  apply emits_modify. reflexivity.
Qed.

Lemma emits_rolesRemove (P : Effect -> Prop) (uid : string) (l : list string) :
  P (RolesRemove uid l) -> emits P (rolesRemove uid l).
Proof.
  intros H. unfold rolesRemove.
  apply emits_bind; [apply emits_theMember | intros _].
  apply emits_bind; [now apply emits_emit | intros _].
  apply emits_bind; [apply emits_external | intros _].
  apply emits_modify. reflexivity.
Qed.

Lemma emits_downgradeToMembers (P : Effect -> Prop) (cfg : Config)
    (uid : string) :
  P (RolesAdd uid (BASE_ROLE_NAME cfg)) ->
  (forall g, P (RolesRemove uid (paidTierRoles cfg g))) ->
  emits P (downgradeToMembers cfg uid).
Proof.
  intros Hadd Hrem. unfold downgradeToMembers, theGuild.
  apply emits_bind.
  { apply emits_bind; [apply emits_gets |].
    intros [g|]; [apply emits_ret | apply emits_throw]. }
  intros g. destruct (rolesByName g (BASE_ROLE_NAME cfg)) as [b|] eqn:Hb;
    [| apply emits_throw].
  apply rolesByName_spec in Hb as [-> _].
  apply emits_bind; [now apply emits_rolesAdd | intros _].
  specialize (Hrem g).
  destruct (paidTierRoles cfg g); [apply emits_ret | now apply emits_rolesRemove].
Qed.

Lemma emits_saveLoaded (P : Effect -> Prop) :
  (forall m, P (WriteFile m)) -> emits P saveLoaded.
Proof.
  intros H. unfold saveLoaded, saveEmailMap, ensureDirForFile.
  apply emits_bind; [apply emits_gets | intros m].
  apply emits_bind.
  { apply emits_modify. intros w.
    now destruct (mkdirWorld_frame w) as (_ & _ & _ & _ & ->). }
  intros _. apply emits_bind; [now apply emits_emit | intros _].
  apply emits_bind; [apply emits_external | intros _].
  apply emits_modify. reflexivity.
Qed.

Lemma emits_postBotLog (P : Effect -> Prop) (event : string) (level : Level)
    (email uid detail : string) :
  (forall e, isBotLog e -> P e) ->
  emits P (postBotLog event level email uid detail).
Proof. intros H. apply emits_emit, H. exact I. Qed.

(** The effects of the iteration on an entry. *)
Lemma emits_auditEntry (P : Effect -> Prop) (cfg : Config) (now : Z)
    (email : string) (rec : EmailRecord) :
  (forall e, isBotLog e -> P e) ->
  (isSubscription rec = true -> AUDIT_DRY_RUN cfg = false ->
   P (RolesAdd (discordUserId rec) (BASE_ROLE_NAME cfg)) /\
   (forall g, P (RolesRemove (discordUserId rec) (paidTierRoles cfg g))) /\
   (forall m, P (WriteFile m))) ->
  emits P (auditEntry cfg now (email, rec)).
Proof.
  intros Hlog Hcalls. unfold auditEntry. apply emits_tryCatch;
    [| intros err; now apply emits_postBotLog].
  unfold auditRecord. cbn [fst snd].
  destruct (isSubscription rec) eqn:Hsub; [| apply emits_ret]. cbn [negb].
  destruct (negb (truthy (discordUserId rec))); [apply emits_ret |].
  destruct (presentLastPaidAt rec) as [s|]; [| now apply emits_postBotLog].
  destruct (dateParse s) as [t|]; [| now apply emits_postBotLog].
  destruct (daysBetween now t <? AUDIT_GRACE_DAYS cfg); [apply emits_ret |].
  apply emits_bind; [apply emits_gets | intros [g|]]; [| apply emits_ret].
  apply emits_bind.
  { unfold fetchMember. apply emits_tryCatch; [| intros; apply emits_ret].
    apply emits_bind; [apply emits_external | intros _; apply emits_gets]. }
  intros [m|]; [| now apply emits_postBotLog].
  apply emits_bind; [now apply emits_postBotLog | intros _].
  destruct (AUDIT_DRY_RUN cfg) eqn:Hdry; [apply emits_ret |].
  destruct (Hcalls eq_refl eq_refl) as (Hadd & Hrem & Hwrite).
  apply emits_bind; [now apply emits_downgradeToMembers | intros _].
  apply emits_bind; [apply emits_gets | intros stamp].
  apply emits_bind; [apply emits_modify; reflexivity | intros _].
  apply emits_bind; [now apply emits_saveLoaded | intros _].
  now apply emits_postBotLog.
Qed.

(** X24.  Whatever the store, the platform and the faults, the calls of a
    sweep are the addition of the base role and the removal of the paid tier
    roles for the users bound to the subscription records of the store, and
    the writes of the store: a sweep never adds a tier role, never touches a
    user whom no subscription record names, and issues none of these calls
    in dry-run mode. *)
Theorem audit_effects (cfg : Config) (w : World) :
  let w' := after (runSubscriptionAudit cfg) w in
  exists t,
    trace w' = trace w ++ t /\
    Forall (fun e =>
      isBotLog e \/
      (AUDIT_DRY_RUN cfg = false /\
       ((exists m, e = WriteFile m) \/
        exists email rec,
          storeOf w !! email = Some rec /\ isSubscription rec = true /\
          (e = RolesAdd (discordUserId rec) (BASE_ROLE_NAME cfg) \/
           exists g,
             e = RolesRemove (discordUserId rec) (paidTierRoles cfg g)))))
      t.
Proof.
  intros w'.
  set (P := fun e : Effect =>
      isBotLog e \/
      (AUDIT_DRY_RUN cfg = false /\
       ((exists m, e = WriteFile m) \/
        exists email rec,
          storeOf w !! email = Some rec /\ isSubscription rec = true /\
          (e = RolesAdd (discordUserId rec) (BASE_ROLE_NAME cfg) \/
           exists g,
             e = RolesRemove (discordUserId rec) (paidTierRoles cfg g))))).
  set (J := fun w0 : World => exists t, trace w0 = trace w ++ t /\ Forall P t).
  assert (Hadd : forall e w0, P e -> J w0 -> J (addTrace e w0)).
  { intros e w0 He (t & Ht & Hall). exists (t ++ [e]). split.
    - simpl. now rewrite Ht, app_assoc.
    - apply Forall_app. split; [exact Hall |].
      constructor; [exact He | constructor]. }
  assert (Hentry : forall entry, entry ∈ map_to_list (storeOf w) ->
            inv J (auditEntry cfg (clock w) entry)).
  { intros [email rec] Hin. apply elem_of_map_to_list in Hin.
    assert (He : emits P (auditEntry cfg (clock w) (email, rec))).
    { apply emits_auditEntry.
      - intros e He. now left.
      - intros Hsub Hdry. unfold P. split; [| split].
        + right. split; [exact Hdry |]. right. exists email, rec. auto.
        + intros g. right. split; [exact Hdry |]. right.
          exists email, rec. eauto.
        + intros m. right. split; [exact Hdry |]. left. eauto. }
    intros w0 (t & Ht & Hall). destruct (He w0) as (t' & Ht' & Hall').
    exists (t ++ t'). split.
    - now rewrite Ht', Ht, app_assoc.
    - apply Forall_app. auto. }
  unfold w', after. rewrite runSubscriptionAudit_run. cbn [snd].
  apply Hadd; [left; exact I |].
  apply (sweepBody_inv J cfg (clock w) (map_to_list (storeOf w)) Hentry).
  unfold sweepStart. apply Hadd; [left; exact I |].
  exists []. simpl. destruct (mkdirWorld_frame w) as (_ & _ & _ & _ & ->).
  split; [now rewrite app_nil_r | constructor].
Qed.

(** ** A write that fails after the grant *)

Lemma nextFault_None (w : World) (fs : list (option string)) :
  faults w = None :: fs -> nextFault w = None.
Proof. unfold nextFault. now intros ->. Qed.

(** The grant when the platform accepts its calls, whatever follows them in
    the fault script: two calls, and a third one when the guild has other
    configured tier roles. *)
Lemma setExclusiveTierRole_accepted (cfg : Config) (uid roleName : string)
    (g : Guild) (rs : gset string) (w : World) (fs : list (option string)) :
  guild w = Some g ->
  BASE_ROLE_NAME cfg ∈ guildRoles g -> roleName ∈ guildRoles g ->
  guildMembers g !! uid = Some rs ->
  faults w =
    None :: None ::
    match otherTierRoles cfg g roleName with
    | [] => fs
    | _ => None :: fs
    end ->
  exists w',
    setExclusiveTierRole cfg uid roleName w = (Ok tt, w') /\
    loaded w' = loaded w /\ file w' = file w /\ clock w' = clock w /\
    faults w' = fs /\
    memberRoles uid w' = Some (grantedRoles cfg g roleName rs).
Proof.
  intros Hg Hbase Htarget Hm Hfs.
  assert (Hroles : memberRoles uid w = Some rs).
  { unfold memberRoles. now rewrite Hg. }
  unfold setExclusiveTierRole, theGuild. run_monad. rewrite Hg.
  rewrite (rolesByName_Some _ _ Hbase), (rolesByName_Some _ _ Htarget).
  rewrite (rolesAdd_run _ _ rs _ Hroles), (nextFault_None _ _ Hfs).
  set (w1 := updateMember uid (fun rs => rs ∪ {[BASE_ROLE_NAME cfg]})
               (popFault (addTrace (RolesAdd uid (BASE_ROLE_NAME cfg)) w))).
  assert (Hfs1 : faults w1 =
            None :: match otherTierRoles cfg g roleName with
                    | [] => fs
                    | _ => None :: fs
                    end).
  { change (faults w1) with (tail (faults w)). now rewrite Hfs. }
  assert (Hm1 : memberRoles uid w1 = Some (rs ∪ {[BASE_ROLE_NAME cfg]})).
  { unfold w1. rewrite memberRoles_updateMember.
    change (memberRoles uid (popFault (addTrace ?e w))) with (memberRoles uid w).
    now rewrite Hroles. }
  rewrite (rolesAdd_run _ _ _ _ Hm1), (nextFault_None _ _ Hfs1).
  set (w2 := updateMember uid (fun rs => rs ∪ {[roleName]})
               (popFault (addTrace (RolesAdd uid roleName) w1))).
  assert (Hfs2 : faults w2 =
            match otherTierRoles cfg g roleName with
            | [] => fs
            | _ => None :: fs
            end).
  { change (faults w2) with (tail (faults w1)). now rewrite Hfs1. }
  assert (Hm2 : memberRoles uid w2
                = Some ((rs ∪ {[BASE_ROLE_NAME cfg]}) ∪ {[roleName]})).
  { unfold w2. rewrite memberRoles_updateMember.
    change (memberRoles uid (popFault (addTrace ?e w1)))
      with (memberRoles uid w1).
    now rewrite Hm1. }
  unfold grantedRoles.
  destruct (otherTierRoles cfg g roleName) as [|o rest].
  - exists w2. split; [reflexivity |].
    split; [reflexivity |]. split; [reflexivity |]. split; [reflexivity |].
    split; [exact Hfs2 |]. rewrite Hm2. simpl.
    now rewrite difference_empty_L.
  - rewrite (rolesRemove_run _ _ _ _ Hm2), (nextFault_None _ _ Hfs2).
    eexists. split; [reflexivity |].
    split; [reflexivity |]. split; [reflexivity |]. split; [reflexivity |].
    split; [change (tail (faults w2) = fs); now rewrite Hfs2 |].
    rewrite memberRoles_updateMember.
    change (memberRoles uid (popFault (addTrace ?e w2)))
      with (memberRoles uid w2).
    now rewrite Hm2.
Qed.

(** X25.  The grant and the binding are not atomic: when the platform
    accepts the role calls of a verification and the write of the store then
    fails, the verification ends in failure with the error of the write, the
    requester nevertheless holds the base role and the role of the tier, and
    the store has no record of it: its records are as before. *)
Theorem verify_write_failure_keeps_grant (cfg : Config)
    (gateway : string -> Result (list Shopify.LineItem)) (i : Interaction)
    (w : World) (g : Guild) (rs : gset string)
    (items : list Shopify.LineItem) (t : Tier) (err : string)
    (fs : list (option string)) :
  guild w = Some g ->
  BASE_ROLE_NAME cfg ∈ guildRoles g -> role t ∈ guildRoles g ->
  guildMembers g !! userId i = Some rs ->
  includes (normEmail (emailOption i)) "@" = true ->
  linkedToOther (storeOf w) (normEmail (emailOption i)) (userId i) = None ->
  gateway (normEmail (emailOption i)) = Ok items ->
  pickHighestTier cfg (map Shopify.title items) = Some t ->
  faults w =
    None :: None ::
    match otherTierRoles cfg g (role t) with
    | [] => Some err :: fs
    | _ => None :: Some err :: fs
    end ->
  exists w',
    verifyHandler cfg gateway i w = (Ok (VerificationFailed err), w') /\
    memberRoles (userId i) w' = Some (grantedRoles cfg g (role t) rs) /\
    BASE_ROLE_NAME cfg ∈ grantedRoles cfg g (role t) rs /\
    role t ∈ grantedRoles cfg g (role t) rs /\
    storeOf w' = storeOf w /\
    logged (trace w)
      (BotLog "verify_error" ERROR (normEmail (emailOption i)) (userId i) err)
      w'.
Proof.
  intros Hg Hbase Htarget Hm Hat Hlink Hgw Hp Hfs.
  rewrite verifyHandler_run, Hat, Hlink.
  unfold tryCatch, verifyTry. run_monad. rewrite Hgw, Hp.
  destruct (map Shopify.title items) as [|t0 ts] eqn:Ht.
  { unfold pickHighestTier in Hp. rewrite ?Ht in Hp.
    rewrite firstTier_nil in Hp. discriminate. }
  destruct (verifyStart_frame i w) as (Hl0 & Hg0 & Hc0 & Hf0 & Hs0).
  set (w1 := addTrace (BotLog "tier_matched" INFO (normEmail (emailOption i))
                         (userId i) (from_option role "" (Some t)))
               (addTrace (BotLog "shopify_line_items" INFO
                            (normEmail (emailOption i)) (userId i) "")
                  (verifyStart i w))).
  assert (Hext1 : extends (trace w) w1).
  { unfold w1. apply extends_addTrace, extends_addTrace.
    destruct (quiet_verifyStart i w) as (_ & _ & _ & _ & t1 & Ht1 & _).
    now exists t1. }
  destruct (setExclusiveTierRole_accepted cfg (userId i) (role t) g rs w1
              (Some err :: fs))
    as (w2 & E2 & Hl2 & Hfile2 & Hc2 & Hf2 & Hr2);
    [change (guild w1) with (guild (verifyStart i w)); congruence
    | exact Hbase | exact Htarget | exact Hm
    | change (faults w1) with (faults (verifyStart i w)); rewrite Hf0, Hfs;
      now destruct (otherTierRoles cfg g (role t)) |].
  assert (Hext2 : extends (trace w) w2).
  { assert (H : w2 = after (setExclusiveTierRole cfg (userId i) (role t)) w1)
      by (unfold after; now rewrite E2).
    rewrite H.
    apply (inv_setExclusiveTierRole (extends (trace w)));
      try (intros; assumption); try exact Hext1.
    intros e w0 H0. now apply extends_addTrace. }
  rewrite E2.
  unfold saveLoaded, saveEmailMap, ensureDirForFile, external. run_monad.
  match goal with
  | |- context [nextFault (addTrace _ (mkdirWorld ?x))] => set (w3 := x)
  end.
  match goal with
  | |- context [nextFault ?x] => assert (Hn : nextFault x = Some err)
  end.
  { unfold nextFault. simpl.
    destruct (mkdirWorld_frame w3) as (_ & _ & _ & -> & _).
    unfold w3. simpl. now rewrite Hf2. }
  rewrite Hn. unfold verifyCatch. run_monad.
  destruct (mkdirWorld_frame w3) as (_ & Hk2 & _ & _ & Hk5).
  eexists. split; [reflexivity |]. cbn [snd].
  split.
  { unfold memberRoles in *. simpl. rewrite Hk2. exact Hr2. }
  unfold grantedRoles.
  split.
  { apply elem_of_difference. split; [role_sets |].
    rewrite elem_of_list_to_set, elem_of_otherTierRoles. tauto. }
  split.
  { apply elem_of_difference. split; [role_sets |].
    rewrite elem_of_list_to_set, elem_of_otherTierRoles. tauto. }
  split.
  { simpl. rewrite !storeOf_addTrace.
    change (storeOf (popFault (addTrace ?e (mkdirWorld w3))))
      with (storeOf (mkdirWorld w3)).
    rewrite storeOf_mkdirWorld. unfold storeOf, w3. simpl.
    rewrite Hfile2. change (file w1) with (file (verifyStart i w)).
    fold (storeOf (verifyStart i w)). exact Hs0. }
  apply extends_logged. apply extends_addTrace.
  destruct Hext2 as [t2 Ht2]. eexists. simpl. rewrite Hk5. unfold w3. simpl.
  rewrite Ht2, <- app_assoc. reflexivity.
Qed.

End Properties.

Lemma audit_never_acts_without_payment_date_witness :
  (storeOf Sample.undatedWorld !! "ana@example.com" = Some Sample.undated /\
   isSubscription Sample.undated = true /\
   noPaymentDate (date := isoDate) Sample.undated) /\
  exists w',
    runSubscriptionAudit (date := isoDate) sourceConfig Sample.undatedWorld
      = (Ok tt, w') /\
    holds "ana@example.com" Sample.undated w'.
Proof.
  assert (H : storeOf Sample.undatedWorld !! "ana@example.com"
              = Some Sample.undated /\
              isSubscription Sample.undated = true /\
              noPaymentDate (date := isoDate) Sample.undated).
  { repeat (apply conj); vm_compute; reflexivity. }
  split; [exact H |].
  destruct H as (H1 & H2 & H3).
  destruct (audit_never_acts_without_payment_date (date := isoDate)
              sourceConfig _ _ _ H1 H2 H3) as (_ & w' & Hrun & Hholds & _).
  exists w'. split; [exact Hrun | exact Hholds].
Defined.

(** C1 as stated fails on a record without bound user: the sweep skips it
    without any warning. *)
Lemma audit_skips_unbound_record_silently :
  storeOf Sample.unboundWorld !! "ghost@example.com" = Some Sample.unbound /\
  isSubscription Sample.unbound = true /\
  lastPaidAt Sample.unbound = None /\
  trace (after (runSubscriptionAudit (date := isoDate) sourceConfig)
           Sample.unboundWorld)
  = [auditStart; auditEnd] /\
  ~ exists event level uid detail,
      In (BotLog event level "ghost@example.com" uid detail)
        (trace (after (runSubscriptionAudit (date := isoDate) sourceConfig)
                  Sample.unboundWorld)).
Proof.
  assert (Ht : trace (after (runSubscriptionAudit (date := isoDate)
                               sourceConfig) Sample.unboundWorld)
               = [auditStart; auditEnd]) by (vm_compute; reflexivity).
  repeat (apply conj); try (vm_compute; reflexivity).
  rewrite Ht. intros (event & level & uid & detail & [H | [H | []]]);
    discriminate H.
Qed.


(** C7 as stated fails when the member has left the guild: the dry run logs
    [audit_member_not_found], not the overdue detection. *)
Lemma audit_dry_run_departed_member :
  AUDIT_DRY_RUN Sample.dryRunConfig = true /\
  storeOf Sample.departedWorld !! "bo@example.com" = Some Sample.lapsed /\
  isSubscription Sample.lapsed = true /\
  daysBetween (clock Sample.departedWorld) 1711929600000 = 61 /\
  trace (after (runSubscriptionAudit (date := isoDate) Sample.dryRunConfig)
           Sample.departedWorld)
  = [ auditStart;
      BotLog "audit_member_not_found" WARN "bo@example.com" "1002" "61";
      auditEnd ] /\
  ~ In (overdueDetected "bo@example.com" Sample.lapsed 61)
      (trace (after (runSubscriptionAudit (date := isoDate)
                       Sample.dryRunConfig) Sample.departedWorld)).
Proof.
  assert (Ht : trace (after (runSubscriptionAudit (date := isoDate)
                               Sample.dryRunConfig) Sample.departedWorld)
               = [ auditStart;
                   BotLog "audit_member_not_found" WARN "bo@example.com"
                     "1002" "61";
                   auditEnd ]) by (vm_compute; reflexivity).
  repeat (apply conj); try (vm_compute; reflexivity).
  rewrite Ht. intros [H | [H | [H | []]]]; discriminate H.
Qed.

Lemma audit_dry_run_mutates_nothing_witness :
  AUDIT_DRY_RUN Sample.dryRunConfig = true /\
  exists w',
    runSubscriptionAudit (date := isoDate) Sample.dryRunConfig
      Sample.lapsedWorld = (Ok tt, w') /\
    guild w' = guild Sample.lapsedWorld /\
    file w' = file Sample.lapsedWorld /\
    logged [] (overdueDetected "bo@example.com" Sample.lapsed 61) w'.
Proof.
  split; [reflexivity |].
  destruct (audit_dry_run_mutates_nothing (date := isoDate)
              Sample.dryRunConfig Sample.lapsedWorld eq_refl)
    as (w' & Hrun & Hg & Hf & _ & _ & _ & Hlog).
  exists w'. split; [exact Hrun |]. split; [exact Hg |]. split; [exact Hf |].
  apply (Hlog "bo@example.com" Sample.lapsed "2024-04-01T00:00:00.000Z"
           1711929600000); try reflexivity.
  - vm_compute. discriminate.
  - constructor.
  - eexists. split; [reflexivity |].
    exists {[ "Members"; "VIP" ]}. vm_compute. reflexivity.
Defined.

Lemma setExclusiveTierRole_exclusive_witness :
  (setExclusiveTierRole sourceConfig "1001" "VIP" Sample.grantWorld
     = (Ok tt,
        after (setExclusiveTierRole sourceConfig "1001" "VIP")
          Sample.grantWorld) /\
   guild Sample.grantWorld = Some Sample.server /\
   guildMembers Sample.server !! "1001" = Some Sample.anaRoles /\
   Sample.anaRoles ⊆ guildRoles Sample.server) /\
  exists rs',
    memberRoles "1001"
      (after (setExclusiveTierRole sourceConfig "1001" "VIP")
         Sample.grantWorld) = Some rs' /\
    ("Members" ∈ rs') /\ ("VIP" ∈ rs') /\ ("Elite Member" ∉ rs') /\
    ("Moderator" ∈ rs').
Proof.
  assert (H : setExclusiveTierRole sourceConfig "1001" "VIP" Sample.grantWorld
     = (Ok tt,
        after (setExclusiveTierRole sourceConfig "1001" "VIP")
          Sample.grantWorld) /\
   guild Sample.grantWorld = Some Sample.server /\
   guildMembers Sample.server !! "1001" = Some Sample.anaRoles /\
   Sample.anaRoles ⊆ guildRoles Sample.server).
  { split; [vm_compute; reflexivity |]. split; [reflexivity |].
    split; [vm_compute; reflexivity |].
    apply (bool_decide_unpack _). vm_compute. exact I. }
  split; [exact H |].
  destruct H as (H1 & H2 & H3 & H4).
  destruct (setExclusiveTierRole_exclusive sourceConfig "1001" "VIP"
              _ _ _ _ H1 H2 H3 H4)
    as (rs' & Hr & Hb & Ht & Hex & Hout & _).
  exists rs'. split; [exact Hr |].
  split; [exact Hb |]. split; [exact Ht |]. split.
  - intros Hin. destruct (Hex "Elite Member") as [E | E];
      [ | exact Hin | discriminate E | discriminate E ].
    apply (bool_decide_unpack _). vm_compute. exact I.
  - apply Hout; [ | discriminate | discriminate | ].
    + apply (bool_decide_unpack _). vm_compute. exact I.
    + apply (bool_decide_unpack _). vm_compute. exact I.
Defined.

(** C6 as stated fails when another purchase is more recent than the one of
    the granted tier: the date stored is the one of the sticker pack. *)
Lemma verify_stores_date_of_unrelated_purchase :
  verifyHandler (date := isoDate) sourceConfig
    (fun _ => Ok Sample.datedItems) Sample.bo Sample.grantWorld
  = (Ok (Verified "VIP"), Sample.datedVerified) /\
  pickHighestTier sourceConfig (map Shopify.title Sample.datedItems)
  = Some Sample.vipTier /\
  lastPaidAt <$> (storeOf Sample.datedVerified !! "bo@example.com")
  = Some (Some "2024-06-01T00:00:00.000Z") /\
  newestPaidIsoOfTier (date := isoDate) Sample.datedItems Sample.vipTier
  = Some "2024-01-01T00:00:00.000Z" /\
  lastPaidAt <$> (storeOf Sample.datedVerified !! "bo@example.com")
  <> Some (newestPaidIsoOfTier (date := isoDate) Sample.datedItems
             Sample.vipTier).
Proof.
  repeat (apply conj); try (vm_compute; reflexivity).
  vm_compute. discriminate.
Qed.

Lemma verify_lastPaidAt_newest_of_all_witness :
  verifyHandler (date := isoDate) sourceConfig
    (fun _ => Ok Sample.datedItems) Sample.bo Sample.grantWorld
  = (Ok (Verified "VIP"), Sample.datedVerified) /\
  exists rec,
    holds "bo@example.com" rec Sample.datedVerified /\
    lastPaidAt rec = Some "2024-06-01T00:00:00.000Z".
Proof.
  assert (H : verifyHandler (date := isoDate) sourceConfig
      (fun _ => Ok Sample.datedItems) Sample.bo Sample.grantWorld
    = (Ok (Verified "VIP"), Sample.datedVerified))
    by (vm_compute; reflexivity).
  split; [exact H |].
  destruct (verify_lastPaidAt_newest_of_all (date := isoDate) _ _ _ _ _ _ H)
    as (items & rec & Hg & Hh & Hl & _).
  exists rec. split; [exact Hh |].
  rewrite Hl. injection Hg as <-. vm_compute. reflexivity.
Defined.

Lemma shopify_reports_no_payment_date_witness :
  verify (date := isoDate) sourceConfig Sample.shop Sample.bo
    Sample.grantWorld = (Ok (Verified "VIP"), Sample.shopVerified) /\
  exists rec,
    holds "bo@example.com" rec Sample.shopVerified /\ lastPaidAt rec = None.
Proof.
  assert (H : verify (date := isoDate) sourceConfig Sample.shop Sample.bo
      Sample.grantWorld = (Ok (Verified "VIP"), Sample.shopVerified))
    by (vm_compute; reflexivity).
  split; [exact H |].
  destruct (shopify_reports_no_payment_date (date := isoDate) _ _ _ _ _ _ H)
    as (_ & rec & Hh & Hl & _).
  exists rec. split; [exact Hh | exact Hl].
Defined.



Lemma verify_conflict_witness :
  (storeOf Sample.lapsedWorld !! normEmail (emailOption Sample.intruder)
     = Some Sample.lapsed /\
   discordUserId Sample.lapsed <> userId Sample.intruder /\
   includes (normEmail (emailOption Sample.intruder)) "@" = true) /\
  exists w',
    verify (date := isoDate) sourceConfig Sample.shop Sample.intruder
      Sample.lapsedWorld = (Ok AlreadyLinkedConflict, w') /\
    file w' = file Sample.lapsedWorld /\
    guild w' = guild Sample.lapsedWorld.
Proof.
  assert (H : storeOf Sample.lapsedWorld
                !! normEmail (emailOption Sample.intruder)
              = Some Sample.lapsed /\
              discordUserId Sample.lapsed <> userId Sample.intruder /\
              includes (normEmail (emailOption Sample.intruder)) "@" = true).
  { split; [vm_compute; reflexivity |].
    split; [discriminate | vm_compute; reflexivity]. }
  split; [exact H |].
  destruct H as (H1 & H2 & H3).
  destruct (verify_conflict (date := isoDate) sourceConfig
              (Shopify.getPaidLineItemsByEmail Sample.shop)
              Sample.intruder Sample.lapsedWorld Sample.lapsed H1 H2 H3)
    as (w' & Hrun & Hf & Hg & _).
  exists w'. split; [exact Hrun |]. split; [exact Hf | exact Hg].
Defined.

(** The examples of the specification for the tier resolver. *)
Example pickHighestTier_elite_over_vip :
  pickHighestTier sourceConfig
    ["Elite Trader Mentorship Bundle"; "VIP Access Pass"]
  = Some {| product := "ELITE TRADER MENTORSHIP"; role := "Elite Member" |}.
Proof. vm_compute. reflexivity. Qed.

Example pickHighestTier_no_match :
  pickHighestTier sourceConfig ["Random Sticker Pack"] = None.
Proof. vm_compute. reflexivity. Qed.

Example pickHighestTier_no_title :
  pickHighestTier sourceConfig [] = None.
Proof. reflexivity. Qed.

(** A sweep over two lapsed records when the platform rejects the first role
    call: the error of the first iteration is logged and the second record is
    downgraded all the same. *)
Example audit_survives_rejected_call :
  runSubscriptionAudit (date := isoDate) sourceConfig Sample.faultyWorld
  = (Ok tt,
     after (runSubscriptionAudit (date := isoDate) sourceConfig)
       Sample.faultyWorld) /\
  omap botLogOf
    (trace (after (runSubscriptionAudit (date := isoDate) sourceConfig)
              Sample.faultyWorld))
  = [ ("audit_start", "");
      ("audit_overdue_detected", "bo@work.example");
      ("audit_error", "bo@work.example");
      ("audit_overdue_detected", "bo@example.com");
      ("audit_downgrade_success", "bo@example.com");
      ("audit_end", "") ] /\
  tier <$> (storeOf (after (runSubscriptionAudit (date := isoDate) sourceConfig)
                       Sample.faultyWorld) !! "bo@work.example")
  = Some "VIP" /\
  tier <$> (storeOf (after (runSubscriptionAudit (date := isoDate) sourceConfig)
                       Sample.faultyWorld) !! "bo@example.com")
  = Some "Members".
Proof. repeat (apply conj); vm_compute; reflexivity. Qed.

(** ** The extra properties on the sample data *)

Lemma pickHighestTier_same_titles_witness :
  (forall x,
     In x (map normalize ["VIP Access Pass"; "Random Sticker Pack"]) <->
     In x (map normalize
             [" random sticker pack "; "VIP ACCESS PASS"; "vip access pass"]))
  /\
  pickHighestTier sourceConfig ["VIP Access Pass"; "Random Sticker Pack"]
  = pickHighestTier sourceConfig
      [" random sticker pack "; "VIP ACCESS PASS"; "vip access pass"].
Proof.
  assert (H : forall x,
     In x (map normalize ["VIP Access Pass"; "Random Sticker Pack"]) <->
     In x (map normalize
             [" random sticker pack "; "VIP ACCESS PASS"; "vip access pass"])).
  { intros x. vm_compute. tauto. }
  split; [exact H |].
  exact (pickHighestTier_same_titles sourceConfig _ _ H).
Defined.

Lemma pickHighestTier_more_titles_witness :
  ((forall x, In x ["VIP Access Pass"] ->
      In x ["VIP Access Pass"; "Elite Trader Mentorship Bundle"]) /\
   pickHighestTier sourceConfig ["VIP Access Pass"] = Some Sample.vipTier) /\
  exists t' (j k : nat),
    pickHighestTier sourceConfig
      ["VIP Access Pass"; "Elite Trader Mentorship Bundle"] = Some t' /\
    (j <= k)%nat /\
    TIERS sourceConfig !! j = Some t' /\
    TIERS sourceConfig !! k = Some Sample.vipTier.
Proof.
  assert (H : (forall x, In x ["VIP Access Pass"] ->
      In x ["VIP Access Pass"; "Elite Trader Mentorship Bundle"]) /\
   pickHighestTier sourceConfig ["VIP Access Pass"] = Some Sample.vipTier).
  { split; [intros x [<- | []]; now left | vm_compute; reflexivity]. }
  split; [exact H |].
  destruct H as (H1 & H2).
  exact (pickHighestTier_more_titles sourceConfig _ _ _ H1 H2).
Defined.


Lemma setExclusiveTierRole_any_outcome_witness :
  (guild Sample.rejectingWorld = Some Sample.server /\
   guildMembers Sample.server !! "1001" = Some Sample.anaRoles) /\
  exists rs' t,
    memberRoles "1001"
      (after (setExclusiveTierRole sourceConfig "1001" "VIP")
         Sample.rejectingWorld) = Some rs' /\
    trace (after (setExclusiveTierRole sourceConfig "1001" "VIP")
             Sample.rejectingWorld) = t /\
    ("Moderator" ∈ rs') /\
    (forall l, In (RolesRemove "1001" l) t -> "VIP" ∈ rs').
Proof.
  assert (H : guild Sample.rejectingWorld = Some Sample.server /\
              guildMembers Sample.server !! "1001" = Some Sample.anaRoles).
  { split; [reflexivity | vm_compute; reflexivity]. }
  split; [exact H |].
  destruct H as (H1 & H2).
  destruct (setExclusiveTierRole_any_outcome sourceConfig "1001" "VIP"
              Sample.rejectingWorld Sample.server Sample.anaRoles H1 H2)
    as (rs' & t & Hr & Ht & _ & Hkeep & Hrem & _).
  exists rs', t. split; [exact Hr |]. split; [exact Ht |]. split.
  - apply Hkeep.
    + apply (bool_decide_unpack _). vm_compute. exact I.
    + apply (bool_decide_unpack _). vm_compute. exact I.
  - intros l Hin. now apply (Hrem l).
Defined.

Lemma downgradeToMembers_postcondition_witness :
  (downgradeToMembers sourceConfig "1002" Sample.grantWorld
     = (Ok tt, after (downgradeToMembers sourceConfig "1002") Sample.grantWorld)
   /\ guild Sample.grantWorld = Some Sample.server
   /\ guildMembers Sample.server !! "1002" = Some {[ "Members"; "VIP" ]}
   /\ ({[ "Members"; "VIP" ]} : gset string) ⊆ guildRoles Sample.server) /\
  exists rs',
    memberRoles "1002"
      (after (downgradeToMembers sourceConfig "1002") Sample.grantWorld)
    = Some rs' /\
    ("Members" ∈ rs') /\ ("VIP" ∉ rs').
Proof.
  assert (H : downgradeToMembers sourceConfig "1002" Sample.grantWorld
     = (Ok tt, after (downgradeToMembers sourceConfig "1002") Sample.grantWorld)
   /\ guild Sample.grantWorld = Some Sample.server
   /\ guildMembers Sample.server !! "1002" = Some {[ "Members"; "VIP" ]}
   /\ ({[ "Members"; "VIP" ]} : gset string) ⊆ guildRoles Sample.server).
  { split; [vm_compute; reflexivity |]. split; [reflexivity |].
    split; [vm_compute; reflexivity |].
    apply (bool_decide_unpack _). vm_compute. exact I. }
  split; [exact H |].
  destruct H as (H1 & H2 & H3 & H4).
  destruct (downgradeToMembers_postcondition sourceConfig "1002" _ _ _ _
              H1 H2 H3 H4) as (rs' & Hr & Hb & Hex & _).
  exists rs'. split; [exact Hr |]. split; [exact Hb |].
  intros Hin. assert (E : "VIP" = BASE_ROLE_NAME sourceConfig);
    [| discriminate E].
  apply Hex; [| exact Hin].
  apply (bool_decide_unpack _). vm_compute. exact I.
Defined.

Lemma verify_quiet_without_matching_purchase_witness :
  (includes (normEmail (emailOption Sample.bo)) "@" = true ->
   linkedToOther (storeOf Sample.grantWorld)
     (normEmail (emailOption Sample.bo)) (userId Sample.bo) = None ->
   forall items,
     (fun _ : string => Ok Sample.stickerItems)
       (normEmail (emailOption Sample.bo)) = Ok items ->
     pickHighestTier sourceConfig (map Shopify.title items) = None) /\
  exists o w',
    verifyHandler (date := isoDate) sourceConfig
      (fun _ => Ok Sample.stickerItems) Sample.bo Sample.grantWorld
    = (Ok o, w') /\
    quiet Sample.grantWorld w' /\ forall r, o <> Verified r.
Proof.
  assert (H : includes (normEmail (emailOption Sample.bo)) "@" = true ->
   linkedToOther (storeOf Sample.grantWorld)
     (normEmail (emailOption Sample.bo)) (userId Sample.bo) = None ->
   forall items,
     (fun _ : string => Ok Sample.stickerItems)
       (normEmail (emailOption Sample.bo)) = Ok items ->
     pickHighestTier sourceConfig (map Shopify.title items) = None).
  { intros _ _ items [= <-]. vm_compute. reflexivity. }
  split; [exact H |].
  destruct (verify_quiet_without_matching_purchase (date := isoDate)
              sourceConfig (fun _ => Ok Sample.stickerItems) Sample.bo
              Sample.grantWorld H) as (o & w' & Hrun & Hq & Hno & _).
  exists o, w'. split; [exact Hrun |]. split; [exact Hq | exact Hno].
Defined.

Lemma verify_fails_on_missing_role_witness :
  (includes (normEmail (emailOption Sample.bo)) "@" = true /\
   linkedToOther (storeOf Sample.bareWorld)
     (normEmail (emailOption Sample.bo)) (userId Sample.bo) = None /\
   (fun _ : string => Ok Sample.datedItems)
     (normEmail (emailOption Sample.bo)) = Ok Sample.datedItems /\
   pickHighestTier sourceConfig (map Shopify.title Sample.datedItems)
   = Some Sample.vipTier /\
   guild Sample.bareWorld = Some Sample.bareServer /\
   (BASE_ROLE_NAME sourceConfig ∉ guildRoles Sample.bareServer \/
    role Sample.vipTier ∉ guildRoles Sample.bareServer)) /\
  exists w',
    verifyHandler (date := isoDate) sourceConfig
      (fun _ => Ok Sample.datedItems) Sample.bo Sample.bareWorld
    = (Ok (VerificationFailed "Target role not found: VIP"), w') /\
    quiet Sample.bareWorld w'.
Proof.
  assert (H : includes (normEmail (emailOption Sample.bo)) "@" = true /\
   linkedToOther (storeOf Sample.bareWorld)
     (normEmail (emailOption Sample.bo)) (userId Sample.bo) = None /\
   (fun _ : string => Ok Sample.datedItems)
     (normEmail (emailOption Sample.bo)) = Ok Sample.datedItems /\
   pickHighestTier sourceConfig (map Shopify.title Sample.datedItems)
   = Some Sample.vipTier /\
   guild Sample.bareWorld = Some Sample.bareServer /\
   (BASE_ROLE_NAME sourceConfig ∉ guildRoles Sample.bareServer \/
    role Sample.vipTier ∉ guildRoles Sample.bareServer)).
  { split; [vm_compute; reflexivity |]. split; [vm_compute; reflexivity |].
    split; [reflexivity |]. split; [vm_compute; reflexivity |].
    split; [reflexivity |]. right.
    apply (bool_decide_unpack _). vm_compute. exact I. }
  split; [exact H |].
  destruct H as (H1 & H2 & H3 & H4 & H5 & H6).
  destruct (verify_fails_on_missing_role (date := isoDate) sourceConfig
              (fun _ => Ok Sample.datedItems) Sample.bo Sample.bareWorld
              Sample.bareServer Sample.datedItems Sample.vipTier
              H1 H2 H3 H4 H5 H6) as (w' & Hrun & Hq).
  assert (E : (if decide (BASE_ROLE_NAME sourceConfig
                          ∈ guildRoles Sample.bareServer)
               then "Target role not found: " +:+ role Sample.vipTier
               else "Base role not found: " +:+ BASE_ROLE_NAME sourceConfig)
              = "Target role not found: VIP") by (vm_compute; reflexivity).
  rewrite E in Hrun.
  exists w'. split; [exact Hrun | exact Hq].
Defined.

Lemma verify_succeeds_witness :
  (faultFree Sample.grantWorld /\
   guild Sample.grantWorld = Some Sample.server /\
   BASE_ROLE_NAME sourceConfig ∈ guildRoles Sample.server /\
   role Sample.vipTier ∈ guildRoles Sample.server /\
   guildMembers Sample.server !! userId Sample.ana = Some Sample.anaRoles /\
   includes (normEmail (emailOption Sample.ana)) "@" = true /\
   linkedToOther (storeOf Sample.grantWorld)
     (normEmail (emailOption Sample.ana)) (userId Sample.ana) = None /\
   (fun _ : string => Ok Sample.datedItems)
     (normEmail (emailOption Sample.ana)) = Ok Sample.datedItems /\
   pickHighestTier sourceConfig (map Shopify.title Sample.datedItems)
   = Some Sample.vipTier) /\
  exists w' rec rs',
    verifyHandler (date := isoDate) sourceConfig
      (fun _ => Ok Sample.datedItems) Sample.ana Sample.grantWorld
    = (Ok (Verified "VIP"), w') /\
    holds "ana@example.com" rec w' /\
    memberRoles "1001" w' = Some rs' /\
    ("Members" ∈ rs') /\ ("VIP" ∈ rs') /\ ("Elite Member" ∉ rs').
Proof.
  assert (H : faultFree Sample.grantWorld /\
   guild Sample.grantWorld = Some Sample.server /\
   BASE_ROLE_NAME sourceConfig ∈ guildRoles Sample.server /\
   role Sample.vipTier ∈ guildRoles Sample.server /\
   guildMembers Sample.server !! userId Sample.ana = Some Sample.anaRoles /\
   includes (normEmail (emailOption Sample.ana)) "@" = true /\
   linkedToOther (storeOf Sample.grantWorld)
     (normEmail (emailOption Sample.ana)) (userId Sample.ana) = None /\
   (fun _ : string => Ok Sample.datedItems)
     (normEmail (emailOption Sample.ana)) = Ok Sample.datedItems /\
   pickHighestTier sourceConfig (map Shopify.title Sample.datedItems)
   = Some Sample.vipTier).
  { split; [constructor |]. split; [reflexivity |].
    split; [apply (bool_decide_unpack _); vm_compute; exact I |].
    split; [apply (bool_decide_unpack _); vm_compute; exact I |].
    split; [vm_compute; reflexivity |]. split; [vm_compute; reflexivity |].
    split; [vm_compute; reflexivity |]. split; [reflexivity |].
    vm_compute. reflexivity. }
  split; [exact H |].
  destruct H as (H1 & H2 & H3 & H4 & H5 & H6 & H7 & H8 & H9).
  destruct (verify_succeeds (date := isoDate) sourceConfig
              (fun _ => Ok Sample.datedItems) Sample.ana Sample.grantWorld
              Sample.server Sample.anaRoles Sample.datedItems Sample.vipTier
              H1 H2 H3 H4 H5 H6 H7 H8 H9)
    as (w' & Hrun & Hh & _ & Hr & Hb & Ht & Hex & _).
  exists w', (verifiedRecord (date := isoDate) Sample.ana Sample.vipTier
                Sample.datedItems (clock Sample.grantWorld)),
    (grantedRoles sourceConfig Sample.server (role Sample.vipTier)
       Sample.anaRoles).
  split; [exact Hrun |]. split; [exact Hh |]. split; [exact Hr |].
  split; [exact Hb |]. split; [exact Ht |].
  apply Hex. apply (bool_decide_unpack _). vm_compute. exact I.
Defined.

Lemma verify_again_is_stable_witness :
  (faultFree Sample.grantWorld /\
   guild Sample.grantWorld = Some Sample.server /\
   BASE_ROLE_NAME sourceConfig ∈ guildRoles Sample.server /\
   role Sample.vipTier ∈ guildRoles Sample.server /\
   guildMembers Sample.server !! userId Sample.bo
   = Some {[ "Members"; "VIP" ]} /\
   includes (normEmail (emailOption Sample.bo)) "@" = true /\
   linkedToOther (storeOf Sample.grantWorld)
     (normEmail (emailOption Sample.bo)) (userId Sample.bo) = None /\
   (fun _ : string => Ok Sample.datedItems)
     (normEmail (emailOption Sample.bo)) = Ok Sample.datedItems /\
   pickHighestTier sourceConfig (map Shopify.title Sample.datedItems)
   = Some Sample.vipTier /\
   faultFree Sample.datedVerified) /\
  exists w3,
    verifyHandler (date := isoDate) sourceConfig
      (fun _ => Ok Sample.datedItems) Sample.bo Sample.datedVerified
    = (Ok (Verified "VIP"), w3) /\
    forall uid, memberRoles uid w3 = memberRoles uid Sample.datedVerified.
Proof.
  assert (H : faultFree Sample.grantWorld /\
   guild Sample.grantWorld = Some Sample.server /\
   BASE_ROLE_NAME sourceConfig ∈ guildRoles Sample.server /\
   role Sample.vipTier ∈ guildRoles Sample.server /\
   guildMembers Sample.server !! userId Sample.bo
   = Some {[ "Members"; "VIP" ]} /\
   includes (normEmail (emailOption Sample.bo)) "@" = true /\
   linkedToOther (storeOf Sample.grantWorld)
     (normEmail (emailOption Sample.bo)) (userId Sample.bo) = None /\
   (fun _ : string => Ok Sample.datedItems)
     (normEmail (emailOption Sample.bo)) = Ok Sample.datedItems /\
   pickHighestTier sourceConfig (map Shopify.title Sample.datedItems)
   = Some Sample.vipTier /\
   faultFree Sample.datedVerified).
  { split; [constructor |]. split; [reflexivity |].
    split; [apply (bool_decide_unpack _); vm_compute; exact I |].
    split; [apply (bool_decide_unpack _); vm_compute; exact I |].
    split; [vm_compute; reflexivity |]. split; [vm_compute; reflexivity |].
    split; [vm_compute; reflexivity |]. split; [reflexivity |].
    split; [vm_compute; reflexivity |].
    unfold faultFree.
    assert (E : faults Sample.datedVerified = []) by (vm_compute; reflexivity).
    rewrite E. constructor. }
  split; [exact H |].
  destruct H as (H1 & H2 & H3 & H4 & H5 & H6 & H7 & H8 & H9 & H10).
  destruct (verify_again_is_stable (date := isoDate) sourceConfig
              (fun _ => Ok Sample.datedItems) Sample.bo Sample.grantWorld
              Sample.server _ Sample.datedItems Sample.vipTier
              H1 H2 H3 H4 H5 H6 H7 H8 H9 Sample.datedVerified H10
              eq_refl eq_refl)
    as (w3 & Hrun & Hroles & _).
  exists w3. split; [exact Hrun | exact Hroles].
Defined.

Lemma verified_binding_is_persistent_witness :
  (verifyHandler (date := isoDate) sourceConfig
     (fun _ => Ok Sample.datedItems) Sample.bo Sample.grantWorld
   = (Ok (Verified "VIP"), Sample.datedVerified) /\
   normEmail (emailOption Sample.intruder) = normEmail (emailOption Sample.bo)
   /\ userId Sample.intruder <> userId Sample.bo) /\
  exists rec w3,
    storeOf Sample.datedVerified !! "bo@example.com" = Some rec /\
    discordUserId rec = "1002" /\
    verify (date := isoDate) sourceConfig Sample.shop Sample.intruder
      Sample.datedVerified = (Ok AlreadyLinkedConflict, w3).
Proof.
  assert (H : verifyHandler (date := isoDate) sourceConfig
     (fun _ => Ok Sample.datedItems) Sample.bo Sample.grantWorld
   = (Ok (Verified "VIP"), Sample.datedVerified) /\
   normEmail (emailOption Sample.intruder) = normEmail (emailOption Sample.bo)
   /\ userId Sample.intruder <> userId Sample.bo).
  { split; [vm_compute; reflexivity |].
    split; [vm_compute; reflexivity | discriminate]. }
  split; [exact H |].
  destruct H as (H1 & H2 & H3).
  destruct (verified_binding_is_persistent (date := isoDate) _ _ _ _ _ _ H1)
    as (rec & Hrec & Hid & _ & Hlater).
  destruct (Hlater Sample.intruder Sample.datedVerified eq_refl H2)
    as (_ & Hconflict).
  destruct (Hconflict H3 sourceConfig
              (Shopify.getPaidLineItemsByEmail Sample.shop))
    as (w3 & Hrun & _).
  exists rec, w3. split; [exact Hrec |]. split; [exact Hid | exact Hrun].
Defined.

Lemma audit_ignores_non_subscriptions_witness :
  (storeOf Sample.oneTimeWorld !! "bo@example.com" = Some Sample.oneTime /\
   isSubscription Sample.oneTime = false) /\
  holds "bo@example.com" Sample.oneTime
    (after (runSubscriptionAudit (date := isoDate) sourceConfig)
       Sample.oneTimeWorld).
Proof.
  assert (H : storeOf Sample.oneTimeWorld !! "bo@example.com"
              = Some Sample.oneTime /\
              isSubscription Sample.oneTime = false).
  { split; [vm_compute; reflexivity | reflexivity]. }
  split; [exact H |].
  destruct H as (H1 & H2).
  exact (proj2 (audit_ignores_non_subscriptions (date := isoDate)
                  sourceConfig _ _ _ H1 H2)).
Defined.

Lemma audit_downgrades_again_witness :
  (isSubscription Sample.lapsed = true /\
   truthy (discordUserId Sample.lapsed) = true /\
   presentLastPaidAt Sample.lapsed = Some "2024-04-01T00:00:00.000Z" /\
   dateParse (JsDate := isoDate) "2024-04-01T00:00:00.000Z"
   = Some 1711929600000 /\
   storeOf Sample.downgradedWorld !! "bo@example.com"
   = Some (downgradedRecord (date := isoDate) sourceConfig Sample.lapsed 61
             1717243200000) /\
   AUDIT_GRACE_DAYS sourceConfig * msPerDay
   <= clock Sample.downgradedWorld - 1711929600000 /\
   AUDIT_DRY_RUN sourceConfig = false /\
   ready sourceConfig (discordUserId Sample.lapsed) Sample.downgradedWorld) /\
  logged [] (RolesAdd "1002" "Members")
    (after (runSubscriptionAudit (date := isoDate) sourceConfig)
       Sample.downgradedWorld).
Proof.
  assert (H : isSubscription Sample.lapsed = true /\
   truthy (discordUserId Sample.lapsed) = true /\
   presentLastPaidAt Sample.lapsed = Some "2024-04-01T00:00:00.000Z" /\
   dateParse (JsDate := isoDate) "2024-04-01T00:00:00.000Z"
   = Some 1711929600000 /\
   storeOf Sample.downgradedWorld !! "bo@example.com"
   = Some (downgradedRecord (date := isoDate) sourceConfig Sample.lapsed 61
             1717243200000) /\
   AUDIT_GRACE_DAYS sourceConfig * msPerDay
   <= clock Sample.downgradedWorld - 1711929600000 /\
   AUDIT_DRY_RUN sourceConfig = false /\
   ready sourceConfig (discordUserId Sample.lapsed) Sample.downgradedWorld).
  { split; [reflexivity |]. split; [reflexivity |]. split; [reflexivity |].
    split; [vm_compute; reflexivity |]. split; [vm_compute; reflexivity |].
    split; [vm_compute; discriminate |]. split; [reflexivity |].
    split; [constructor |].
    exists Sample.server. split; [reflexivity |]. split.
    - apply (bool_decide_unpack _). vm_compute. exact I.
    - exists {[ "Members"; "VIP" ]}. vm_compute. reflexivity. }
  split; [exact H |].
  destruct H as (H1 & H2 & H3 & H4 & H5 & H6 & H7 & H8).
  exact (proj1 (proj2 (audit_downgrades_again (date := isoDate) sourceConfig
                         Sample.downgradedWorld "bo@example.com" Sample.lapsed
                         _ _ 61 1717243200000 H1 H2 H3 H4 H5 H6 H7 H8))).
Defined.

Lemma audit_warns_when_member_is_gone_witness :
  (storeOf Sample.departedWorld !! "bo@example.com" = Some Sample.lapsed /\
   isSubscription Sample.lapsed = true /\
   truthy (discordUserId Sample.lapsed) = true /\
   presentLastPaidAt Sample.lapsed = Some "2024-04-01T00:00:00.000Z" /\
   dateParse (JsDate := isoDate) "2024-04-01T00:00:00.000Z"
   = Some 1711929600000 /\
   AUDIT_GRACE_DAYS sourceConfig * msPerDay
   <= clock Sample.departedWorld - 1711929600000 /\
   guild Sample.departedWorld = Some Sample.departedServer /\
   guildMembers Sample.departedServer !! discordUserId Sample.lapsed = None) /\
  holds "bo@example.com" Sample.lapsed
    (after (runSubscriptionAudit (date := isoDate) sourceConfig)
       Sample.departedWorld).
Proof.
  assert (H : storeOf Sample.departedWorld !! "bo@example.com"
              = Some Sample.lapsed /\
   isSubscription Sample.lapsed = true /\
   truthy (discordUserId Sample.lapsed) = true /\
   presentLastPaidAt Sample.lapsed = Some "2024-04-01T00:00:00.000Z" /\
   dateParse (JsDate := isoDate) "2024-04-01T00:00:00.000Z"
   = Some 1711929600000 /\
   AUDIT_GRACE_DAYS sourceConfig * msPerDay
   <= clock Sample.departedWorld - 1711929600000 /\
   guild Sample.departedWorld = Some Sample.departedServer /\
   guildMembers Sample.departedServer !! discordUserId Sample.lapsed = None).
  { split; [vm_compute; reflexivity |]. split; [reflexivity |].
    split; [reflexivity |]. split; [reflexivity |].
    split; [vm_compute; reflexivity |]. split; [vm_compute; discriminate |].
    split; [reflexivity | vm_compute; reflexivity]. }
  split; [exact H |].
  destruct H as (H1 & H2 & H3 & H4 & H5 & H6 & H7 & H8).
  exact (proj1 (proj2 (audit_warns_when_member_is_gone (date := isoDate) sourceConfig
                         _ _ _ _ _ _ H1 H2 H3 H4 H5 H6 H7 H8))).
Defined.

Lemma audit_reports_missing_base_role_witness :
  (storeOf Sample.baselessWorld !! "bo@example.com" = Some Sample.lapsed /\
   isSubscription Sample.lapsed = true /\
   truthy (discordUserId Sample.lapsed) = true /\
   presentLastPaidAt Sample.lapsed = Some "2024-04-01T00:00:00.000Z" /\
   dateParse (JsDate := isoDate) "2024-04-01T00:00:00.000Z"
   = Some 1711929600000 /\
   AUDIT_GRACE_DAYS sourceConfig * msPerDay
   <= clock Sample.baselessWorld - 1711929600000 /\
   AUDIT_DRY_RUN sourceConfig = false /\
   faultFree Sample.baselessWorld /\
   guild Sample.baselessWorld = Some Sample.baselessServer /\
   is_Some (guildMembers Sample.baselessServer !! discordUserId Sample.lapsed)
   /\ BASE_ROLE_NAME sourceConfig ∉ guildRoles Sample.baselessServer) /\
  holds "bo@example.com" Sample.lapsed
    (after (runSubscriptionAudit (date := isoDate) sourceConfig)
       Sample.baselessWorld) /\
  logged []
    (auditError ("bo@example.com", Sample.lapsed)
       "Base role not found: Members")
    (after (runSubscriptionAudit (date := isoDate) sourceConfig)
       Sample.baselessWorld).
Proof.
  assert (H : storeOf Sample.baselessWorld !! "bo@example.com"
              = Some Sample.lapsed /\
   isSubscription Sample.lapsed = true /\
   truthy (discordUserId Sample.lapsed) = true /\
   presentLastPaidAt Sample.lapsed = Some "2024-04-01T00:00:00.000Z" /\
   dateParse (JsDate := isoDate) "2024-04-01T00:00:00.000Z"
   = Some 1711929600000 /\
   AUDIT_GRACE_DAYS sourceConfig * msPerDay
   <= clock Sample.baselessWorld - 1711929600000 /\
   AUDIT_DRY_RUN sourceConfig = false /\
   faultFree Sample.baselessWorld /\
   guild Sample.baselessWorld = Some Sample.baselessServer /\
   is_Some (guildMembers Sample.baselessServer !! discordUserId Sample.lapsed)
   /\ BASE_ROLE_NAME sourceConfig ∉ guildRoles Sample.baselessServer).
  { split; [vm_compute; reflexivity |]. split; [reflexivity |].
    split; [reflexivity |]. split; [reflexivity |].
    split; [vm_compute; reflexivity |]. split; [vm_compute; discriminate |].
    split; [reflexivity |]. split; [constructor |]. split; [reflexivity |].
    split; [exists {[ "VIP" ]}; vm_compute; reflexivity |].
    apply (bool_decide_unpack _). vm_compute. exact I. }
  split; [exact H |].
  destruct H as (H1 & H2 & H3 & H4 & H5 & H6 & H7 & H8 & H9 & H10 & H11).
  exact (proj2 (audit_reports_missing_base_role (date := isoDate) sourceConfig
                  _ _ _ _ _ _ H1 H2 H3 H4 H5 H6 H7 H8 H9 H10 H11)).
Defined.

Lemma admin_commands_are_gated_witness :
  (isChatInputCommand Sample.strayLookup = true /\
   (commandName Sample.strayLookup = "lookup" \/
    commandName Sample.strayLookup = "status") /\
   (administrator Sample.strayLookup = false \/
    ("bot-logs" <> "" /\ channelId Sample.strayLookup <> "bot-logs"))) /\
  onInteraction (date := isoDate) sourceConfig "bot-logs"
    (Shopify.getPaidLineItemsByEmail Sample.shop) Sample.strayLookup
    Sample.lapsedWorld
  = (Ok (Restricted "Use this command in the bot logs channel only."),
     Sample.lapsedWorld).
Proof.
  assert (H : isChatInputCommand Sample.strayLookup = true /\
   (commandName Sample.strayLookup = "lookup" \/
    commandName Sample.strayLookup = "status") /\
   (administrator Sample.strayLookup = false \/
    ("bot-logs" <> "" /\ channelId Sample.strayLookup <> "bot-logs"))).
  { split; [reflexivity |]. split; [now left |]. right.
    split; discriminate. }
  split; [exact H |].
  destruct H as (H1 & H2 & H3).
  destruct (admin_commands_are_gated (date := isoDate) sourceConfig "bot-logs"
              (Shopify.getPaidLineItemsByEmail Sample.shop)
              Sample.strayLookup Sample.lapsedWorld H1 H2 H3)
    as (why & Hrun & Hwhy & _).
  rewrite Hrun. f_equal. f_equal. f_equal.
  apply Hwhy; discriminate.
Defined.

Lemma status_agrees_with_verify_witness :
  (verifyHandler (date := isoDate) sourceConfig
     (fun _ => Ok Sample.datedItems) Sample.bo Sample.grantWorld
   = (Ok (Verified "VIP"), Sample.datedVerified) /\
   isChatInputCommand Sample.statusOfBo = true /\
   commandName Sample.statusOfBo = "status" /\
   administrator Sample.statusOfBo = true /\
   ("bot-logs" = "" \/ channelId Sample.statusOfBo = "bot-logs") /\
   normEmail (emailOption (request Sample.statusOfBo))
   = normEmail (emailOption Sample.bo)) /\
  exists subscription w3,
    onInteraction (date := isoDate) sourceConfig "bot-logs"
      (fun _ => Ok Sample.datedItems) Sample.statusOfBo Sample.datedVerified
    = (Ok (StatusResult 2 (Some "VIP") subscription), w3) /\
    onlyLogged Sample.datedVerified w3.
Proof.
  assert (H : verifyHandler (date := isoDate) sourceConfig
     (fun _ => Ok Sample.datedItems) Sample.bo Sample.grantWorld
   = (Ok (Verified "VIP"), Sample.datedVerified) /\
   isChatInputCommand Sample.statusOfBo = true /\
   commandName Sample.statusOfBo = "status" /\
   administrator Sample.statusOfBo = true /\
   ("bot-logs" = "" \/ channelId Sample.statusOfBo = "bot-logs") /\
   normEmail (emailOption (request Sample.statusOfBo))
   = normEmail (emailOption Sample.bo)).
  { split; [vm_compute; reflexivity |]. split; [reflexivity |].
    split; [reflexivity |]. split; [reflexivity |].
    split; [now right | vm_compute; reflexivity]. }
  split; [exact H |].
  destruct H as (H1 & H2 & H3 & H4 & H5 & H6).
  destruct (status_agrees_with_verify (date := isoDate) sourceConfig
              "bot-logs" _ _ _ _ _ Sample.statusOfBo Sample.datedVerified
              H1 H2 H3 H4 H5 H6)
    as (items & rec & subscription & w3 & Hgw & _ & Hrun & _ & Hq).
  injection Hgw as <-.
  exists subscription, w3. split; [exact Hrun | exact Hq].
Defined.

Lemma verified_subscription_is_tier_scoped_witness :
  verifyHandler (date := isoDate) sourceConfig
    (fun _ => Ok Sample.datedItems) Sample.bo Sample.grantWorld
  = (Ok (Verified "VIP"), Sample.datedVerified) /\
  exists items t rec,
    pickHighestTier sourceConfig (map Shopify.title items) = Some t /\
    holds "bo@example.com" rec Sample.datedVerified /\
    (isSubscription rec = true <->
     exists li, In li items /\
       Substring (normalize (product t)) (normalize (Shopify.title li)) /\
       Shopify.isSubscription li = true).
Proof.
  assert (H : verifyHandler (date := isoDate) sourceConfig
      (fun _ => Ok Sample.datedItems) Sample.bo Sample.grantWorld
    = (Ok (Verified "VIP"), Sample.datedVerified))
    by (vm_compute; reflexivity).
  split; [exact H |].
  destruct (verified_subscription_is_tier_scoped (date := isoDate)
              _ _ _ _ _ _ H) as (items & t & rec & _ & Hp & _ & Hh & Hiff).
  exists items, t, rec. split; [exact Hp |]. split; [exact Hh | exact Hiff].
Defined.

Lemma reverification_restores_access_witness :
  (faultFree Sample.downgradedWorld /\
   guild Sample.downgradedWorld = Some Sample.server /\
   BASE_ROLE_NAME sourceConfig ∈ guildRoles Sample.server /\
   role Sample.vipTier ∈ guildRoles Sample.server /\
   guildMembers Sample.server !! userId Sample.bo
   = Some {[ "Members"; "VIP" ]} /\
   includes (normEmail (emailOption Sample.bo)) "@" = true /\
   storeOf Sample.downgradedWorld !! normEmail (emailOption Sample.bo)
   = Some (downgradedRecord (date := isoDate) sourceConfig Sample.lapsed 61
             1717243200000) /\
   discordUserId Sample.lapsed = userId Sample.bo /\
   (fun _ : string => Ok Sample.datedItems)
     (normEmail (emailOption Sample.bo)) = Ok Sample.datedItems /\
   pickHighestTier sourceConfig (map Shopify.title Sample.datedItems)
   = Some Sample.vipTier) /\
  exists w' rec',
    verifyHandler (date := isoDate) sourceConfig
      (fun _ => Ok Sample.datedItems) Sample.bo Sample.downgradedWorld
    = (Ok (Verified "VIP"), w') /\
    holds "bo@example.com" rec' w' /\
    tier rec' = "VIP" /\ lastAuditAt rec' = None.
Proof.
  assert (H : faultFree Sample.downgradedWorld /\
   guild Sample.downgradedWorld = Some Sample.server /\
   BASE_ROLE_NAME sourceConfig ∈ guildRoles Sample.server /\
   role Sample.vipTier ∈ guildRoles Sample.server /\
   guildMembers Sample.server !! userId Sample.bo
   = Some {[ "Members"; "VIP" ]} /\
   includes (normEmail (emailOption Sample.bo)) "@" = true /\
   storeOf Sample.downgradedWorld !! normEmail (emailOption Sample.bo)
   = Some (downgradedRecord (date := isoDate) sourceConfig Sample.lapsed 61
             1717243200000) /\
   discordUserId Sample.lapsed = userId Sample.bo /\
   (fun _ : string => Ok Sample.datedItems)
     (normEmail (emailOption Sample.bo)) = Ok Sample.datedItems /\
   pickHighestTier sourceConfig (map Shopify.title Sample.datedItems)
   = Some Sample.vipTier).
  { split; [constructor |]. split; [reflexivity |].
    split; [apply (bool_decide_unpack _); vm_compute; exact I |].
    split; [apply (bool_decide_unpack _); vm_compute; exact I |].
    split; [vm_compute; reflexivity |]. split; [vm_compute; reflexivity |].
    split; [vm_compute; reflexivity |]. split; [reflexivity |].
    split; [reflexivity |]. vm_compute. reflexivity. }
  split; [exact H |].
  destruct H as (H1 & H2 & H3 & H4 & H5 & H6 & H7 & H8 & H9 & H10).
  destruct (reverification_restores_access (date := isoDate) sourceConfig
              (fun _ => Ok Sample.datedItems) Sample.bo Sample.downgradedWorld
              Sample.server _ Sample.datedItems Sample.vipTier Sample.lapsed
              61 1717243200000 H1 H2 H3 H4 H5 H6 H7 H8 H9 H10)
    as (w' & rec' & Hrun & Hh & _ & Ht & Ha & _).
  exists w', rec'. split; [exact Hrun |]. split; [exact Hh |].
  split; [exact Ht | exact Ha].
Defined.

Lemma verify_write_failure_keeps_grant_witness :
  (guild Sample.readOnlyWorld = Some Sample.server /\
   BASE_ROLE_NAME sourceConfig ∈ guildRoles Sample.server /\
   role Sample.vipTier ∈ guildRoles Sample.server /\
   guildMembers Sample.server !! userId Sample.ana = Some Sample.anaRoles /\
   includes (normEmail (emailOption Sample.ana)) "@" = true /\
   linkedToOther (storeOf Sample.readOnlyWorld)
     (normEmail (emailOption Sample.ana)) (userId Sample.ana) = None /\
   (fun _ : string => Ok Sample.datedItems)
     (normEmail (emailOption Sample.ana)) = Ok Sample.datedItems /\
   pickHighestTier sourceConfig (map Shopify.title Sample.datedItems)
   = Some Sample.vipTier /\
   faults Sample.readOnlyWorld =
     None :: None ::
     match otherTierRoles sourceConfig Sample.server (role Sample.vipTier) with
     | [] => [Some "EACCES: permission denied"]
     | _ => [None; Some "EACCES: permission denied"]
     end) /\
  exists w' rs',
    verifyHandler (date := isoDate) sourceConfig
      (fun _ => Ok Sample.datedItems) Sample.ana Sample.readOnlyWorld
    = (Ok (VerificationFailed "EACCES: permission denied"), w') /\
    memberRoles "1001" w' = Some rs' /\ ("VIP" ∈ rs') /\
    storeOf w' = storeOf Sample.readOnlyWorld.
Proof.
  assert (H : guild Sample.readOnlyWorld = Some Sample.server /\
   BASE_ROLE_NAME sourceConfig ∈ guildRoles Sample.server /\
   role Sample.vipTier ∈ guildRoles Sample.server /\
   guildMembers Sample.server !! userId Sample.ana = Some Sample.anaRoles /\
   includes (normEmail (emailOption Sample.ana)) "@" = true /\
   linkedToOther (storeOf Sample.readOnlyWorld)
     (normEmail (emailOption Sample.ana)) (userId Sample.ana) = None /\
   (fun _ : string => Ok Sample.datedItems)
     (normEmail (emailOption Sample.ana)) = Ok Sample.datedItems /\
   pickHighestTier sourceConfig (map Shopify.title Sample.datedItems)
   = Some Sample.vipTier /\
   faults Sample.readOnlyWorld =
     None :: None ::
     match otherTierRoles sourceConfig Sample.server (role Sample.vipTier) with
     | [] => [Some "EACCES: permission denied"]
     | _ => [None; Some "EACCES: permission denied"]
     end).
  { split; [reflexivity |].
    split; [apply (bool_decide_unpack _); vm_compute; exact I |].
    split; [apply (bool_decide_unpack _); vm_compute; exact I |].
    split; [vm_compute; reflexivity |]. split; [vm_compute; reflexivity |].
    split; [vm_compute; reflexivity |]. split; [reflexivity |].
    split; vm_compute; reflexivity. }
  split; [exact H |].
  destruct H as (H1 & H2 & H3 & H4 & H5 & H6 & H7 & H8 & H9).
  destruct (verify_write_failure_keeps_grant (date := isoDate) sourceConfig
              (fun _ => Ok Sample.datedItems) Sample.ana Sample.readOnlyWorld
              Sample.server Sample.anaRoles Sample.datedItems Sample.vipTier
              "EACCES: permission denied" [] H1 H2 H3 H4 H5 H6 H7 H8 H9)
    as (w' & Hrun & Hr & _ & Ht & Hs & _).
  exists w', (grantedRoles sourceConfig Sample.server (role Sample.vipTier)
                Sample.anaRoles).
  split; [exact Hrun |]. split; [exact Hr |]. split; [exact Ht | exact Hs].
Defined.
